(** * JAVASTOK: inventory ledger, access rules and report aggregation

    A shallow embedding of the stock-tracking server (shared/schema.ts,
    server/storage.ts, server/auth.ts, server/routes.ts) and of the parts of
    the client that decide what a user sees (the summary tab of
    client/src/pages/reporting.tsx, the first page and the side menu, the
    grouping of the product page, the delete button of the user page),
    followed by the properties of the ledger that the specification states
    and by further properties of the storage, the routes and these pages.

    Conventions of the embedding.
    - A JavaScript number is a [number]: a finite value carried exactly as a
      rational, or one of NaN, +Infinity, -Infinity.  Rounding, overflow and
      the sign of zero are not represented.
    - A value that went through parseInt is an [integer]: an integer or NaN.
    - A Date is its time value in milliseconds ([Z]); an unparsable date
      string gives the invalid date.  Each operation receives the reading
      [now] of the server clock that its [new Date()] calls return.
    - A Map<number, row> and a database table are both the list of their
      rows in insertion order, together with the counter (or serial
      sequence) that hands out ids.
    - Strings are byte strings; toLowerCase acts on the ASCII letters. *)

From Stdlib Require Import ZArith QArith Qabs List String Ascii Bool Lia Lqa.
From Stdlib Require Import Permutation Sorted.
Import ListNotations.
Open Scope string_scope.
Open Scope list_scope.
Open Scope Z_scope.

Set Implicit Arguments.

(* ================================================================== *)
(** * JavaScript values *)
(* ================================================================== *)

Inductive number : Type :=
| Fin (q : Q)
| NaN
| PosInf
| NegInf.

(** Equality of numbers as values: rationals up to [Qeq]. *)
Definition num_eq (a b : number) : Prop :=
  match a, b with
  | Fin x, Fin y => (x == y)%Q
  | NaN, NaN => True
  | PosInf, PosInf => True
  | NegInf, NegInf => True
  | _, _ => False
  end.


Definition num_neg (a : number) : number :=
  match a with
  | Fin x => Fin (- x)%Q
  | NaN => NaN
  | PosInf => NegInf
  | NegInf => PosInf
  end.

(** [a + b] *)
Definition num_add (a b : number) : number :=
  match a, b with
  | NaN, _ | _, NaN => NaN
  | Fin x, Fin y => Fin (x + y)%Q
  | PosInf, NegInf | NegInf, PosInf => NaN
  | PosInf, _ | _, PosInf => PosInf
  | NegInf, _ | _, NegInf => NegInf
  end.

(** [a - b] *)
Definition num_sub (a b : number) : number :=
  match a, b with
  | NaN, _ | _, NaN => NaN
  | Fin x, Fin y => Fin (x - y)%Q
  | PosInf, PosInf | NegInf, NegInf => NaN
  | PosInf, _ | _, NegInf => PosInf
  | NegInf, _ | _, PosInf => NegInf
  end.

(** [Math.abs(a)] *)
Definition num_abs (a : number) : number :=
  match a with
  | Fin x => Fin (Qabs x)
  | NaN => NaN
  | PosInf | NegInf => PosInf
  end.

Definition Qneg_b (x : Q) : bool := (Qnum x <? 0)%Z.
Definition Qzero_b (x : Q) : bool := (Qnum x =? 0)%Z.
Definition Qpos_b (x : Q) : bool := (0 <? Qnum x)%Z.

(** [a / b]: a zero divisor gives an infinity, or NaN for 0/0. *)
Definition num_div (a b : number) : number :=
  match a, b with
  | NaN, _ | _, NaN => NaN
  | Fin x, Fin y =>
      if Qzero_b y then
        (if Qzero_b x then NaN else if Qneg_b x then NegInf else PosInf)
      else Fin (x / y)%Q
  | Fin _, (PosInf | NegInf) => Fin 0
  | PosInf, Fin y => if Qneg_b y then NegInf else PosInf
  | NegInf, Fin y => if Qneg_b y then PosInf else NegInf
  | (PosInf | NegInf), (PosInf | NegInf) => NaN
  end.

(** [a > 0] *)
Definition num_gt0 (a : number) : bool :=
  match a with
  | Fin x => Qpos_b x
  | PosInf => true
  | NaN | NegInf => false
  end.

(** ToBoolean on a number: 0 and NaN are falsy. *)
Definition num_truthy (a : number) : bool :=
  match a with
  | Fin x => negb (Qzero_b x)
  | NaN => false
  | PosInf | NegInf => true
  end.

(** [a || 0] *)
Definition num_or0 (a : number) : number :=
  if num_truthy a then a else Fin 0.

(** The result of parseInt: an integer, or NaN. *)
Inductive integer : Type :=
| Int (z : Z)
| IntNaN.

(** [a === b] on the results of parseInt and integer columns. *)
Definition int_eqb (a b : integer) : bool :=
  match a, b with
  | Int x, Int y => x =? y
  | _, _ => false
  end.

(** A field of a decoded JSON request body.  A JSON number is finite. *)
Inductive JsVal : Type :=
| JUndefined
| JNull
| JBool (b : bool)
| JNum (q : Q)
| JStr (s : string).

(** ToBoolean *)
Definition truthy (v : JsVal) : bool :=
  match v with
  | JUndefined | JNull => false
  | JBool b => b
  | JNum q => negb (Qzero_b q)
  | JStr s => negb (s =? "")%string
  end.

(* ------------------------------------------------------------------ *)
(** ** parseFloat and parseInt *)

Definition is_space (c : ascii) : bool :=
  let n := nat_of_ascii c in
  ((9 <=? n) && (n <=? 13))%nat || (n =? 32)%nat.

Fixpoint trim_start (s : string) : string :=
  match s with
  | String c r => if is_space c then trim_start r else s
  | EmptyString => s
  end.

Definition digit_of (c : ascii) : option Z :=
  let n := Z.of_nat (nat_of_ascii c) in
  if (48 <=? n) && (n <=? 57) then Some (n - 48) else None.

Definition hex_digit_of (c : ascii) : option Z :=
  let n := Z.of_nat (nat_of_ascii c) in
  if (48 <=? n) && (n <=? 57) then Some (n - 48)
  else if (97 <=? n) && (n <=? 102) then Some (n - 87)
  else if (65 <=? n) && (n <=? 70) then Some (n - 55)
  else None.

(** Reads the longest prefix of digits in the given radix: the value read so
    far, the number of digits read, and the rest of the string. *)
Fixpoint read_digits (digit : ascii -> option Z) (radix : Z)
         (s : string) (acc : Z) (count : nat) : Z * nat * string :=
  match s with
  | String c r =>
      match digit c with
      | Some d => read_digits digit radix r (radix * acc + d) (S count)
      | None => (acc, count, s)
      end
  | EmptyString => (acc, count, s)
  end.

Definition read_sign (s : string) : bool * string :=
  match s with
  | String "-" r => (true, r)
  | String "+" r => (false, r)
  | _ => (false, s)
  end.

(** The exponent part [e[+-]ddd] of a decimal literal, if there is one. *)
Definition read_exponent (s : string) : Z :=
  match s with
  | String c r =>
      if (c =? "e")%char || (c =? "E")%char then
        let (neg, r1) := read_sign r in
        match read_digits digit_of 10 r1 0 0%nat with
        | (_, O, _) => 0
        | (e, _, _) => if neg then - e else e
        end
      else 0
  | EmptyString => 0
  end.

Definition pow10 (e : Z) : Q :=
  if e <? 0 then (1 # Pos.pow 10 (Z.to_pos (- e)))%Q
  else inject_Z (10 ^ e).

(** parseFloat on a string: leading white space is skipped and the longest
    prefix that is a decimal literal is read. *)
Definition parseFloat_string (s : string) : number :=
  let (neg, r) := read_sign (trim_start s) in
  if prefix "Infinity" r then (if neg then NegInf else PosInf)
  else
    match read_digits digit_of 10 r 0 0%nat with
    | (ip, ni, r1) =>
        let '(fp, nf, r2) :=
          match r1 with
          | String "." r1' => read_digits digit_of 10 r1' 0 0%nat
          | _ => (0, O, r1)
          end in
        match ni, nf with
        | O, O => NaN
        | _, _ =>
            let mant := (inject_Z (ip * 10 ^ Z.of_nat nf + fp)
                         * pow10 (- Z.of_nat nf))%Q in
            let v := (mant * pow10 (read_exponent r2))%Q in
            Fin (if neg then (- v)%Q else v)
        end
    end.

Definition parseFloat (v : JsVal) : number :=
  match v with
  | JNum q => Fin q
  | JStr s => parseFloat_string s
  | JUndefined | JNull | JBool _ => NaN
  end.

(** parseInt on a string, radix not given: base 16 after [0x], else 10. *)
Definition parseInt_string (s : string) : integer :=
  let (neg, r) := read_sign (trim_start s) in
  let '(v, n, _) :=
    if prefix "0x" r || prefix "0X" r
    then read_digits hex_digit_of 16 (substring 2 (length r - 2) r) 0 0%nat
    else read_digits digit_of 10 r 0 0%nat in
  match n with
  | O => IntNaN
  | _ => Int (if neg then - v else v)
  end.

(** Truncation toward zero. *)
Definition Qtrunc (q : Q) : Z := Z.quot (Qnum q) (Zpos (Qden q)).

(** parseInt converts its argument to a string first; for a number written
    without an exponent (magnitude from 1e-6 up to 1e21, or zero) the digits
    before the decimal point are read back, that is, the integer part. *)
Definition parseInt (v : JsVal) : integer :=
  match v with
  | JNum q => Int (Qtrunc q)
  | JStr s => parseInt_string s
  | JUndefined | JNull | JBool _ => IntNaN
  end.

Definition lower_char (c : ascii) : ascii :=
  let n := nat_of_ascii c in
  if ((65 <=? n) && (n <=? 90))%nat then ascii_of_nat (n + 32) else c.

Fixpoint toLowerCase (s : string) : string :=
  match s with
  | String c r => String (lower_char c) (toLowerCase r)
  | EmptyString => EmptyString
  end.

(** A [Date]: its time value, or the invalid date. *)
Inductive Date : Type :=
| ValidDate (ms : Z)
| InvalidDate.

(** [d >= start] and [d <= end] for a stored (valid) date [d]; a comparison
    with the invalid date is false. *)
Definition date_ge (d : Z) (start : Date) : bool :=
  match start with ValidDate s => s <=? d | InvalidDate => false end.

Definition date_le (d : Z) (end_ : Date) : bool :=
  match end_ with ValidDate e => d <=? e | InvalidDate => false end.

(* ================================================================== *)
(** * shared/schema.ts *)
(* ================================================================== *)

Module User.
Record t : Type := mk {
  id : Z;
  username : string;
  password : string;
  is_admin : bool;
  can_add_product : bool;
  can_view_reports : bool;
  can_manage_inventory : bool
}.
End User.

Module InsertUser.
Record t : Type := mk {
  username : string;
  password : string;
  is_admin : option bool;
  can_add_product : option bool;
  can_view_reports : option bool;
  can_manage_inventory : option bool
}.
End InsertUser.

Module Product.
Record t : Type := mk {
  id : Z;
  name : string;
  category : string
}.
End Product.

Module InsertProduct.
Record t : Type := mk {
  name : string;
  category : option string
}.
End InsertProduct.

Module Inventory.
Record t : Type := mk {
  id : Z;
  product_id : integer;
  quantity : number;
  unit : string;
  total_price : number;
  last_updated : Z;
  updated_by : option Z
}.
End Inventory.

Module InsertInventory.
Record t : Type := mk {
  product_id : integer;
  quantity : number;
  unit : string;
  total_price : number;
  last_updated : Z;
  updated_by : option Z
}.
End InsertInventory.

Module InventoryMovement.
Record t : Type := mk {
  id : Z;
  product_id : integer;
  quantity_change : number;
  unit : string;
  total_price : number;
  movement_type : string;
  movement_date : Z;
  user_id : option Z
}.
End InventoryMovement.

Module InsertInventoryMovement.
Record t : Type := mk {
  product_id : integer;
  quantity_change : number;
  unit : string;
  total_price : number;
  movement_type : string;
  movement_date : Z;
  user_id : option Z
}.
End InsertInventoryMovement.

Module ProductWithInventory.
Record t : Type := mk {
  id : Z;
  name : string;
  category : string;
  current_quantity : number;
  unit : string;
  total_value : number;
  movement_count : nat
}.
End ProductWithInventory.

(** [InventoryMovement & { product_name, product_category, local_date }];
    [local_date] is the host's rendering of [movement_date] and is read off
    the movement. *)
Module InventoryMovementWithDetails.
Record t : Type := mk {
  movement : InventoryMovement.t;
  product_name : string;
  product_category : string
}.
Definition movement_date (d : t) : Z :=
  InventoryMovement.movement_date (movement d).
End InventoryMovementWithDetails.

(** [x ?? false] *)
Definition or_false (x : option bool) : bool :=
  match x with Some b => b | None => false end.

(** [category || "GENEL"] *)
Definition or_genel (x : option string) : string :=
  match x with
  | Some c => if (c =? "")%string then "GENEL" else c
  | None => "GENEL"
  end.

(* ================================================================== *)
(** * The four collections *)
(* ================================================================== *)

Record Store : Type := mkStore {
  users : list User.t;
  products : list Product.t;
  inventory : list Inventory.t;
  inventoryMovements : list InventoryMovement.t;
  userIdCounter : Z;
  productIdCounter : Z;
  inventoryIdCounter : Z;
  movementIdCounter : Z
}.

Definition with_users (st : Store) (l : list User.t) (c : Z) : Store :=
  mkStore l (products st) (inventory st) (inventoryMovements st)
          c (productIdCounter st) (inventoryIdCounter st) (movementIdCounter st).

Definition with_products (st : Store) (l : list Product.t) (c : Z) : Store :=
  mkStore (users st) l (inventory st) (inventoryMovements st)
          (userIdCounter st) c (inventoryIdCounter st) (movementIdCounter st).

Definition with_inventory (st : Store) (l : list Inventory.t) (c : Z) : Store :=
  mkStore (users st) (products st) l (inventoryMovements st)
          (userIdCounter st) (productIdCounter st) c (movementIdCounter st).

Definition with_movements (st : Store) (l : list InventoryMovement.t) (c : Z)
  : Store :=
  mkStore (users st) (products st) (inventory st) l
          (userIdCounter st) (productIdCounter st) (inventoryIdCounter st) c.

Definition empty_store : Store := mkStore [] [] [] [] 1 1 1 1.

(** Rows keyed by their id: the operations of a Map<number, row>, which are
    also the effect of a statement [WHERE id = k] on a table. *)
Section Rows.
Variable row : Type.
Variable key : row -> Z.

Definition has_key (k : integer) (r : row) : bool := int_eqb (Int (key r)) k.

(** [map.get(k)] *)
Definition rows_get (k : integer) (l : list row) : option row :=
  find (has_key k) l.

(** [map.has(k)] *)
Definition rows_has (k : integer) (l : list row) : bool :=
  existsb (has_key k) l.

(** [map.set(key r, r)]: an existing key keeps its place. *)
Definition rows_set (r : row) (l : list row) : list row :=
  if rows_has (Int (key r)) l
  then map (fun x => if has_key (Int (key r)) x then r else x) l
  else l ++ [r].

(** [map.delete(k)], without its result. *)
Definition rows_delete (k : integer) (l : list row) : list row :=
  filter (fun r => negb (has_key k r)) l.
End Rows.

Arguments has_key : simpl never.

(** [array.sort((a, b) => date(b) - date(a))]: newest first.  The sort is
    stable, which fixes its result: it is what inserting the elements one by
    one, from the last to the first, in front of the first element that is
    not newer, gives. *)
Section NewestFirst.
Variable A : Type.
Variable date : A -> Z.

Fixpoint insert_newest_first (a : A) (l : list A) : list A :=
  match l with
  | [] => [a]
  | x :: r =>
      if date x <=? date a then a :: l else x :: insert_newest_first a r
  end.

Definition sort_newest_first (l : list A) : list A :=
  fold_right insert_newest_first [] l.

(** [array.slice(0, limit)]: a negative [limit] counts from the end, NaN is
    taken as 0. *)
Definition slice_to (limit : integer) (l : list A) : list A :=
  match limit with
  | IntNaN => []
  | Int z =>
      if z <? 0
      then firstn (Z.to_nat (Z.of_nat (List.length l) + z)) l
      else firstn (Z.to_nat z) l
  end.
End NewestFirst.

(* ================================================================== *)
(** * server/storage.ts: MemStorage *)
(* ================================================================== *)

Module MemStorage.

(** The constructor: empty maps, counters at 1, and the admin user. *)
Definition admin_hash : string :=
  "$2b$10$enyk9jDoU46isk1pWPoxROnncUaC6Qbso9ETHKHCiwo/uEt00VP6.".

Definition getUser (id : integer) (st : Store) : option User.t :=
  rows_get User.id id (users st).

Definition getUserByUsername (username : string) (st : Store)
  : option User.t :=
  find (fun user =>
          (toLowerCase (User.username user) =? toLowerCase username)%string)
       (users st).

Definition createUser (insertUser : InsertUser.t) (st : Store)
  : User.t * Store :=
  let id := userIdCounter st in
  let user :=
    User.mk id
            (InsertUser.username insertUser)
            (InsertUser.password insertUser)
            (or_false (InsertUser.is_admin insertUser))
            (or_false (InsertUser.can_add_product insertUser))
            (or_false (InsertUser.can_view_reports insertUser))
            (or_false (InsertUser.can_manage_inventory insertUser)) in
  (user, with_users st (rows_set User.id user (users st)) (id + 1)).

Definition deleteUser (id : integer) (st : Store) : bool * Store :=
  (rows_has User.id id (users st),
   with_users st (rows_delete User.id id (users st)) (userIdCounter st)).

Definition getAllUsers (st : Store) : list User.t := users st.

Definition constructor : Store :=
  snd (createUser
         (InsertUser.mk "admin" admin_hash
                        (Some true) (Some true) (Some true) (Some true))
         empty_store).

Definition createProduct (product : InsertProduct.t) (st : Store)
  : Product.t * Store :=
  let id := productIdCounter st in
  let newProduct :=
    Product.mk id (InsertProduct.name product)
               (or_genel (InsertProduct.category product)) in
  (newProduct,
   with_products st (rows_set Product.id newProduct (products st)) (id + 1)).

Definition getProduct (id : integer) (st : Store) : option Product.t :=
  rows_get Product.id id (products st).

Definition getProductByName (name : string) (st : Store)
  : option Product.t :=
  find (fun product =>
          (toLowerCase (Product.name product) =? toLowerCase name)%string)
       (products st).

Definition getAllProducts (st : Store) : list Product.t := products st.

Definition deleteProduct (id : integer) (st : Store) : bool * Store :=
  let inventoryItems :=
    filter (fun item => int_eqb (Inventory.product_id item) id)
           (inventory st) in
  let inventory' :=
    fold_left (fun inv item =>
                 rows_delete Inventory.id (Int (Inventory.id item)) inv)
              inventoryItems (inventory st) in
  let movements :=
    filter (fun movement =>
              int_eqb (InventoryMovement.product_id movement) id)
           (inventoryMovements st) in
  let movements' :=
    fold_left (fun ms movement =>
                 rows_delete InventoryMovement.id
                             (Int (InventoryMovement.id movement)) ms)
              movements (inventoryMovements st) in
  (rows_has Product.id id (products st),
   mkStore (users st)
           (rows_delete Product.id id (products st))
           inventory' movements'
           (userIdCounter st) (productIdCounter st)
           (inventoryIdCounter st) (movementIdCounter st)).

Definition getInventoryItem (productId : integer) (st : Store)
  : option Inventory.t :=
  find (fun item => int_eqb (Inventory.product_id item) productId)
       (inventory st).

Definition updateInventory (now : Z) (item : InsertInventory.t) (st : Store)
  : Inventory.t * Store :=
  match getInventoryItem (InsertInventory.product_id item) st with
  | Some existingItem =>
      let updatedItem :=
        Inventory.mk
          (Inventory.id existingItem)
          (Inventory.product_id existingItem)
          (num_add (Inventory.quantity existingItem)
                   (InsertInventory.quantity item))
          (InsertInventory.unit item)
          (num_add (Inventory.total_price existingItem)
                   (InsertInventory.total_price item))
          now
          (InsertInventory.updated_by item) in
      (updatedItem,
       with_inventory st (rows_set Inventory.id updatedItem (inventory st))
                      (inventoryIdCounter st))
  | None =>
      let id := inventoryIdCounter st in
      let newItem :=
        Inventory.mk
          id
          (InsertInventory.product_id item)
          (InsertInventory.quantity item)
          (InsertInventory.unit item)
          (InsertInventory.total_price item)
          now
          (InsertInventory.updated_by item) in
      (newItem,
       with_inventory st (rows_set Inventory.id newItem (inventory st))
                      (id + 1))
  end.

Definition getAllInventory (st : Store) : list Inventory.t := inventory st.

Definition createInventoryMovement
           (now : Z) (movement : InsertInventoryMovement.t) (st : Store)
  : InventoryMovement.t * Store :=
  let id := movementIdCounter st in
  let newMovement :=
    InventoryMovement.mk
      id
      (InsertInventoryMovement.product_id movement)
      (InsertInventoryMovement.quantity_change movement)
      (InsertInventoryMovement.unit movement)
      (InsertInventoryMovement.total_price movement)
      (InsertInventoryMovement.movement_type movement)
      now
      (InsertInventoryMovement.user_id movement) in
  (newMovement,
   with_movements st
     (rows_set InventoryMovement.id newMovement (inventoryMovements st))
     (id + 1)).

Definition getInventoryMovement (id : integer) (st : Store)
  : option InventoryMovement.t :=
  rows_get InventoryMovement.id id (inventoryMovements st).

Definition deleteInventoryMovement (now : Z) (id : integer) (st : Store)
  : bool * Store :=
  match rows_get InventoryMovement.id id (inventoryMovements st) with
  | None => (false, st)
  | Some movement =>
      let st1 :=
        match getInventoryItem (InventoryMovement.product_id movement) st with
        | Some inventoryItem =>
            let updatedItem :=
              Inventory.mk
                (Inventory.id inventoryItem)
                (Inventory.product_id inventoryItem)
                (num_sub (Inventory.quantity inventoryItem)
                         (InventoryMovement.quantity_change movement))
                (Inventory.unit inventoryItem)
                (num_sub (Inventory.total_price inventoryItem)
                         (InventoryMovement.total_price movement))
                now
                (Inventory.updated_by inventoryItem) in
            with_inventory st
              (rows_set Inventory.id updatedItem (inventory st))
              (inventoryIdCounter st)
        | None => st
        end in
      (rows_has InventoryMovement.id id (inventoryMovements st1),
       with_movements st1
         (rows_delete InventoryMovement.id id (inventoryMovements st1))
         (movementIdCounter st1))
  end.

(** [startDate] and [endDate] are taken after [new Date(...)].  The sum
    [totalMovement] that the loop also computes is not part of the row. *)
Definition getInventoryReport (start end_ : Date) (st : Store)
  : list ProductWithInventory.t :=
  map (fun product =>
         let inventoryItem := getInventoryItem (Int (Product.id product)) st in
         let movements :=
           filter (fun m =>
                     int_eqb (InventoryMovement.product_id m)
                             (Int (Product.id product))
                     && date_ge (InventoryMovement.movement_date m) start
                     && date_le (InventoryMovement.movement_date m) end_)
                  (inventoryMovements st) in
         ProductWithInventory.mk
           (Product.id product)
           (Product.name product)
           (Product.category product)
           (match inventoryItem with
            | Some i => num_or0 (Inventory.quantity i)
            | None => Fin 0
            end)
           (match inventoryItem with
            | Some i => Inventory.unit i
            | None => ""
            end)
           (match inventoryItem with
            | Some i => num_or0 (Inventory.total_price i)
            | None => Fin 0
            end)
           (List.length movements))
      (getAllProducts st).

Definition getProductsByCategory (category : string) (st : Store)
  : list Product.t :=
  filter (fun product => (Product.category product =? category)%string)
         (products st).

(** The loop that both movement listings end with: a movement whose product
    is not found is left out. *)
Definition with_product_details
           (movements : list InventoryMovement.t) (st : Store)
  : list InventoryMovementWithDetails.t :=
  flat_map (fun movement =>
              match getProduct (InventoryMovement.product_id movement) st with
              | Some product =>
                  [InventoryMovementWithDetails.mk
                     movement (Product.name product)
                     (Product.category product)]
              | None => []
              end)
           movements.

Definition getLatestInventoryMovements (limit : integer) (st : Store)
  : list InventoryMovementWithDetails.t :=
  let movements :=
    slice_to limit
             (sort_newest_first InventoryMovement.movement_date
                                (inventoryMovements st)) in
  with_product_details movements st.

Definition getDetailedMovementsReport (start end_ : Date) (st : Store)
  : list InventoryMovementWithDetails.t :=
  let movements :=
    sort_newest_first
      InventoryMovement.movement_date
      (filter (fun m =>
                 date_ge (InventoryMovement.movement_date m) start
                 && date_le (InventoryMovement.movement_date m) end_)
              (inventoryMovements st)) in
  with_product_details movements st.

End MemStorage.

(* ================================================================== *)
(** * Operations that may throw *)
(* ================================================================== *)

Inductive outcome (A : Type) : Type :=
| Ok (a : A)
| Throw.
Arguments Throw {A}.

(** A computation over a state [S]: it returns or throws, and the state it
    leaves behind holds whatever was written before the throw. *)
Definition M (S A : Type) : Type := S -> outcome A * S.

Definition ret {S A : Type} (a : A) : M S A := fun s => (Ok a, s).

Definition throw {S A : Type} : M S A := fun s => (Throw, s).

Definition bind {S A B : Type} (m : M S A) (f : A -> M S B) : M S B :=
  fun s =>
    match m s with
    | (Ok a, s') => f a s'
    | (Throw, s') => (Throw, s')
    end.

(** [try { m } catch (error) { handler }] *)
Definition try_catch {S A : Type} (m : M S A) (handler : M S A) : M S A :=
  fun s =>
    match m s with
    | (Ok a, s') => (Ok a, s')
    | (Throw, s') => handler s'
    end.

(** A computation that cannot throw, as a function. *)
Definition pure_op {S A : Type} (f : S -> A * S) : M S A :=
  fun s => (Ok (fst (f s)), snd (f s)).

Definition pure_read {S A : Type} (f : S -> A) : M S A :=
  fun s => (Ok (f s), s).

Declare Scope monad_scope.
Delimit Scope monad_scope with monad.
Notation "x <- m ;; k" := (bind m (fun x => k))
  (at level 61, m at next level, right associativity) : monad_scope.
Notation "m ;;; k" := (bind m (fun _ => k))
  (at level 61, right associativity) : monad_scope.
Open Scope monad_scope.

(** [for (const x of l) { ... push(f x) }] *)
Fixpoint mapM {S A B : Type} (f : A -> M S B) (l : list A) : M S (list B) :=
  match l with
  | [] => ret []
  | x :: r => y <- f x ;; ys <- mapM f r ;; ret (y :: ys)
  end.

(* ================================================================== *)
(** * server/storage.ts: DatabaseStorage *)
(* ================================================================== *)

(** The database: its tables and sequences, and what the connection will do
    to the coming statements ([true]: that statement fails without effect,
    as on a lost connection; an empty list: no such failure any more).
    Each statement is atomic; nothing groups statements into a transaction.
    The constraints of schema.ts are enforced by the statements themselves:
    primary keys, the unique username and product name, and the references
    of inventory and inventory_movements to products and users.  A row
    refused by a constraint has already drawn its id from the sequence. *)
Record Db : Type := mkDb {
  tables : Store;
  failures : list bool
}.

Definition healthy (t : Store) : Db := mkDb t [].

Definition statement {A : Type} (run : Store -> outcome A * Store) : M Db A :=
  fun db =>
    match failures db with
    | true :: rest => (Throw, mkDb (tables db) rest)
    | false :: rest =>
        (fst (run (tables db)), mkDb (snd (run (tables db))) rest)
    | [] => (fst (run (tables db)), mkDb (snd (run (tables db))) [])
    end.

(** [references(() => users.id)] on a nullable column *)
Definition user_ref_ok (ref : option Z) (t : Store) : bool :=
  match ref with
  | Some u => rows_has User.id (Int u) (users t)
  | None => true
  end.

(** [references(() => products.id)] on an integer column; NaN is not an
    integer. *)
Definition product_ref_ok (ref : integer) (t : Store) : bool :=
  match ref with
  | Int _ => rows_has Product.id ref (products t)
  | IntNaN => false
  end.

Definition opt_eqb (a : option Z) (z : Z) : bool :=
  match a with Some x => x =? z | None => false end.

Module DatabaseStorage.

(** [SELECT * FROM users WHERE id = $1] *)
Definition select_user (id : integer) (t : Store)
  : outcome (option User.t) * Store :=
  match id with
  | Int _ => (Ok (rows_get User.id id (users t)), t)
  | IntNaN => (Throw, t)
  end.

Definition getUser (id : integer) : M Db (option User.t) :=
  statement (select_user id).

Definition getUserByUsername (username : string) : M Db (option User.t) :=
  statement (fun t =>
    (Ok (find (fun u => (User.username u =? username)%string) (users t)),
     t)).

(** [INSERT INTO users ... RETURNING *] *)
Definition insert_user (userData : InsertUser.t) (t : Store)
  : outcome User.t * Store :=
  let id := userIdCounter t in
  let user :=
    User.mk id
            (InsertUser.username userData)
            (InsertUser.password userData)
            (or_false (InsertUser.is_admin userData))
            (or_false (InsertUser.can_add_product userData))
            (or_false (InsertUser.can_view_reports userData))
            (or_false (InsertUser.can_manage_inventory userData)) in
  if rows_has User.id (Int id) (users t)
     || existsb (fun u => (User.username u =? User.username user)%string)
                (users t)
  then (Throw, with_users t (users t) (id + 1))
  else (Ok user, with_users t (users t ++ [user]) (id + 1)).

Definition createUser (insertUser : InsertUser.t) : M Db User.t :=
  statement (insert_user insertUser).

(** [DELETE FROM users WHERE id = $1] *)
Definition delete_user (id : integer) (t : Store) : outcome unit * Store :=
  match id with
  | IntNaN => (Throw, t)
  | Int z =>
      if rows_has User.id id (users t)
         && (existsb (fun i => opt_eqb (Inventory.updated_by i) z)
                     (inventory t)
             || existsb (fun m => opt_eqb (InventoryMovement.user_id m) z)
                        (inventoryMovements t))
      then (Throw, t)
      else (Ok tt,
            with_users t (rows_delete User.id id (users t))
                       (userIdCounter t))
  end.

Definition deleteUser (id : integer) : M Db bool :=
  try_catch
    (statement (delete_user id) ;;;
     ret true)
    (ret false).

Definition getAllUsers : M Db (list User.t) :=
  statement (fun t => (Ok (users t), t)).

(** [INSERT INTO products ... RETURNING *] *)
Definition insert_product (product : InsertProduct.t) (t : Store)
  : outcome Product.t * Store :=
  let id := productIdCounter t in
  let newProduct :=
    Product.mk id (InsertProduct.name product)
               (or_genel (InsertProduct.category product)) in
  if rows_has Product.id (Int id) (products t)
     || existsb (fun p => (Product.name p =? Product.name newProduct)%string)
                (products t)
  then (Throw, with_products t (products t) (id + 1))
  else (Ok newProduct,
        with_products t (products t ++ [newProduct]) (id + 1)).

Definition createProduct (product : InsertProduct.t) : M Db Product.t :=
  statement (insert_product product).

Definition select_product (id : integer) (t : Store)
  : outcome (option Product.t) * Store :=
  match id with
  | Int _ => (Ok (rows_get Product.id id (products t)), t)
  | IntNaN => (Throw, t)
  end.

Definition getProduct (id : integer) : M Db (option Product.t) :=
  statement (select_product id).

Definition getProductByName (name : string) : M Db (option Product.t) :=
  statement (fun t =>
    (Ok (find (fun p => (Product.name p =? name)%string) (products t)), t)).

Definition getAllProducts : M Db (list Product.t) :=
  statement (fun t => (Ok (products t), t)).

(** [DELETE FROM inventory_movements WHERE product_id = $1] *)
Definition delete_movements_of (id : integer) (t : Store)
  : outcome unit * Store :=
  match id with
  | IntNaN => (Throw, t)
  | Int _ =>
      (Ok tt,
       with_movements t
         (filter (fun m => negb (int_eqb (InventoryMovement.product_id m) id))
                 (inventoryMovements t))
         (movementIdCounter t))
  end.

(** [DELETE FROM inventory WHERE product_id = $1] *)
Definition delete_inventory_of (id : integer) (t : Store)
  : outcome unit * Store :=
  match id with
  | IntNaN => (Throw, t)
  | Int _ =>
      (Ok tt,
       with_inventory t
         (filter (fun i => negb (int_eqb (Inventory.product_id i) id))
                 (inventory t))
         (inventoryIdCounter t))
  end.

(** [DELETE FROM products WHERE id = $1] *)
Definition delete_product (id : integer) (t : Store)
  : outcome unit * Store :=
  match id with
  | IntNaN => (Throw, t)
  | Int _ =>
      if rows_has Product.id id (products t)
         && (existsb (fun i => int_eqb (Inventory.product_id i) id)
                     (inventory t)
             || existsb (fun m => int_eqb (InventoryMovement.product_id m) id)
                        (inventoryMovements t))
      then (Throw, t)
      else (Ok tt,
            with_products t (rows_delete Product.id id (products t))
                          (productIdCounter t))
  end.

Definition deleteProduct (id : integer) : M Db bool :=
  try_catch
    (statement (delete_movements_of id) ;;;
     statement (delete_inventory_of id) ;;;
     statement (delete_product id) ;;;
     ret true)
    (ret false).

(** [SELECT * FROM inventory WHERE product_id = $1] *)
Definition select_inventory_of (productId : integer) (t : Store)
  : outcome (option Inventory.t) * Store :=
  match productId with
  | IntNaN => (Throw, t)
  | Int _ =>
      (Ok (find (fun i => int_eqb (Inventory.product_id i) productId)
                (inventory t)),
       t)
  end.

Definition getInventoryItem (productId : integer)
  : M Db (option Inventory.t) :=
  statement (select_inventory_of productId).

(** [UPDATE inventory SET quantity, unit, total_price, last_updated,
    updated_by WHERE id = $1 RETURNING *]; the first row returned. *)
Definition update_inventory_add
           (now : Z) (existingItem : Inventory.t) (item : InsertInventory.t)
           (t : Store) : outcome Inventory.t * Store :=
  let set (r : Inventory.t) :=
    Inventory.mk
      (Inventory.id r)
      (Inventory.product_id r)
      (num_add (Inventory.quantity existingItem)
               (InsertInventory.quantity item))
      (InsertInventory.unit item)
      (num_add (Inventory.total_price existingItem)
               (InsertInventory.total_price item))
      now
      (InsertInventory.updated_by item) in
  let hit := has_key Inventory.id (Int (Inventory.id existingItem)) in
  if rows_has Inventory.id (Int (Inventory.id existingItem)) (inventory t)
     && negb (user_ref_ok (InsertInventory.updated_by item) t)
  then (Throw, t)
  else
    (Ok (hd (set existingItem) (map set (filter hit (inventory t)))),
     with_inventory t
       (map (fun r => if hit r then set r else r) (inventory t))
       (inventoryIdCounter t)).

(** [INSERT INTO inventory ... RETURNING *] *)
Definition insert_inventory (now : Z) (item : InsertInventory.t) (t : Store)
  : outcome Inventory.t * Store :=
  match InsertInventory.product_id item with
  | IntNaN => (Throw, t)
  | Int _ =>
      let id := inventoryIdCounter t in
      let createdItem :=
        Inventory.mk
          id
          (InsertInventory.product_id item)
          (InsertInventory.quantity item)
          (InsertInventory.unit item)
          (InsertInventory.total_price item)
          now
          (InsertInventory.updated_by item) in
      if rows_has Inventory.id (Int id) (inventory t)
         || negb (product_ref_ok (InsertInventory.product_id item) t)
         || negb (user_ref_ok (InsertInventory.updated_by item) t)
      then (Throw, with_inventory t (inventory t) (id + 1))
      else (Ok createdItem,
            with_inventory t (inventory t ++ [createdItem]) (id + 1))
  end.

Definition updateInventory (now : Z) (item : InsertInventory.t)
  : M Db Inventory.t :=
  existingItem <- getInventoryItem (InsertInventory.product_id item) ;;
  match existingItem with
  | Some existingItem => statement (update_inventory_add now existingItem item)
  | None => statement (insert_inventory now item)
  end.

Definition getAllInventory : M Db (list Inventory.t) :=
  statement (fun t => (Ok (inventory t), t)).

(** [INSERT INTO inventory_movements ... RETURNING *] *)
Definition insert_movement
           (now : Z) (movement : InsertInventoryMovement.t) (t : Store)
  : outcome InventoryMovement.t * Store :=
  match InsertInventoryMovement.product_id movement with
  | IntNaN => (Throw, t)
  | Int _ =>
      let id := movementIdCounter t in
      let createdMovement :=
        InventoryMovement.mk
          id
          (InsertInventoryMovement.product_id movement)
          (InsertInventoryMovement.quantity_change movement)
          (InsertInventoryMovement.unit movement)
          (InsertInventoryMovement.total_price movement)
          (InsertInventoryMovement.movement_type movement)
          now
          (InsertInventoryMovement.user_id movement) in
      if rows_has InventoryMovement.id (Int id) (inventoryMovements t)
         || negb (product_ref_ok
                    (InsertInventoryMovement.product_id movement) t)
         || negb (user_ref_ok (InsertInventoryMovement.user_id movement) t)
      then (Throw, with_movements t (inventoryMovements t) (id + 1))
      else (Ok createdMovement,
            with_movements t (inventoryMovements t ++ [createdMovement])
                           (id + 1))
  end.

Definition createInventoryMovement
           (now : Z) (movement : InsertInventoryMovement.t)
  : M Db InventoryMovement.t :=
  statement (insert_movement now movement).

(** [SELECT * FROM inventory_movements WHERE id = $1] *)
Definition select_movement (id : integer) (t : Store)
  : outcome (option InventoryMovement.t) * Store :=
  match id with
  | Int _ => (Ok (rows_get InventoryMovement.id id (inventoryMovements t)), t)
  | IntNaN => (Throw, t)
  end.

Definition getInventoryMovement (id : integer)
  : M Db (option InventoryMovement.t) :=
  statement (select_movement id).

(** [UPDATE inventory SET quantity, total_price, last_updated
    WHERE id = $1] *)
Definition update_inventory_sub
           (now : Z) (inventoryItem : Inventory.t)
           (movement : InventoryMovement.t) (t : Store)
  : outcome unit * Store :=
  let set (r : Inventory.t) :=
    Inventory.mk
      (Inventory.id r)
      (Inventory.product_id r)
      (num_sub (Inventory.quantity inventoryItem)
               (InventoryMovement.quantity_change movement))
      (Inventory.unit r)
      (num_sub (Inventory.total_price inventoryItem)
               (InventoryMovement.total_price movement))
      now
      (Inventory.updated_by r) in
  let hit := has_key Inventory.id (Int (Inventory.id inventoryItem)) in
  (Ok tt,
   with_inventory t
     (map (fun r => if hit r then set r else r) (inventory t))
     (inventoryIdCounter t)).

(** [DELETE FROM inventory_movements WHERE id = $1] *)
Definition delete_movement (id : integer) (t : Store)
  : outcome unit * Store :=
  match id with
  | IntNaN => (Throw, t)
  | Int _ =>
      (Ok tt,
       with_movements t
         (rows_delete InventoryMovement.id id (inventoryMovements t))
         (movementIdCounter t))
  end.

Definition deleteInventoryMovement (now : Z) (id : integer) : M Db bool :=
  try_catch
    (movement <- statement (select_movement id) ;;
     match movement with
     | None => ret false
     | Some movement =>
         inventoryItem <-
           statement (select_inventory_of
                        (InventoryMovement.product_id movement)) ;;
         match inventoryItem with
         | Some inventoryItem =>
             statement (update_inventory_sub now inventoryItem movement)
         | None => ret tt
         end ;;;
         statement (delete_movement id) ;;;
         ret true
     end)
    (ret false).

(** [SELECT * FROM inventory_movements WHERE product_id = $1
    AND movement_date >= $2 AND movement_date <= $3]; an invalid date is
    not a timestamp. *)
Definition select_movements_in
           (productId : Z) (start end_ : Date) (t : Store)
  : outcome (list InventoryMovement.t) * Store :=
  match start, end_ with
  | ValidDate _, ValidDate _ =>
      (Ok (filter (fun m =>
                     int_eqb (InventoryMovement.product_id m) (Int productId)
                     && date_ge (InventoryMovement.movement_date m) start
                     && date_le (InventoryMovement.movement_date m) end_)
                  (inventoryMovements t)),
       t)
  | _, _ => (Throw, t)
  end.

Definition getInventoryReport (start end_ : Date)
  : M Db (list ProductWithInventory.t) :=
  productsList <- getAllProducts ;;
  mapM (fun product =>
          inventoryItem <- getInventoryItem (Int (Product.id product)) ;;
          movements <-
            statement (select_movements_in (Product.id product) start end_) ;;
          ret (ProductWithInventory.mk
                 (Product.id product)
                 (Product.name product)
                 (Product.category product)
                 (match inventoryItem with
                  | Some i => num_or0 (Inventory.quantity i)
                  | None => Fin 0
                  end)
                 (match inventoryItem with
                  | Some i => Inventory.unit i
                  | None => ""
                  end)
                 (match inventoryItem with
                  | Some i => num_or0 (Inventory.total_price i)
                  | None => Fin 0
                  end)
                 (List.length movements)))
       productsList.

(** [SELECT * FROM products WHERE category = $1] *)
Definition getProductsByCategory (category : string)
  : M Db (list Product.t) :=
  statement (fun t =>
    (Ok (filter (fun p => (Product.category p =? category)%string)
                (products t)),
     t)).

(** [inventory_movements INNER JOIN products
    ON inventory_movements.product_id = products.id] *)
Definition join_products (movements : list InventoryMovement.t) (t : Store)
  : list InventoryMovementWithDetails.t :=
  flat_map (fun m =>
              map (fun p =>
                     InventoryMovementWithDetails.mk
                       m (Product.name p) (Product.category p))
                  (filter (fun p =>
                             int_eqb (InventoryMovement.product_id m)
                                     (Int (Product.id p)))
                          (products t)))
           movements.

(** [SELECT ... FROM inventory_movements INNER JOIN products ...
    WHERE movement_date >= $1 AND movement_date <= $2
    ORDER BY movement_date DESC]; an invalid date is not a timestamp.  Rows
    of the same date come in the order of the table (the database leaves
    their order open). *)
Definition select_detailed_movements (start end_ : Date) (t : Store)
  : outcome (list InventoryMovementWithDetails.t) * Store :=
  match start, end_ with
  | ValidDate _, ValidDate _ =>
      (Ok (sort_newest_first
             InventoryMovementWithDetails.movement_date
             (join_products
                (filter (fun m =>
                           date_ge (InventoryMovement.movement_date m) start
                           && date_le (InventoryMovement.movement_date m) end_)
                        (inventoryMovements t))
                t)),
       t)
  | _, _ => (Throw, t)
  end.

Definition getDetailedMovementsReport (start end_ : Date)
  : M Db (list InventoryMovementWithDetails.t) :=
  statement (select_detailed_movements start end_).

End DatabaseStorage.

(* ================================================================== *)
(** * The storage interface *)
(* ================================================================== *)

(** [IStorage], with the operations that the routes below and the report
    call.  [S] is the state behind the implementation. *)
Class IStorage (S : Type) : Type := {
  getUser : integer -> M S (option User.t);
  getUserByUsername : string -> M S (option User.t);
  createUser : InsertUser.t -> M S User.t;
  deleteUser : integer -> M S bool;
  getAllUsers : M S (list User.t);
  createProduct : InsertProduct.t -> M S Product.t;
  getProduct : integer -> M S (option Product.t);
  getProductByName : string -> M S (option Product.t);
  getAllProducts : M S (list Product.t);
  deleteProduct : integer -> M S bool;
  getInventoryItem : integer -> M S (option Inventory.t);
  updateInventory : Z -> InsertInventory.t -> M S Inventory.t;
  getAllInventory : M S (list Inventory.t);
  createInventoryMovement :
    Z -> InsertInventoryMovement.t -> M S InventoryMovement.t;
  getInventoryMovement : integer -> M S (option InventoryMovement.t);
  deleteInventoryMovement : Z -> integer -> M S bool;
  getInventoryReport : Date -> Date -> M S (list ProductWithInventory.t)
}.

#[export] Instance Mem : IStorage Store := {
  getUser id := pure_read (MemStorage.getUser id);
  getUserByUsername username := pure_read (MemStorage.getUserByUsername username);
  createUser insertUser := pure_op (MemStorage.createUser insertUser);
  deleteUser id := pure_op (MemStorage.deleteUser id);
  getAllUsers := pure_read MemStorage.getAllUsers;
  createProduct product := pure_op (MemStorage.createProduct product);
  getProduct id := pure_read (MemStorage.getProduct id);
  getProductByName name := pure_read (MemStorage.getProductByName name);
  getAllProducts := pure_read MemStorage.getAllProducts;
  deleteProduct id := pure_op (MemStorage.deleteProduct id);
  getInventoryItem productId := pure_read (MemStorage.getInventoryItem productId);
  updateInventory now item := pure_op (MemStorage.updateInventory now item);
  getAllInventory := pure_read MemStorage.getAllInventory;
  createInventoryMovement now movement :=
    pure_op (MemStorage.createInventoryMovement now movement);
  getInventoryMovement id := pure_read (MemStorage.getInventoryMovement id);
  deleteInventoryMovement now id :=
    pure_op (MemStorage.deleteInventoryMovement now id);
  getInventoryReport start end_ :=
    pure_read (MemStorage.getInventoryReport start end_)
}.

#[export] Instance Database : IStorage Db := {
  getUser := DatabaseStorage.getUser;
  getUserByUsername := DatabaseStorage.getUserByUsername;
  createUser := DatabaseStorage.createUser;
  deleteUser := DatabaseStorage.deleteUser;
  getAllUsers := DatabaseStorage.getAllUsers;
  createProduct := DatabaseStorage.createProduct;
  getProduct := DatabaseStorage.getProduct;
  getProductByName := DatabaseStorage.getProductByName;
  getAllProducts := DatabaseStorage.getAllProducts;
  deleteProduct := DatabaseStorage.deleteProduct;
  getInventoryItem := DatabaseStorage.getInventoryItem;
  updateInventory := DatabaseStorage.updateInventory;
  getAllInventory := DatabaseStorage.getAllInventory;
  createInventoryMovement := DatabaseStorage.createInventoryMovement;
  getInventoryMovement := DatabaseStorage.getInventoryMovement;
  deleteInventoryMovement := DatabaseStorage.deleteInventoryMovement;
  getInventoryReport := DatabaseStorage.getInventoryReport
}.

(* ================================================================== *)
(** * server/auth.ts and server/routes.ts *)
(* ================================================================== *)

Inductive Body : Type :=
| NoBody
| Message (message : string)
| Error (error : string)
| ProductJson (product : Product.t)
| MovementJson (movement : InventoryMovement.t)
| UserJson (user : User.t)
| UserWithoutPassword (id : Z) (username : string)
    (is_admin can_add_product can_view_reports can_manage_inventory : bool).

Record Response : Type := mkResponse {
  status : Z;
  body : Body
}.

Definition sendStatus (code : Z) : Response := mkResponse code NoBody.
Definition json (code : Z) (b : Body) : Response := mkResponse code b.

(** The body of POST /api/inventory/movements. *)
Record MovementRequest : Type := mkMovementRequest {
  req_product_id : JsVal;
  req_quantity_change : JsVal;
  req_unit : option string;
  req_total_price : JsVal
}.

(** The body of POST /api/users; [req_hashed] is what the (salted) password
    hash returns for its password. *)
Record UserRequest : Type := mkUserRequest {
  req_username : string;
  req_hashed : string;
  req_is_admin : JsVal;
  req_can_add_product : JsVal;
  req_can_view_reports : JsVal;
  req_can_manage_inventory : JsVal
}.

(** The body of POST /api/register, which is spread into the new user: a
    flag is a boolean, or absent. *)
Record RegisterRequest : Type := mkRegisterRequest {
  reg_username : string;
  reg_hashed : string;
  reg_is_admin : option bool;
  reg_can_add_product : option bool;
  reg_can_view_reports : option bool;
  reg_can_manage_inventory : option bool
}.

Definition is_undefined (v : JsVal) : bool :=
  match v with JUndefined => true | _ => false end.

Definition str_truthy (s : option string) : bool :=
  match s with Some s => negb (s =? "")%string | None => false end.

Definition str_or_empty (s : option string) : string :=
  match s with Some s => s | None => "" end.

Section Routes.
Context {S : Type} `{IStorage S}.

(** The whole handler sits in [try { ... } catch { res.status(500)... }]. *)
Definition catching (m : M S Response) (failed : Response)
  : S -> Response * S :=
  fun s =>
    match m s with
    | (Ok r, s') => (r, s')
    | (Throw, s') => (failed, s')
    end.

(** passport.deserializeUser *)
Definition deserializeUser (id : Z) : M S User.t :=
  user <- getUser (Int id) ;;
  match user with
  | None => throw
  | Some user => ret user
  end.

(** The session middleware in front of every route: no session leaves the
    request unauthenticated; a session whose user cannot be loaded ends
    the request with an error before the route runs. *)
Definition with_session
           (session : option Z)
           (route : option User.t -> S -> Response * S)
  : S -> Response * S :=
  match session with
  | None => route None
  | Some id =>
      fun s =>
        match deserializeUser id s with
        | (Ok user, s') => route (Some user) s'
        | (Throw, s') => (sendStatus 500, s')
        end
  end.

(** createAdminUser, run when the routes are set up. *)
Definition createAdminUser (hashed : string) : S -> unit * S :=
  fun s =>
    (tt,
     snd ((adminUser <- getUserByUsername "admin" ;;
           match adminUser with
           | Some _ => ret tt
           | None =>
               newUser <- createUser
                            (InsertUser.mk "admin" hashed
                                           (Some true) (Some true)
                                           (Some true) (Some true)) ;;
               ret tt
           end) s)).

(** POST /api/register *)
Definition post_register (user : option User.t) (b : RegisterRequest)
  : S -> Response * S :=
  catching
    (match user with
     | None => ret (json 401 (Error "Yetkisiz erişim"))
     | Some currentUser =>
         if negb (User.is_admin currentUser)
         then ret (json 403 (Error "Bu işlem için admin yetkisi gerekiyor"))
         else
           existingUser <- getUserByUsername (reg_username b) ;;
           match existingUser with
           | Some _ =>
               ret (json 400 (Error "Bu kullanıcı adı zaten kullanılıyor"))
           | None =>
               user <- createUser
                         (InsertUser.mk
                            (reg_username b) (reg_hashed b)
                            (reg_is_admin b)
                            (reg_can_add_product b)
                            (reg_can_view_reports b)
                            (reg_can_manage_inventory b)) ;;
               ret (json 201 (UserJson user))
           end
     end)
    (sendStatus 500).

(** POST /api/products *)
Definition post_products
           (user : option User.t) (name : string) (category : option string)
  : S -> Response * S :=
  catching
    (match user with
     | None => ret (sendStatus 401)
     | Some user =>
         if negb (User.can_add_product user) && negb (User.is_admin user)
         then ret (json 403 (Message "Yetkiniz yok"))
         else
           existingProduct <- getProductByName name ;;
           match existingProduct with
           | Some _ => ret (json 400 (Message "Bu ürün zaten tanımlı"))
           | None =>
               product <- createProduct (InsertProduct.mk name category) ;;
               ret (json 201 (ProductJson product))
           end
     end)
    (json 500 (Message "Error creating product")).

(** DELETE /api/products/:id *)
Definition delete_products (user : option User.t) (id_param : string)
  : S -> Response * S :=
  catching
    (match user with
     | None => ret (sendStatus 401)
     | Some user =>
         if negb (User.can_add_product user) && negb (User.is_admin user)
         then ret (json 403 (Message "Yetkiniz yok"))
         else
           let id := parseInt_string id_param in
           success <- deleteProduct id ;;
           if success
           then ret (json 200 (Message "Ürün başarıyla silindi"))
           else ret (json 404 (Message "Ürün bulunamadı"))
     end)
    (json 500 (Message "Error deleting product")).

(** POST /api/inventory/movements *)
Definition post_inventory_movements
           (now : Z) (user : option User.t) (b : MovementRequest)
  : S -> Response * S :=
  catching
    (match user with
     | None => ret (sendStatus 401)
     | Some user =>
         if negb (User.can_manage_inventory user) && negb (User.is_admin user)
         then ret (json 403 (Message "Yetkiniz yok"))
         else
           if negb (truthy (req_product_id b))
              || negb (truthy (req_quantity_change b))
              || negb (str_truthy (req_unit b))
              || is_undefined (req_total_price b)
           then ret (json 400 (Message "Lütfen tüm alanları doldurun"))
           else
             movement <-
               createInventoryMovement now
                 (InsertInventoryMovement.mk
                    (parseInt (req_product_id b))
                    (parseFloat (req_quantity_change b))
                    (str_or_empty (req_unit b))
                    (parseFloat (req_total_price b))
                    "update"
                    now
                    (Some (User.id user))) ;;
             updateInventory now
               (InsertInventory.mk
                  (parseInt (req_product_id b))
                  (parseFloat (req_quantity_change b))
                  (str_or_empty (req_unit b))
                  (parseFloat (req_total_price b))
                  now
                  (Some (User.id user))) ;;;
             ret (json 201 (MovementJson movement))
     end)
    (json 500 (Message "Error creating inventory movement")).

(** DELETE /api/inventory/movements/:id *)
Definition delete_inventory_movements
           (now : Z) (user : option User.t) (id_param : string)
  : S -> Response * S :=
  catching
    (match user with
     | None => ret (sendStatus 401)
     | Some user =>
         if negb (User.can_manage_inventory user) && negb (User.is_admin user)
         then ret (json 403 (Message "Yetkiniz yok"))
         else
           let id := parseInt_string id_param in
           success <- deleteInventoryMovement now id ;;
           if success
           then ret (json 200 (Message "Stok hareketi başarıyla silindi"))
           else ret (json 404 (Message "Stok hareketi bulunamadı"))
     end)
    (json 500 (Message "Error deleting inventory movement")).

(** POST /api/users *)
Definition post_users (user : option User.t) (b : UserRequest)
  : S -> Response * S :=
  catching
    (match user with
     | None => ret (sendStatus 401)
     | Some user =>
         if negb (User.is_admin user)
         then ret (json 403 (Message "Yetkiniz yok"))
         else
           existingUser <- getUserByUsername (req_username b) ;;
           match existingUser with
           | Some _ =>
               ret (json 400 (Message "Bu kullanıcı adı zaten kullanılıyor"))
           | None =>
               newUser <- createUser
                            (InsertUser.mk
                               (req_username b) (req_hashed b)
                               (Some (truthy (req_is_admin b)))
                               (Some (truthy (req_can_add_product b)))
                               (Some (truthy (req_can_view_reports b)))
                               (Some (truthy (req_can_manage_inventory b)))) ;;
               ret (json 201
                      (UserWithoutPassword
                         (User.id newUser) (User.username newUser)
                         (User.is_admin newUser)
                         (User.can_add_product newUser)
                         (User.can_view_reports newUser)
                         (User.can_manage_inventory newUser)))
           end
     end)
    (json 500 (Message "Error creating user")).

(** DELETE /api/users/:id *)
Definition delete_users (user : option User.t) (id_param : string)
  : S -> Response * S :=
  catching
    (match user with
     | None => ret (sendStatus 401)
     | Some user =>
         if negb (User.is_admin user)
         then ret (json 403 (Message "Yetkiniz yok"))
         else
           let id := parseInt_string id_param in
           if int_eqb id (Int (User.id user))
           then ret (json 400 (Message "Kendinizi silemezsiniz"))
           else
             users <- getAllUsers ;;
             let admins := filter User.is_admin users in
             targetUser <- getUser id ;;
             if match targetUser with
                | Some t => User.is_admin t
                | None => false
                end
                && (Nat.leb (List.length admins) 1)
             then ret (json 400 (Message "Son admin kullanıcıyı silemezsiniz"))
             else
               success <- deleteUser id ;;
               if success
               then ret (json 200 (Message "Kullanıcı başarıyla silindi"))
               else ret (json 404 (Message "Kullanıcı bulunamadı"))
     end)
    (json 500 (Message "Error deleting user")).

(** The requests that write to the store. *)
Inductive Request : Type :=
| Startup (hashed : string)
| PostRegister (session : option Z) (b : RegisterRequest)
| PostProducts (session : option Z) (name : string) (category : option string)
| DeleteProducts (session : option Z) (id_param : string)
| PostInventoryMovements (now : Z) (session : option Z) (b : MovementRequest)
| DeleteInventoryMovements (now : Z) (session : option Z) (id_param : string)
| PostUsers (session : option Z) (b : UserRequest)
| DeleteUsers (session : option Z) (id_param : string).

Definition handle (r : Request) : S -> Response * S :=
  match r with
  | Startup hashed =>
      fun s => (sendStatus 200, snd (createAdminUser hashed s))
  | PostRegister session b =>
      with_session session (fun user => post_register user b)
  | PostProducts session name category =>
      with_session session (fun user => post_products user name category)
  | DeleteProducts session id =>
      with_session session (fun user => delete_products user id)
  | PostInventoryMovements now session b =>
      with_session session (fun user => post_inventory_movements now user b)
  | DeleteInventoryMovements now session id =>
      with_session session
                   (fun user => delete_inventory_movements now user id)
  | PostUsers session b =>
      with_session session (fun user => post_users user b)
  | DeleteUsers session id =>
      with_session session (fun user => delete_users user id)
  end.

(** The states that a run of requests leads to. *)
Fixpoint run (rs : list Request) (s : S) : S :=
  match rs with
  | [] => s
  | r :: rest => run rest (snd (handle r s))
  end.

End Routes.

(* ================================================================== *)
(** * client/src/pages/reporting.tsx: the summary tab *)
(* ================================================================== *)

Module Reporting.

(** A row of the detailed report as the page receives it, decoded from
    JSON: a numeric field holds a (finite) number or null. *)
Record Item : Type := mkItem {
  product_name : string;
  unit : string;
  quantity_change : option Q;
  total_price : option Q
}.

(** A group of the accumulator object [acc]. *)
Record Group : Type := mkGroup {
  name : string;
  quantity : number;
  group_unit : string;
  group_total_price : number
}.

(** The own properties of [acc], in the order they were added.
    (Object.entries lists keys that are array indices first; the rows below
    are looked at one by one, whatever their order.) *)
Definition Acc : Type := list (string * Group).

(** [acc] starts as [{}], so it inherits the properties of Object.prototype:
    for these keys [acc[key]] is an inherited, truthy value; no group is
    created and the two [+=] write to that inherited object, not to [acc]. *)
Definition object_prototype_keys : list string :=
  ["constructor"; "__defineGetter__"; "__defineSetter__"; "hasOwnProperty";
   "__lookupGetter__"; "__lookupSetter__"; "isPrototypeOf";
   "propertyIsEnumerable"; "toString"; "valueOf"; "__proto__";
   "toLocaleString"].

Definition inherited (key : string) : bool :=
  existsb (String.eqb key) object_prototype_keys.

Definition own (key : string) (acc : Acc) : bool :=
  existsb (fun e => (fst e =? key)%string) acc.

(** [x || 0] on a field *)
Definition field_or0 (x : option Q) : number :=
  match x with
  | Some q => num_or0 (Fin q)
  | None => Fin 0
  end.

(** The body of the reduce callback. *)
Definition reducer (acc : Acc) (item : Item) : Acc :=
  let key := product_name item in
  if inherited key then acc
  else
    let acc1 :=
      if negb (own key acc)
      then (acc ++ [(key, mkGroup (product_name item) (Fin 0) (unit item)
                                  (Fin 0))])%list
      else acc in
    map (fun e =>
           if (fst e =? key)%string
           then (fst e,
                 mkGroup (name (snd e))
                         (num_add (quantity (snd e))
                                  (num_abs (field_or0 (quantity_change item))))
                         (group_unit (snd e))
                         (num_add (group_total_price (snd e))
                                  (field_or0 (total_price item))))
           else e)
        acc1.

(** [report.reduce(..., {})] *)
Definition groups (report : list Item) : Acc := fold_left reducer report [].

(** What a cell of the table shows: [x.toFixed(2)], or a literal. *)
Inductive Cell : Type :=
| ToFixed2 (x : number)
| Text (s : string).

Definition unitPrice (item : Group) : Cell :=
  if num_gt0 (quantity item)
  then ToFixed2 (num_div (group_total_price item) (quantity item))
  else Text "0.00".

Record Row : Type := mkRow {
  row_key : string;
  row_name : string;
  row_quantity : Cell;
  row_unit : string;
  row_unit_price : Cell;
  row_total : Cell
}.

(** [Object.entries(...).map(([key, item]) => ...)] *)
Definition summary_rows (report : list Item) : list (Group * Row) :=
  map (fun e =>
         let item := snd e in
         (item,
          mkRow (fst e) (name item) (ToFixed2 (quantity item)) (group_unit item)
                (unitPrice item) (ToFixed2 (group_total_price item))))
      (groups report).

End Reporting.

(** The two cards above the summary table. *)
Module ReportingCards.
Import Reporting.


(** [report.reduce((sum, item) =>
      sum + Math.abs(item.quantity_change || 0), 0)] *)
Definition totalQuantity (report : list Item) : number :=
  fold_left (fun sum item =>
               num_add sum (num_abs (field_or0 (quantity_change item))))
            report (Fin 0).

End ReportingCards.

(* ================================================================== *)
(** * client/src/pages/home-page.tsx and client/src/components/sidebar.tsx *)
(* ================================================================== *)

(** [user?.flag] *)
Definition user_flag (flag : User.t -> bool) (user : option User.t) : bool :=
  match user with Some u => flag u | None => false end.

Module HomePage.

(** The initial value of [activePage]. *)
Definition defaultPage (user : option User.t) : string :=
  if user_flag User.can_manage_inventory user then "stock-management"
  else if user_flag User.can_add_product user then "product-definition"
  else if user_flag User.can_view_reports user then "reporting"
  else if user_flag User.is_admin user then "user-management"
  else "stock-management".

(** [renderActivePage]: whether the page is one of the four components
    (the default branch shows that the page was not found). *)
Definition renderActivePage (activePage : string) : bool :=
  (activePage =? "stock-management")%string
  || (activePage =? "product-definition")%string
  || (activePage =? "reporting")%string
  || (activePage =? "user-management")%string.

End HomePage.

Module Sidebar.

Inductive Permission : Type :=
| is_admin
| can_add_product
| can_view_reports
| can_manage_inventory.

Record SidebarItem : Type := mkSidebarItem {
  id : string;
  name : string;
  permission : option Permission
}.

Definition menuItems : list SidebarItem :=
  [mkSidebarItem "stock-management" "Stok Ekle/Düzenle"
                 (Some can_manage_inventory);
   mkSidebarItem "product-definition" "Ürün Tanımlama" (Some can_add_product);
   mkSidebarItem "reporting" "Raporlama" (Some can_view_reports);
   mkSidebarItem "user-management" "Kullanıcı Yönetimi" (Some is_admin)].

(** [user[item.permission]] *)
Definition flag_of (p : Permission) (u : User.t) : bool :=
  match p with
  | is_admin => User.is_admin u
  | can_add_product => User.can_add_product u
  | can_view_reports => User.can_view_reports u
  | can_manage_inventory => User.can_manage_inventory u
  end.

Definition filteredMenuItems (user : option User.t) : list SidebarItem :=
  filter (fun item =>
            match permission item with
            | None => true
            | Some p => user_flag (flag_of p) user
            end)
         menuItems.

End Sidebar.

(* ================================================================== *)
(** * client/src/pages/user-management.tsx *)
(* ================================================================== *)

Module UserManagement.

(** Whether the delete button of the row [u] is the disabled one.  The rows
    are the users as GET /api/users lists them, their passwords left out;
    the condition reads [id] and [is_admin] only. *)
Definition deleteDisabled
           (user : option User.t) (users : list User.t) (u : User.t) : bool :=
  match user with
  | Some user => User.id u =? User.id user
  | None => false
  end
  || (User.is_admin u
      && Nat.leb (List.length (filter User.is_admin users)) 1).

End UserManagement.

(* ================================================================== *)
(** * client/src/pages/product-definition.tsx *)
(* ================================================================== *)

Module ProductDefinition.

(** The own properties of [productsByCategory], in the order they were
    added. *)
Definition Groups : Type := list (string * list Product.t).

Definition own (key : string) (acc : Groups) : bool :=
  existsb (fun e => (fst e =? key)%string) acc.

(** The body of the [forEach] callback.  The object starts as [{}]: under a
    key that it inherits from Object.prototype it finds a value that is
    truthy and has no [push], and the call throws. *)
Definition add (acc : Groups) (product : Product.t) : outcome Groups :=
  let key := Product.category product in
  if Reporting.inherited key then Throw
  else
    let acc1 := if negb (own key acc) then acc ++ [(key, [])] else acc in
    Ok (map (fun e =>
               if (fst e =? key)%string
               then (fst e, snd e ++ [product])
               else e)
            acc1).

Fixpoint forEach (products : list Product.t) (acc : Groups)
  : outcome Groups :=
  match products with
  | [] => Ok acc
  | product :: rest =>
      match add acc product with
      | Ok acc' => forEach rest acc'
      | Throw => Throw
      end
  end.

Definition productsByCategory (products : list Product.t) : outcome Groups :=
  forEach products [].

End ProductDefinition.

(* ================================================================== *)
(** * Vocabulary of the properties *)
(* ================================================================== *)



Definition balance_of (pid : Z) (st : Store) : option Inventory.t :=
  MemStorage.getInventoryItem (Int pid) st.



(** What deleting the movement [m] does to the balance row of its product:
    the row [before] becomes [after]. *)
Definition reversed (m : InventoryMovement.t)
           (before after : option Inventory.t) : Prop :=
  match before with
  | Some i =>
      exists i',
        after = Some i' /\
        Inventory.quantity i' =
          num_sub (Inventory.quantity i) (InventoryMovement.quantity_change m) /\
        Inventory.total_price i' =
          num_sub (Inventory.total_price i) (InventoryMovement.total_price m) /\
        Inventory.unit i' = Inventory.unit i
  | None => after = None
  end.

(** A store like the scenario of the specification: the admin user, one
    product, and two movements recorded for it. *)
Definition example_products : Store :=
  snd (MemStorage.createProduct (InsertProduct.mk "Un" None)
                                MemStorage.constructor).

Definition example_request (q p : Q) : MovementRequest :=
  mkMovementRequest (JNum 1) (JNum q) (Some "kg") (JNum p).

Definition example_ledger : Store :=
  run [PostInventoryMovements 1000 (Some 1) (example_request 10 100);
       PostInventoryMovements 2000 (Some 1) (example_request 5 40)]
      example_products.


(** The movements of product [pid] dated within [[s, e]], both ends
    included. *)
Definition in_window (pid s e : Z) (m : InventoryMovement.t) : bool :=
  int_eqb (InventoryMovement.product_id m) (Int pid)
  && (s <=? InventoryMovement.movement_date m)
  && (InventoryMovement.movement_date m <=? e).

(** A report figure [shown] for a stored balance figure: the same value
    (a NaN figure is shown as 0). *)
Definition carries (shown stored : number) : Prop :=
  match stored with
  | NaN => shown = Fin 0
  | _ => num_eq shown stored
  end.

(** The report row [r] is the row of product [p]. *)
Definition report_row_of (st : Store) (s e : Z)
           (p : Product.t) (r : ProductWithInventory.t) : Prop :=
  ProductWithInventory.id r = Product.id p /\
  ProductWithInventory.name r = Product.name p /\
  ProductWithInventory.category r = Product.category p /\
  ProductWithInventory.movement_count r =
    List.length (filter (in_window (Product.id p) s e)
                        (inventoryMovements st)) /\
  match balance_of (Product.id p) st with
  | Some i =>
      carries (ProductWithInventory.current_quantity r) (Inventory.quantity i) /\
      ProductWithInventory.unit r = Inventory.unit i /\
      carries (ProductWithInventory.total_value r) (Inventory.total_price i)
  | None =>
      ProductWithInventory.current_quantity r = Fin 0 /\
      ProductWithInventory.unit r = "" /\
      ProductWithInventory.total_value r = Fin 0
  end.

(** A request that is allowed to record movements. *)
Definition may_manage_inventory (user : User.t) : bool :=
  User.can_manage_inventory user || User.is_admin user.

(** "No zero-quantity movement can be created": every movement that the
    request [r] adds to the database has a quantity other than zero. *)
Definition never_creates_zero_quantity (st : Store) (r : Request) : Prop :=
  forall m,
    In m (inventoryMovements (tables (snd (handle r (healthy st))))) ->
    In m (inventoryMovements st) \/
    ~ num_eq (InventoryMovement.quantity_change m) (Fin 0).

(** The quantity is sent as the string "0". *)
Definition zero_as_string : Request :=
  PostInventoryMovements
    1000 (Some 1) (mkMovementRequest (JNum 1) (JStr "0") (Some "kg") (JNum 5)).

Definition example_admin : User.t :=
  User.mk 1 "admin" MemStorage.admin_hash true true true true.

(** What recording the deltas [q] and [p] under the label [unit] does to
    the balance row of the product: the row [before] becomes [after]. *)
Definition recorded (q p : number) (unit : string)
           (before after : option Inventory.t) : Prop :=
  exists i',
    after = Some i' /\
    Inventory.unit i' = unit /\
    match before with
    | Some i =>
        Inventory.quantity i' = num_add (Inventory.quantity i) q /\
        Inventory.total_price i' = num_add (Inventory.total_price i) p
    | None =>
        Inventory.quantity i' = q /\
        Inventory.total_price i' = p
    end.

(** "All or nothing": unless the request is answered 201, the movement and
    balance rows are as they were. *)
Definition all_or_nothing (db : Db) (r : Request) : Prop :=
  status (fst (handle r db)) = 201 \/
  (inventoryMovements (tables (snd (handle r db)))
   = inventoryMovements (tables db) /\
   inventory (tables (snd (handle r db))) = inventory (tables db)).

(** The connection is lost after the movement row was inserted: the session
    lookup and the insert succeed, the next statement fails. *)
Definition lost_after_insert : Db :=
  mkDb example_products [false; false; true].

Definition record_ten : Request :=
  PostInventoryMovements 1000 (Some 1) (example_request 10 100).

(** A list of report items: two movements of one product, a product whose
    quantities are missing, and a product named like an inherited
    property. *)
Definition example_report : list Reporting.Item :=
  [Reporting.mkItem "Un" "kg" (Some 10%Q) (Some 100%Q);
   Reporting.mkItem "Tuz" "kg" None (Some 7%Q);
   Reporting.mkItem "Un" "kg" (Some (-5)%Q) (Some 40%Q);
   Reporting.mkItem "constructor" "kg" (Some 1%Q) (Some 1%Q)].

Definition example_group_un : Reporting.Group :=
  Reporting.mkGroup "Un" (Fin (0 + 10 + 5)) "kg" (Fin (0 + 100 + 40)).

Definition example_group_tuz : Reporting.Group :=
  Reporting.mkGroup "Tuz" (Fin (0 + 0)) "kg" (Fin (0 + 7)).

(** Administrators. *)
Definition has_admin (l : list User.t) : bool := existsb User.is_admin l.

Definition count_admins (l : list User.t) : nat :=
  List.length (filter User.is_admin l).

(** Every user id was handed out by the counter. *)
Definition user_ids_fresh (st : Store) : Prop :=
  Forall (fun u => User.id u < userIdCounter st) (users st).

(** The users and their counter are the same in both stores. *)
Definition same_users (t t' : Store) : Prop :=
  users t' = users t /\ userIdCounter t' = userIdCounter t.

(** What the operations of a storage do to the users of the store [view s]
    behind its state. *)
Class UserFacts (S : Type) `{IStorage S} (view : S -> Store) : Prop := {
  getUser_users :
    forall id s, same_users (view s) (view (snd (getUser id s)));
  getUser_found :
    forall id s u,
      fst (getUser id s) = Ok (Some u) ->
      In u (users (view s)) /\ id = Int (User.id u);
  getUserByUsername_users :
    forall n s, same_users (view s) (view (snd (getUserByUsername n s)));
  getAllUsers_users :
    forall s, same_users (view s) (view (snd (getAllUsers s)));
  createUser_users :
    forall ins s,
      user_ids_fresh (view s) ->
      userIdCounter (view s) <= userIdCounter (view (snd (createUser ins s))) /\
      (users (view (snd (createUser ins s))) = users (view s) \/
       exists u,
         User.id u < userIdCounter (view (snd (createUser ins s))) /\
         users (view (snd (createUser ins s))) = users (view s) ++ [u]);
  deleteUser_users :
    forall id s,
      userIdCounter (view (snd (deleteUser id s))) = userIdCounter (view s) /\
      (users (view (snd (deleteUser id s))) = users (view s) \/
       users (view (snd (deleteUser id s)))
       = rows_delete User.id id (users (view s)));
  createProduct_users :
    forall p s, same_users (view s) (view (snd (createProduct p s)));
  getProductByName_users :
    forall n s, same_users (view s) (view (snd (getProductByName n s)));
  deleteProduct_users :
    forall id s, same_users (view s) (view (snd (deleteProduct id s)));
  createInventoryMovement_users :
    forall now m s,
      same_users (view s) (view (snd (createInventoryMovement now m s)));
  updateInventory_users :
    forall now i s, same_users (view s) (view (snd (updateInventory now i s)));
  deleteInventoryMovement_users :
    forall now id s,
      same_users (view s) (view (snd (deleteInventoryMovement now id s)))
}.

(** A second administrator beside the bootstrap one. *)
Definition example_two_admins : Store :=
  snd (MemStorage.createUser
         (InsertUser.mk "ayse" "hash" (Some true) None None None)
         example_products).

Definition example_second_admin : User.t :=
  User.mk 2 "ayse" "hash" true false false false.

(** The invariant of the accounts: ids below the counter, and at least one
    administrator. *)
Definition admin_invariant (t : Store) : Prop :=
  user_ids_fresh t /\ has_admin (users t) = true.

(** The computation [m] leaves the users of the store alone, whether it
    returns or throws. *)
Definition keeps_users {S A : Type} (view : S -> Store) (m : M S A) : Prop :=
  forall s, same_users (view s) (view (snd (m s))).

(** The finite value of a number, and the sum of a list of rationals. *)
Definition to_Q (n : number) : Q :=
  match n with Fin q => q | _ => 0%Q end.

Fixpoint Qsum (l : list Q) : Q :=
  match l with
  | [] => 0%Q
  | x :: r => (x + Qsum r)%Q
  end.




(** recordMovement and deleteMovement, as requests: the deltas of a
    recorded movement are finite numbers. *)
Inductive LedgerOp : Type :=
| RecordMovement (now : Z) (session : option Z) (productId : Z)
    (quantityDelta : Q) (unit : option string) (totalPriceDelta : Q)
| DeleteMovement (now : Z) (session : option Z) (movementId : string).

Definition request_of (op : LedgerOp) : Request :=
  match op with
  | RecordMovement now session productId quantityDelta unit totalPriceDelta =>
      PostInventoryMovements
        now session
        (mkMovementRequest (JNum (inject_Z productId)) (JNum quantityDelta)
                           unit (JNum totalPriceDelta))
  | DeleteMovement now session movementId =>
      DeleteInventoryMovements now session movementId
  end.





(** The scenario of the specification as operations of the ledger. *)
Definition example_ops : list LedgerOp :=
  [RecordMovement 1000 (Some 1) 1 10 (Some "kg") 100;
   RecordMovement 2000 (Some 1) 1 5 (Some "kg") 40;
   DeleteMovement 3000 (Some 1) "2"].

(** The sums that a group of the summary stands for: over the report items
    of one product name, the absolute quantities and the prices (a missing
    figure counts as zero). *)
Definition or0 (x : option Q) : Q :=
  match x with Some q => q | None => 0%Q end.

Definition items_named (k : string) (report : list Reporting.Item)
  : list Reporting.Item :=
  filter (fun i => (Reporting.product_name i =? k)%string) report.

Definition summed_quantity (k : string) (report : list Reporting.Item) : Q :=
  Qsum (map (fun i => Qabs (or0 (Reporting.quantity_change i)))
            (items_named k report)).

Definition summed_price (k : string) (report : list Reporting.Item) : Q :=
  Qsum (map (fun i => or0 (Reporting.total_price i)) (items_named k report)).

(** The group under key [fst e] holds the sums of the items seen so far. *)
Definition group_sums (seen : list Reporting.Item)
           (e : string * Reporting.Group) : Prop :=
  Reporting.name (snd e) = fst e /\
  Reporting.inherited (fst e) = false /\
  exists q t,
    Reporting.quantity (snd e) = Fin q /\
    Reporting.group_total_price (snd e) = Fin t /\
    (q == summed_quantity (fst e) seen)%Q /\
    (t == summed_price (fst e) seen)%Q.

(** The accumulator after the items [seen]: one group per product name that
    is not an inherited key, each with its sums. *)
Definition acc_sums (seen : list Reporting.Item) (acc : Reporting.Acc)
  : Prop :=
  NoDup (map fst acc) /\
  (forall i, In i seen ->
             Reporting.inherited (Reporting.product_name i) = false ->
             Reporting.own (Reporting.product_name i) acc = true) /\
  Forall (group_sums seen) acc.

(** The capability that a route asks of the session user (start-up asks
    for none), the session that a request carries, and whether the store
    holds a user for that session who has the capability. *)
Definition required (r : Request) : option (User.t -> bool) :=
  match r with
  | Startup _ => None
  | PostRegister _ _ | PostUsers _ _ | DeleteUsers _ _ => Some User.is_admin
  | PostProducts _ _ _ | DeleteProducts _ _ =>
      Some (fun u => User.can_add_product u || User.is_admin u)
  | PostInventoryMovements _ _ _ | DeleteInventoryMovements _ _ _ =>
      Some may_manage_inventory
  end.

Definition session_of (r : Request) : option Z :=
  match r with
  | Startup _ => None
  | PostRegister session _ | PostProducts session _ _
  | DeleteProducts session _ | PostInventoryMovements _ session _
  | DeleteInventoryMovements _ session _ | PostUsers session _
  | DeleteUsers session _ => session
  end.

Definition authorised (r : Request) (st : Store) : bool :=
  match required r with
  | None => true
  | Some capability =>
      match session_of r with
      | None => false
      | Some id =>
          match MemStorage.getUser (Int id) st with
          | Some u => capability u
          | None => false
          end
      end
  end.

(** The answer reports success. *)
Definition success (r : Response) : bool :=
  (status r =? 200) || (status r =? 201).

Definition example_clerk : Store :=
  snd (MemStorage.createUser
         (InsertUser.mk "veli" "hash" None None (Some true) None)
         example_products).

(** The user holds one of the four permissions. *)
Definition any_permission (u : User.t) : bool :=
  User.can_manage_inventory u || User.can_add_product u
  || User.can_view_reports u || User.is_admin u.

(** The groups of the product page after the products [seen]: one group
    per category, holding the products of the category in their order. *)
Definition grouped (seen : list Product.t) (acc : ProductDefinition.Groups)
  : Prop :=
  NoDup (map fst acc) /\
  (forall p, In p seen -> In (Product.category p) (map fst acc)) /\
  (forall k ps,
      In (k, ps) acc ->
      ps <> [] /\
      ps = filter (fun p => (Product.category p =? k)%string) seen).

Definition example_catalogue : list Product.t :=
  [Product.mk 1 "Un" "MUTFAK"; Product.mk 2 "Sabun" "TEMİZLİK";
   Product.mk 3 "Tuz" "MUTFAK"].

(** The columns of the summary table, added up. *)
Definition column_quantity (report : list Reporting.Item) : Q :=
  Qsum (map (fun e => to_Q (Reporting.quantity (snd e)))
            (Reporting.groups report)).








(** A movement for product 7, which the example store does not have. *)
Definition example_orphan_request : MovementRequest :=
  mkMovementRequest (JNum 7) (JNum 10) (Some "kg") (JNum 100).

(** A listing is newest first. *)
Definition newest_first (A : Type) (date : A -> Z) (l : list A) : Prop :=
  StronglySorted (fun a b => date b <= date a) l.

(** The product of the movement is in the store, and the row of a listing
    carries the name and the category of the product of its movement. *)
Definition has_product (st : Store) (m : InventoryMovement.t) : bool :=
  rows_has Product.id (InventoryMovement.product_id m) (products st).

Definition labelled (st : Store) (d : InventoryMovementWithDetails.t)
  : Prop :=
  exists p,
    MemStorage.getProduct
      (InventoryMovement.product_id (InventoryMovementWithDetails.movement d))
      st = Some p /\
    InventoryMovementWithDetails.product_name d = Product.name p /\
    InventoryMovementWithDetails.product_category d = Product.category p.

(** The movement is dated within [[s, e]], both ends included. *)
Definition in_dates (s e : Z) (m : InventoryMovement.t) : bool :=
  (s <=? InventoryMovement.movement_date m)
  && (InventoryMovement.movement_date m <=? e).

(** [report] is the detailed report of the store for the window: newest
    first, one row for each movement of the window whose product exists,
    each row labelled with that product. *)
Definition detailed_report_of
           (s e : Z) (st : Store)
           (report : list InventoryMovementWithDetails.t) : Prop :=
  newest_first InventoryMovementWithDetails.movement_date report /\
  Permutation (map InventoryMovementWithDetails.movement report)
              (filter (fun m => in_dates s e m && has_product st m)
                      (inventoryMovements st)) /\
  Forall (labelled st) report.

(** The example ledger with a third movement, recorded last and dated
    before the two it already has. *)
Definition example_backdated : Store :=
  run [PostInventoryMovements 500 (Some 1) (example_request 1 1)]
      example_ledger.

(** ** The invariants of the store *)

(** The rows of a table have distinct ids, all handed out by the counter
    of the table. *)
Definition rows_fresh (row : Type) (key : row -> Z) (counter : Z)
           (l : list row) : Prop :=
  NoDup (map key l) /\ Forall (fun r => key r < counter) l.

Definition store_wf (st : Store) : Prop :=
  rows_fresh User.id (userIdCounter st) (users st) /\
  rows_fresh Product.id (productIdCounter st) (products st) /\
  rows_fresh Inventory.id (inventoryIdCounter st) (inventory st) /\
  rows_fresh InventoryMovement.id (movementIdCounter st)
             (inventoryMovements st).

(** A product has at most one balance row. *)
Definition one_balance_per_product (st : Store) : Prop :=
  forall pid : Z,
    (List.length
       (filter (fun i => int_eqb (Inventory.product_id i) (Int pid))
               (inventory st)) <= 1)%nat.

(** No two users share a username and no two products a name, as [norm]
    reads the names: [toLowerCase] for the in-memory store, which compares
    names that way, and the name itself for the database. *)
Definition names_distinct (norm : string -> string) (st : Store) : Prop :=
  NoDup (map (fun u => norm (User.username u)) (users st)) /\
  NoDup (map (fun p => norm (Product.name p)) (products st)).

Definition exact (s : string) : string := s.

(** Every balance row and every movement names a product of the store,
    and a user of the store where it names one. *)
Definition references_hold (t : Store) : Prop :=
  Forall (fun i =>
            product_ref_ok (Inventory.product_id i) t = true /\
            user_ref_ok (Inventory.updated_by i) t = true)
         (inventory t) /\
  Forall (fun m =>
            product_ref_ok (InventoryMovement.product_id m) t = true /\
            user_ref_ok (InventoryMovement.user_id m) t = true)
         (inventoryMovements t).

Definition mem_invariant (st : Store) : Prop :=
  store_wf st /\ one_balance_per_product st /\ names_distinct toLowerCase st.

Definition db_invariant (t : Store) : Prop :=
  store_wf t /\ one_balance_per_product t /\ names_distinct exact t /\
  references_hold t.

(** The computation [m] keeps the property [P] of the store behind its
    state, whether it returns or throws. *)
Definition preserves (S A : Type) (view : S -> Store) (P : Store -> Prop)
           (m : M S A) : Prop :=
  forall s, P (view s) -> P (view (snd (m s))).

(** The operations that the routes call keep [P]; a user or a product is
    created after the lookup of its name has found none. *)
Record storage_preserves (S : Type) (storage : IStorage S)
       (view : S -> Store) (P : Store -> Prop) : Prop := {
  getUser_preserves : forall id, preserves view P (getUser id);
  getUserByUsername_preserves :
    forall n, preserves view P (getUserByUsername n);
  getAllUsers_preserves : preserves view P getAllUsers;
  deleteUser_preserves : forall id, preserves view P (deleteUser id);
  getProductByName_preserves :
    forall n, preserves view P (getProductByName n);
  deleteProduct_preserves : forall id, preserves view P (deleteProduct id);
  createInventoryMovement_preserves :
    forall now m, preserves view P (createInventoryMovement now m);
  updateInventory_preserves :
    forall now i, preserves view P (updateInventory now i);
  deleteInventoryMovement_preserves :
    forall now id, preserves view P (deleteInventoryMovement now id);
  createUser_after_lookup :
    forall ins s,
      P (view s) ->
      fst (getUserByUsername (InsertUser.username ins) s) = Ok None ->
      P (view (snd (createUser
                      ins
                      (snd (getUserByUsername (InsertUser.username ins) s)))));
  createProduct_after_lookup :
    forall p s,
      P (view s) ->
      fst (getProductByName (InsertProduct.name p) s) = Ok None ->
      P (view (snd (createProduct
                      p
                      (snd (getProductByName (InsertProduct.name p) s)))))
}.

(** Requests of every kind, some of them refused. *)
Definition example_requests : list Request :=
  [Startup "hash";
   PostUsers (Some 1)
             (mkUserRequest "veli" "hash" (JBool false) (JBool true)
                            (JBool false) (JBool true));
   PostUsers (Some 1)
             (mkUserRequest "VELI" "hash" (JBool true) (JBool true)
                            (JBool false) (JBool true));
   PostProducts (Some 2) "Un" None;
   PostProducts (Some 2) "un" (Some "MUTFAK");
   PostInventoryMovements 1000 (Some 2) (example_request 10 100);
   PostInventoryMovements 2000 (Some 2) example_orphan_request;
   DeleteInventoryMovements 3000 (Some 2) "1";
   DeleteUsers (Some 1) "2";
   DeleteProducts (Some 1) "1"].



(** The two rows that POST /api/inventory/movements sends to the storage
    for finite deltas, and what the in-memory store holds after it has
    taken them: the movement that was created, and the store. *)
Definition movement_row (now pid uid : Z) (q p : Q) (unit : string)
  : InsertInventoryMovement.t :=
  InsertInventoryMovement.mk (Int pid) (Fin q) unit (Fin p) "update" now
                             (Some uid).

Definition balance_row (now pid uid : Z) (q p : Q) (unit : string)
  : InsertInventory.t :=
  InsertInventory.mk (Int pid) (Fin q) unit (Fin p) now (Some uid).

Definition mem_record (now pid uid : Z) (q p : Q) (unit : string) (st : Store)
  : InventoryMovement.t * Store :=
  let created :=
    MemStorage.createInventoryMovement
      now (movement_row now pid uid q p unit) st in
  (fst created,
   snd (MemStorage.updateInventory
          now (balance_row now pid uid q p unit) (snd created))).

(** The store holds a user whose name is [name], as [norm] reads
    names. *)
Definition has_account (norm : string -> string) (name : string)
           (st : Store) : Prop :=
  exists u, In u (users st) /\ norm (User.username u) = norm name.

(** A users table whose id sequence is behind its rows: the next id is
    taken. *)
Definition example_stale_sequence : Store :=
  mkStore [User.mk 1 "ali" "x" false false false false] [] [] [] 1 1 1 1.

(* ================================================================== *)
(** * Numbers *)
(* ================================================================== *)


Lemma Qzero_b_spec (q : Q) : Qzero_b q = true <-> (q == 0)%Q.
Proof.
  unfold Qzero_b, Qeq. cbn. rewrite Z.eqb_eq. lia.
Qed.


Lemma num_eq_refl (a : number) : num_eq a a.
Proof. destruct a; cbn; auto. reflexivity. Qed.

Lemma num_or0_eq (a : number) : a <> NaN -> num_eq (num_or0 a) a.
Proof.
  intros Ha. unfold num_or0. destruct a as [q| | |]; cbn; try easy.
  - destruct (Qzero_b q) eqn:E; cbn.
    + apply Qzero_b_spec in E. symmetry. exact E.
    + reflexivity.
Qed.

(* ================================================================== *)
(** * Rows *)
(* ================================================================== *)

Lemma int_eqb_sym (a b : integer) : int_eqb a b = int_eqb b a.
Proof. destruct a, b; cbn; auto using Z.eqb_sym. Qed.

Lemma int_eqb_eq (a b : integer) : int_eqb a b = true -> a = b.
Proof.
  destruct a, b; cbn; try discriminate.
  intros H. apply Z.eqb_eq in H. congruence.
Qed.

Lemma int_eqb_refl (z : Z) : int_eqb (Int z) (Int z) = true.
Proof. cbn. apply Z.eqb_refl. Qed.

Section RowFacts.
Variable row : Type.
Variable key : row -> Z.

Lemma rows_get_delete (k : integer) (l : list row) :
  rows_get key k (rows_delete key k l) = None.
Proof.
  unfold rows_get, rows_delete.
  induction l as [|r l IH]; cbn; auto.
  destruct (has_key key k r) eqn:E; cbn; auto.
  rewrite E. exact IH.
Qed.

Lemma rows_get_has (k : integer) (l : list row) (r : row) :
  rows_get key k l = Some r -> rows_has key k l = true.
Proof.
  unfold rows_get, rows_has. intros H.
  apply find_some in H. apply existsb_exists. exists r. exact H.
Qed.

Lemma rows_get_key (k : integer) (l : list row) (r : row) :
  rows_get key k l = Some r -> In r l /\ k = Int (key r).
Proof.
  unfold rows_get. intros H. apply find_some in H.
  destruct H as [Hin Hk]. split; auto.
  unfold has_key in Hk. apply int_eqb_eq in Hk. congruence.
Qed.

(** Looking a row up by a test [P] after the rows hit by [hit] were
    replaced by [c], when the row found before was hit and [c] passes. *)
Lemma find_replace_const (P hit : row -> bool) (c : row) (l : list row)
      (e : row) :
  find P l = Some e -> hit e = true -> P c = true ->
  find P (map (fun x => if hit x then c else x) l) = Some c.
Proof.
  intros Hf He Hc. induction l as [|x l IH]; cbn in *; [discriminate|].
  destruct (P x) eqn:Px.
  - inversion Hf; subst. rewrite He, Hc. reflexivity.
  - destruct (hit x); [rewrite Hc; reflexivity|].
    rewrite Px. auto.
Qed.

(** The same when each hit row is rewritten by [f], which keeps [P]. *)
Lemma find_replace_map (P hit : row -> bool) (f : row -> row) (l : list row)
      (e : row) :
  find P l = Some e -> hit e = true -> (forall x, P (f x) = P x) ->
  find P (map (fun x => if hit x then f x else x) l) = Some (f e).
Proof.
  intros Hf He HP. induction l as [|x l IH]; cbn in *; [discriminate|].
  destruct (P x) eqn:Px.
  - inversion Hf; subst. rewrite He, HP, Px. reflexivity.
  - destruct (hit x); [rewrite HP|]; rewrite Px; auto.
Qed.

End RowFacts.

(* ================================================================== *)
(** * Deleting a movement *)
(* ================================================================== *)

(** Every [statement] of a run is decided by the head of [failures]. *)
Ltac step_statements :=
  repeat match goal with
         | |- context [match ?l with [] => _ | _ :: _ => _ end] =>
             destruct l as [|[|] ?]; cbn
         end.

Lemma mem_delete_found (now : Z) (id : integer) (st : Store)
      (m : InventoryMovement.t) :
  MemStorage.getInventoryMovement id st = Some m ->
  fst (MemStorage.deleteInventoryMovement now id st) = true /\
  inventoryMovements (snd (MemStorage.deleteInventoryMovement now id st)) =
    rows_delete InventoryMovement.id id (inventoryMovements st) /\
  reversed m
    (MemStorage.getInventoryItem (InventoryMovement.product_id m) st)
    (MemStorage.getInventoryItem (InventoryMovement.product_id m)
       (snd (MemStorage.deleteInventoryMovement now id st))).
Proof.
  unfold MemStorage.getInventoryMovement, MemStorage.deleteInventoryMovement.
  intros Hm. rewrite Hm.
  destruct (MemStorage.getInventoryItem (InventoryMovement.product_id m) st)
    as [i|] eqn:Hi; cbn.
  - split; [eapply rows_get_has; eauto|]. split; [reflexivity|].
    eexists. split.
    + unfold MemStorage.getInventoryItem in *. cbn.
      unfold rows_set. cbn.
      pose proof (find_some _ _ Hi) as [Hin Hp].
      assert (Hhas : rows_has Inventory.id (Int (Inventory.id i))
                              (inventory st) = true).
      { apply existsb_exists. exists i. split; auto.
        unfold has_key. apply int_eqb_refl. }
      rewrite Hhas.
      apply (find_replace_const _ _ _ _ Hi).
      * unfold has_key. apply int_eqb_refl.
      * exact Hp.
    + cbn. repeat split; reflexivity.
  - split; [eapply rows_get_has; eauto|]. split; [reflexivity|].
    unfold MemStorage.getInventoryItem in *. cbn. exact Hi.
Qed.

Lemma statement_healthy (A : Type) (run : Store -> outcome A * Store)
      (t : Store) :
  statement run (healthy t) = (fst (run t), healthy (snd (run t))).
Proof.
  reflexivity.
Qed.

Arguments statement : simpl never.




Lemma mem_delete_missing (now : Z) (id : integer) (st : Store) :
  rows_get InventoryMovement.id id (inventoryMovements st) = None ->
  MemStorage.deleteInventoryMovement now id st = (false, st).
Proof.
  intros H. unfold MemStorage.deleteInventoryMovement. rewrite H. reflexivity.
Qed.

Lemma db_delete_missing (now : Z) (id : integer) (db : Db) :
  rows_get InventoryMovement.id id (inventoryMovements (tables db)) = None ->
  exists fs,
    DatabaseStorage.deleteInventoryMovement now id db
    = (Ok false, mkDb (tables db) fs).
Proof.
  intros H. destruct db as [t fs]. cbn in H.
  unfold DatabaseStorage.deleteInventoryMovement, try_catch, bind, statement,
    DatabaseStorage.select_movement.
  cbn. destruct fs as [|[|] fs]; destruct id; cbn; try rewrite H; cbn;
    unfold ret; eauto.
Qed.

Lemma bind_Ok (S A B : Type) (m : M S A) (f : A -> M S B)
      (s s' : S) (b : B) :
  bind m f s = (Ok b, s') ->
  exists a s1, m s = (Ok a, s1) /\ f a s1 = (Ok b, s').
Proof.
  unfold bind. destruct (m s) as [[a|] s1]; intros H; [eauto|discriminate].
Qed.

Lemma try_catch_ret_Ok (S A : Type) (m : M S A) (a b : A) (s s' : S) :
  try_catch m (ret a) s = (Ok b, s') ->
  m s = (Ok b, s') \/ (b = a /\ m s = (Throw, s')).
Proof.
  unfold try_catch, ret. destruct (m s) as [[x|] s1]; intros H;
    inversion H; subst; auto.
Qed.

Lemma statement_Ok (A : Type) (run : Store -> outcome A * Store)
      (db db' : Db) (a : A) :
  statement run db = (Ok a, db') ->
  run (tables db) = (Ok a, tables db').
Proof.
  unfold statement. destruct db as [t fs]. cbn.
  destruct fs as [|[|] fs]; try discriminate;
    destruct (run t) as [r t1]; cbn; intros H; inversion H; subst;
    reflexivity.
Qed.

Lemma db_delete_done (now : Z) (id : integer) (db db' : Db) :
  DatabaseStorage.deleteInventoryMovement now id db = (Ok true, db') ->
  rows_get InventoryMovement.id id (inventoryMovements (tables db')) = None.
Proof.
  unfold DatabaseStorage.deleteInventoryMovement. intros H.
  apply try_catch_ret_Ok in H. destruct H as [H|[? _]]; [|discriminate].
  apply bind_Ok in H. destruct H as (om & s1 & _ & H).
  destruct om as [m|]; [|discriminate].
  apply bind_Ok in H. destruct H as (oi & s2 & _ & H).
  apply bind_Ok in H. destruct H as (u & s3 & _ & H).
  apply bind_Ok in H. destruct H as (u' & s4 & Hdel & H).
  inversion H; subst. apply statement_Ok in Hdel.
  unfold DatabaseStorage.delete_movement in Hdel.
  destruct id; inversion Hdel as [Ht]. cbn. apply rows_get_delete.
Qed.

(** C4.  Deleting a movement id that is not in the store answers false, a
    result and not an error, and leaves the whole store as it was: in the
    in-memory store, and in the database whatever the connection does.
    After a delete that answered true, a second delete of the same id
    answers false and changes nothing. *)
Theorem delete_missing_movement_is_not_found :
  (forall (now : Z) (id : integer) (st : Store),
      rows_get InventoryMovement.id id (inventoryMovements st) = None ->
      MemStorage.deleteInventoryMovement now id st = (false, st) /\
      forall fs, exists fs',
          DatabaseStorage.deleteInventoryMovement now id (mkDb st fs)
          = (Ok false, mkDb st fs'))
  /\
  (forall (now now' : Z) (id : integer) (st : Store),
      fst (MemStorage.deleteInventoryMovement now id st) = true ->
      MemStorage.deleteInventoryMovement
        now' id (snd (MemStorage.deleteInventoryMovement now id st))
      = (false, snd (MemStorage.deleteInventoryMovement now id st)))
  /\
  (forall (now now' : Z) (id : integer) (db db' : Db),
      DatabaseStorage.deleteInventoryMovement now id db = (Ok true, db') ->
      exists fs',
        DatabaseStorage.deleteInventoryMovement now' id db'
        = (Ok false, mkDb (tables db') fs')).
Proof.
  split; [|split].
  - intros now id st H. split.
    + apply mem_delete_missing, H.
    + intros fs. apply (db_delete_missing now id (mkDb st fs)). exact H.
  - intros now now' id st Hok. apply mem_delete_missing.
    destruct (rows_get InventoryMovement.id id (inventoryMovements st))
      as [m|] eqn:Hm.
    + destruct (mem_delete_found now id st Hm) as (_ & Hms & _).
      rewrite Hms. apply rows_get_delete.
    + rewrite (mem_delete_missing now id st Hm) in Hok. discriminate.
  - intros now now' id db db' H.
    apply db_delete_missing. eapply db_delete_done; eauto.
Qed.

(** The route answers 404 for an id that is not stored, with either
    storage, and leaves the store as it was. *)
Example delete_missing_movement_route :
  handle (DeleteInventoryMovements 3000 (Some 1) "7") example_ledger
  = (json 404 (Message "Stok hareketi bulunamadı"), example_ledger) /\
  handle (DeleteInventoryMovements 3000 (Some 1) "7") (healthy example_ledger)
  = (json 404 (Message "Stok hareketi bulunamadı"), healthy example_ledger).
Proof. split; reflexivity. Qed.

Lemma delete_missing_movement_is_not_found_witness :
  (MemStorage.deleteInventoryMovement 3000 (Int 7) example_ledger
   = (false, example_ledger) /\
   forall fs, exists fs',
       DatabaseStorage.deleteInventoryMovement
         3000 (Int 7) (mkDb example_ledger fs)
       = (Ok false, mkDb example_ledger fs'))
  /\
  MemStorage.deleteInventoryMovement
    4000 (Int 2)
    (snd (MemStorage.deleteInventoryMovement 3000 (Int 2) example_ledger))
  = (false, snd (MemStorage.deleteInventoryMovement 3000 (Int 2)
                                                    example_ledger))
  /\
  (exists fs',
      DatabaseStorage.deleteInventoryMovement
        4000 (Int 2)
        (snd (DatabaseStorage.deleteInventoryMovement
                3000 (Int 2) (healthy example_ledger)))
      = (Ok false,
         mkDb (tables (snd (DatabaseStorage.deleteInventoryMovement
                              3000 (Int 2) (healthy example_ledger))))
              fs')).
Proof.
  destruct delete_missing_movement_is_not_found as (A & B & C).
  split; [|split].
  - apply (A 3000 (Int 7) example_ledger). reflexivity.
  - apply (B 3000 4000 (Int 2) example_ledger). reflexivity.
  - apply (C 3000 4000 (Int 2) (healthy example_ledger)). reflexivity.
Defined.

(* ================================================================== *)
(** * The inventory report *)
(* ================================================================== *)

Lemma carries_or0 (a : number) : carries (num_or0 a) a.
Proof.
  destruct a as [q| | |]; cbn; auto.
  apply (@num_or0_eq (Fin q)). discriminate.
Qed.

Lemma mapM_healthy (A B : Type) (f : A -> M Db B) (g : A -> B)
      (t : Store) (l : list A) :
  (forall x, f x (healthy t) = (Ok (g x), healthy t)) ->
  mapM f l (healthy t) = (Ok (map g l), healthy t).
Proof.
  intros Hf. induction l as [|x l IH]; cbn; [reflexivity|].
  unfold bind. rewrite Hf, IH. reflexivity.
Qed.

Lemma db_report_healthy (s e : Z) (t : Store) :
  DatabaseStorage.getInventoryReport (ValidDate s) (ValidDate e) (healthy t)
  = (Ok (MemStorage.getInventoryReport (ValidDate s) (ValidDate e) t),
     healthy t).
Proof.
  unfold DatabaseStorage.getInventoryReport, DatabaseStorage.getAllProducts.
  unfold bind at 1. rewrite statement_healthy. cbn [fst snd].
  unfold MemStorage.getInventoryReport, MemStorage.getAllProducts.
  apply mapM_healthy. intros p.
  unfold DatabaseStorage.getInventoryItem, bind.
  rewrite statement_healthy. cbn [fst snd DatabaseStorage.select_inventory_of].
  rewrite statement_healthy. reflexivity.
Qed.

(** C5.  The inventory report over [[s, e]] has exactly one row per product,
    in the order of the products and whether or not the product moved in
    the window.  A row repeats the product's id, name and category, shows
    the current figures of its balance row (quantity 0, unit empty and
    value 0 when there is no balance row), and counts the product's
    movements dated within [[s, e]], both ends included.  The database
    report on a working connection is the same list. *)
Theorem inventory_report_one_row_per_product (st : Store) (s e : Z) :
  Forall2 (report_row_of st s e)
          (products st)
          (MemStorage.getInventoryReport (ValidDate s) (ValidDate e) st)
  /\
  DatabaseStorage.getInventoryReport (ValidDate s) (ValidDate e) (healthy st)
  = (Ok (MemStorage.getInventoryReport (ValidDate s) (ValidDate e) st),
     healthy st).
Proof.
  split; [|apply db_report_healthy].
  unfold MemStorage.getInventoryReport, MemStorage.getAllProducts.
  induction (products st) as [|p l IH]; cbn [map]; constructor; [|exact IH].
  unfold report_row_of, balance_of. cbn.
  repeat split.
  destruct (MemStorage.getInventoryItem (Int (Product.id p)) st) as [i|];
    repeat split; auto using carries_or0.
Qed.

(** The scenario of the specification: a window that excludes every
    movement still lists the product, with count 0 and its current
    balance. *)
Example report_outside_window :
  MemStorage.getInventoryReport (ValidDate 5000) (ValidDate 6000)
                                example_ledger
  = [ProductWithInventory.mk 1 "Un" "GENEL" (Fin 15) "kg" (Fin 140) 0].
Proof. reflexivity. Qed.

Example report_boundaries_included :
  map ProductWithInventory.movement_count
      (MemStorage.getInventoryReport (ValidDate 1000) (ValidDate 2000)
                                     example_ledger)
  = [2%nat].
Proof. reflexivity. Qed.

(* ================================================================== *)
(** * Looking names up *)
(* ================================================================== *)

(** The in-memory store compares names after toLowerCase: a name that
    differs from a stored username only in letter case finds a user of that
    name. *)
Lemma mem_username_lookup_ignores_case
      (st : Store) (u : User.t) (username : string) :
  In u (users st) ->
  toLowerCase username = toLowerCase (User.username u) ->
  exists u',
    MemStorage.getUserByUsername username st = Some u' /\
    toLowerCase (User.username u') = toLowerCase username.
Proof.
  intros Hin Hlow. unfold MemStorage.getUserByUsername.
  destruct (find _ (users st)) as [u'|] eqn:Hf.
  - exists u'. split; auto.
    apply find_some in Hf. destruct Hf as [_ Hf].
    apply String.eqb_eq in Hf. exact Hf.
  - exfalso. apply (find_none _ _ Hf) in Hin.
    rewrite Hlow, String.eqb_refl in Hin. discriminate.
Qed.

Lemma mem_product_lookup_ignores_case
      (st : Store) (p : Product.t) (name : string) :
  In p (products st) ->
  toLowerCase name = toLowerCase (Product.name p) ->
  exists p',
    MemStorage.getProductByName name st = Some p' /\
    toLowerCase (Product.name p') = toLowerCase name.
Proof.
  intros Hin Hlow. unfold MemStorage.getProductByName.
  destruct (find _ (products st)) as [p'|] eqn:Hf.
  - exists p'. split; auto.
    apply find_some in Hf. destruct Hf as [_ Hf].
    apply String.eqb_eq in Hf. exact Hf.
  - exfalso. apply (find_none _ _ Hf) in Hin.
    rewrite Hlow, String.eqb_refl in Hin. discriminate.
Qed.

(** The database compares names with [=]: only the stored spelling finds
    the row. *)
Lemma db_username_lookup_exact (t : Store) (username : string) (u : User.t) :
  fst (DatabaseStorage.getUserByUsername username (healthy t)) = Ok (Some u) ->
  User.username u = username.
Proof.
  unfold DatabaseStorage.getUserByUsername. rewrite statement_healthy. cbn.
  intros H. inversion H as [Hf]. apply find_some in Hf.
  apply String.eqb_eq, Hf.
Qed.

(** C6.  With the user admin and the product Un stored, the in-memory
    store finds them under Admin and un, and the database, which the server
    runs on, finds neither. *)
Theorem database_lookup_is_case_sensitive :
  MemStorage.getUserByUsername "Admin" example_products
  = MemStorage.getUser (Int 1) example_products /\
  MemStorage.getUser (Int 1) example_products <> None /\
  DatabaseStorage.getUserByUsername "Admin" (healthy example_products)
  = (Ok None, healthy example_products) /\
  MemStorage.getProductByName "un" example_products
  = MemStorage.getProduct (Int 1) example_products /\
  MemStorage.getProduct (Int 1) example_products <> None /\
  DatabaseStorage.getProductByName "un" (healthy example_products)
  = (Ok None, healthy example_products).
Proof.
  repeat split; try reflexivity; discriminate.
Qed.

(* ================================================================== *)
(** * Deleting a product *)
(* ================================================================== *)

Lemma existsb_filter_negb (A : Type) (P : A -> bool) (l : list A) :
  existsb P (filter (fun x => negb (P x)) l) = false.
Proof.
  induction l as [|x l IH]; cbn; auto.
  destruct (P x) eqn:E; cbn; auto. rewrite E. exact IH.
Qed.

(** On a working connection the database delete answers true for every
    integer id, stored or not: none of its three statements fails when no
    row matches. *)
Lemma db_deleteProduct_healthy (z : Z) (t : Store) :
  exists t',
    DatabaseStorage.deleteProduct (Int z) (healthy t) = (Ok true, healthy t')
    /\ products t' = rows_delete Product.id (Int z) (products t).
Proof.
  unfold DatabaseStorage.deleteProduct, try_catch, bind.
  rewrite statement_healthy. cbn [fst snd DatabaseStorage.delete_movements_of].
  rewrite statement_healthy. cbn [fst snd DatabaseStorage.delete_inventory_of].
  rewrite statement_healthy. unfold DatabaseStorage.delete_product.
  cbn [inventory inventoryMovements with_inventory with_movements products].
  rewrite (existsb_filter_negb
             (fun i => int_eqb (Inventory.product_id i) (Int z))).
  rewrite (existsb_filter_negb
             (fun m => int_eqb (InventoryMovement.product_id m) (Int z))).
  rewrite andb_false_r. cbn. eexists. split; reflexivity.
Qed.

Lemma mem_deleteProduct_missing (id : integer) (st : Store) :
  MemStorage.getProduct id st = None ->
  fst (MemStorage.deleteProduct id st) = false.
Proof.
  unfold MemStorage.getProduct, MemStorage.deleteProduct. cbn.
  unfold rows_get, rows_has. intros H.
  destruct (existsb _ (products st)) eqn:E; auto.
  apply existsb_exists in E. destruct E as (p & Hin & Hp).
  apply (find_none _ _ H) in Hin. congruence.
Qed.

(** C9.  DELETE /api/products/999 by the admin, with no product 999: the
    in-memory store answers false and the route 404; the database answers
    true and the route 200 with the message of a successful delete, the
    store unchanged. *)
Theorem database_delete_of_missing_product_succeeds :
  handle (DeleteProducts (Some 1) "999") example_ledger
  = (json 404 (Message "Ürün bulunamadı"), example_ledger) /\
  handle (DeleteProducts (Some 1) "999") (healthy example_ledger)
  = (json 200 (Message "Ürün başarıyla silindi"), healthy example_ledger).
Proof.
  split; reflexivity.
Qed.

(* ================================================================== *)
(** * Recording a movement: the validation *)
(* ================================================================== *)

Lemma truthy_zero (q : Q) : (q == 0)%Q -> truthy (JNum q) = false.
Proof.
  intros H. cbn. apply Qzero_b_spec in H. rewrite H. reflexivity.
Qed.

Lemma rows_set_In (row : Type) (key : row -> Z) (r : row) (l : list row) :
  In r (rows_set key r l).
Proof.
  unfold rows_set. destruct (rows_has key (Int (key r)) l) eqn:E.
  - apply existsb_exists in E. destruct E as (x & Hin & Hx).
    apply in_map_iff. exists x. rewrite Hx. auto.
  - apply in_or_app. right. left. reflexivity.
Qed.

Section Validation.
Context {S : Type} `{IStorage S}.

Lemma post_movement_rejects_falsy
      (now : Z) (user : User.t) (b : MovementRequest) (s : S) :
  may_manage_inventory user = true ->
  truthy (req_product_id b) = false \/ truthy (req_quantity_change b) = false ->
  post_inventory_movements now (Some user) b s
  = (json 400 (Message "Lütfen tüm alanları doldurun"), s).
Proof.
  unfold may_manage_inventory, post_inventory_movements, catching.
  intros Hauth Hfalsy.
  destruct (User.can_manage_inventory user), (User.is_admin user);
    try discriminate; cbn;
    destruct Hfalsy as [-> | ->]; cbn; try reflexivity;
    destruct (truthy (req_product_id b)); cbn; reflexivity.
Qed.

Lemma post_movement_validated
      (now : Z) (user : User.t) (b : MovementRequest) (s : S) :
  may_manage_inventory user = true ->
  truthy (req_product_id b) = true ->
  truthy (req_quantity_change b) = true ->
  str_truthy (req_unit b) = true ->
  is_undefined (req_total_price b) = false ->
  status (fst (post_inventory_movements now (Some user) b s)) = 201 \/
  status (fst (post_inventory_movements now (Some user) b s)) = 500.
Proof.
  unfold may_manage_inventory, post_inventory_movements, catching.
  intros Hauth -> -> -> ->.
  assert (Hno : negb (User.can_manage_inventory user)
                && negb (User.is_admin user) = false).
  { destruct (User.can_manage_inventory user), (User.is_admin user);
      auto; discriminate. }
  rewrite Hno. cbn. unfold bind.
  destruct (createInventoryMovement _ _ s) as [[m|] s1]; cbn; auto.
  destruct (updateInventory _ _ s1) as [[i|] s2]; cbn; auto.
Qed.

End Validation.

Lemma mem_updateInventory_movements
      (now : Z) (item : InsertInventory.t) (st : Store) :
  inventoryMovements (snd (MemStorage.updateInventory now item st))
  = inventoryMovements st.
Proof.
  unfold MemStorage.updateInventory.
  destruct (MemStorage.getInventoryItem _ _); reflexivity.
Qed.

Lemma mem_post_movement_accepted
      (now : Z) (user : User.t) (b : MovementRequest) (st : Store) :
  may_manage_inventory user = true ->
  truthy (req_product_id b) = true ->
  truthy (req_quantity_change b) = true ->
  str_truthy (req_unit b) = true ->
  is_undefined (req_total_price b) = false ->
  exists m,
    fst (post_inventory_movements now (Some user) b st)
    = json 201 (MovementJson m) /\
    In m (inventoryMovements (snd (post_inventory_movements now (Some user) b st)))
    /\ InventoryMovement.quantity_change m = parseFloat (req_quantity_change b)
    /\ InventoryMovement.total_price m = parseFloat (req_total_price b).
Proof.
  unfold may_manage_inventory, post_inventory_movements, catching.
  intros Hauth -> -> -> ->.
  assert (Hno : negb (User.can_manage_inventory user)
                && negb (User.is_admin user) = false).
  { destruct (User.can_manage_inventory user), (User.is_admin user);
      auto; discriminate. }
  rewrite Hno. cbn.
  eexists. split; [reflexivity|]. split; [|split; reflexivity].
  rewrite mem_updateInventory_movements. cbn. apply rows_set_In.
Qed.

(** C10, as the code has it.  For a caller allowed to record movements:
    a request whose product_id or quantity_change is falsy, the JSON number
    0 among them, is answered 400 before anything is stored, with either
    storage; a total_price of 0 passes the validation (the answer is 201 or
    500, never 400) and the in-memory store records it with total_price 0;
    and a request that sends quantity_change as a JSON number and is
    answered 201 has a quantity other than zero. *)
Theorem movement_validation_by_truthiness :
  (forall (S : Type) (storage : IStorage S)
          (now : Z) (user : User.t) (b : MovementRequest) (s : S),
      may_manage_inventory user = true ->
      truthy (req_product_id b) = false \/
      truthy (req_quantity_change b) = false ->
      post_inventory_movements now (Some user) b s
      = (json 400 (Message "Lütfen tüm alanları doldurun"), s))
  /\
  (forall (q : Q), (q == 0)%Q -> truthy (JNum q) = false)
  /\
  (forall (S : Type) (storage : IStorage S)
          (now : Z) (user : User.t) (b : MovementRequest) (s : S),
      may_manage_inventory user = true ->
      truthy (req_product_id b) = true ->
      truthy (req_quantity_change b) = true ->
      str_truthy (req_unit b) = true ->
      (req_total_price b = JNum 0) ->
      (status (fst (post_inventory_movements now (Some user) b s)) = 201 \/
       status (fst (post_inventory_movements now (Some user) b s)) = 500))
  /\
  (forall (now : Z) (user : User.t) (b : MovementRequest) (st : Store),
      may_manage_inventory user = true ->
      truthy (req_product_id b) = true ->
      truthy (req_quantity_change b) = true ->
      str_truthy (req_unit b) = true ->
      (req_total_price b = JNum 0) ->
      exists m,
        fst (post_inventory_movements now (Some user) b st)
        = json 201 (MovementJson m) /\
        In m (inventoryMovements
                (snd (post_inventory_movements now (Some user) b st))) /\
        InventoryMovement.total_price m = Fin 0)
  /\
  (forall (S : Type) (storage : IStorage S)
          (now : Z) (user : User.t) (b : MovementRequest) (s : S) (q : Q),
      may_manage_inventory user = true ->
      req_quantity_change b = JNum q ->
      status (fst (post_inventory_movements now (Some user) b s)) = 201 ->
      ~ (q == 0)%Q).
Proof.
  split; [|split; [|split; [|split]]].
  - intros. apply post_movement_rejects_falsy; assumption.
  - apply truthy_zero.
  - intros S storage now user b s Ha Hp Hq Hu Ht.
    apply post_movement_validated; auto. rewrite Ht. reflexivity.
  - intros now user b st Ha Hp Hq Hu Ht.
    destruct (@mem_post_movement_accepted now user b st) as (m & H1 & H2 & _ & H4);
      auto.
    { rewrite Ht. reflexivity. }
    exists m. repeat split; auto. rewrite H4, Ht. reflexivity.
  - intros S storage now user b s q Ha Hq H201 Hz.
    rewrite (@post_movement_rejects_falsy S storage now user b s Ha) in H201.
    + discriminate.
    + right. rewrite Hq. apply truthy_zero, Hz.
Qed.

Lemma movement_validation_by_truthiness_witness :
  post_inventory_movements
    1000 (Some example_admin) (example_request 0 100) example_products
  = (json 400 (Message "Lütfen tüm alanları doldurun"), example_products)
  /\
  truthy (JNum 0) = false
  /\
  (status (fst (post_inventory_movements
                  1000 (Some example_admin) (example_request 10 0)
                  (healthy example_products))) = 201 \/
   status (fst (post_inventory_movements
                  1000 (Some example_admin) (example_request 10 0)
                  (healthy example_products))) = 500)
  /\
  (exists m,
      fst (post_inventory_movements
             1000 (Some example_admin) (example_request 10 0) example_products)
      = json 201 (MovementJson m) /\
      In m (inventoryMovements
              (snd (post_inventory_movements
                      1000 (Some example_admin) (example_request 10 0)
                      example_products))) /\
      InventoryMovement.total_price m = Fin 0)
  /\
  ~ (10 == 0)%Q.
Proof.
  destruct movement_validation_by_truthiness as (A & B & C & D & E).
  split; [|split; [|split; [|split]]].
  - apply (A Store Mem 1000 example_admin (example_request 0 100)
             example_products); [reflexivity | right; reflexivity].
  - apply (B 0%Q). reflexivity.
  - apply (C Db Database 1000 example_admin (example_request 10 0)
             (healthy example_products)); reflexivity.
  - apply (D 1000 example_admin (example_request 10 0) example_products);
      reflexivity.
  - apply (E Store Mem 1000 example_admin (example_request 10 100)
             example_products 10%Q); reflexivity.
Defined.

(** C10 as stated fails: the quantity "0", a non-empty string, passes the
    truthiness test and parseFloat reads it as 0, so the database stores a
    movement of quantity zero. *)
Lemma zero_quantity_movement_created :
  ~ never_creates_zero_quantity example_products zero_as_string.
Proof.
  intros H.
  destruct (H (InventoryMovement.mk 1 (Int 1) (Fin 0) "kg" (Fin 5)
                                    "update" 1000 (Some 1)))
    as [Hin | Hne].
  - cbn. left. reflexivity.
  - cbn in Hin. exact Hin.
  - apply Hne. reflexivity.
Qed.

Example zero_as_string_answer :
  status (fst (handle zero_as_string (healthy example_products))) = 201 /\
  status (fst (handle zero_as_string example_products)) = 201.
Proof. split; reflexivity. Qed.

(* ================================================================== *)
(** * Recording a movement on the database *)
(* ================================================================== *)

Lemma statement_inv (A : Type) (run : Store -> outcome A * Store)
      (db db' : Db) (r : outcome A) :
  statement run db = (r, db') ->
  (r = Throw /\ tables db' = tables db) \/
  run (tables db) = (r, tables db').
Proof.
  unfold statement. destruct db as [t fs]. cbn.
  destruct fs as [|[|] fs]; intros H; inversion H; subst; cbn; auto;
    right; destruct (run t); reflexivity.
Qed.

Lemma find_app_none (A : Type) (P : A -> bool) (l : list A) (x : A) :
  find P l = None -> P x = true -> find P (l ++ [x]) = Some x.
Proof.
  intros Hn Hx. induction l as [|y l IH]; cbn in *.
  - rewrite Hx. reflexivity.
  - destruct (P y); [discriminate|auto].
Qed.

Lemma insert_movement_effect
      (now : Z) (mv : InsertInventoryMovement.t) (t t' : Store)
      (r : outcome InventoryMovement.t) :
  DatabaseStorage.insert_movement now mv t = (r, t') ->
  inventory t' = inventory t /\ users t' = users t /\
  products t' = products t /\
  inventoryIdCounter t' = inventoryIdCounter t /\
  match r with
  | Ok m =>
      inventoryMovements t' = inventoryMovements t ++ [m] /\
      movementIdCounter t' = movementIdCounter t + 1 /\
      m = InventoryMovement.mk
            (movementIdCounter t)
            (InsertInventoryMovement.product_id mv)
            (InsertInventoryMovement.quantity_change mv)
            (InsertInventoryMovement.unit mv)
            (InsertInventoryMovement.total_price mv)
            (InsertInventoryMovement.movement_type mv)
            now
            (InsertInventoryMovement.user_id mv) /\
      rows_has InventoryMovement.id (Int (movementIdCounter t))
               (inventoryMovements t) = false /\
      product_ref_ok (InsertInventoryMovement.product_id mv) t = true /\
      user_ref_ok (InsertInventoryMovement.user_id mv) t = true
  | Throw => inventoryMovements t' = inventoryMovements t
  end.
Proof.
  unfold DatabaseStorage.insert_movement.
  destruct (InsertInventoryMovement.product_id mv) as [pid|] eqn:Hp.
  - destruct (rows_has _ _ _) eqn:E1; cbn.
    + intros H; inversion H; subst; cbn; auto.
    + destruct (rows_has Product.id (Int pid) (products t)) eqn:E2; cbn.
      * destruct (user_ref_ok _ t) eqn:E3; cbn;
          intros H; inversion H; subst; cbn; rewrite ?Hp; auto 10.
      * intros H; inversion H; subst; cbn; auto.
  - intros H; inversion H; subst; auto.
Qed.

Lemma select_inventory_of_effect
      (productId : integer) (t t' : Store) (r : outcome (option Inventory.t)) :
  DatabaseStorage.select_inventory_of productId t = (r, t') ->
  t' = t /\
  match r with
  | Ok oi =>
      oi = MemStorage.getInventoryItem productId t /\
      exists pid, productId = Int pid
  | Throw => True
  end.
Proof.
  unfold DatabaseStorage.select_inventory_of. destruct productId;
    intros H; inversion H; subst; eauto.
Qed.

Lemma update_inventory_add_effect
      (now : Z) (e : Inventory.t) (item : InsertInventory.t) (t t' : Store)
      (r : outcome Inventory.t) (pid : Z) :
  DatabaseStorage.update_inventory_add now e item t = (r, t') ->
  MemStorage.getInventoryItem (Int pid) t = Some e ->
  inventoryMovements t' = inventoryMovements t /\
  match r with
  | Ok _ =>
      recorded (InsertInventory.quantity item)
               (InsertInventory.total_price item)
               (InsertInventory.unit item)
               (Some e) (MemStorage.getInventoryItem (Int pid) t')
  | Throw => inventory t' = inventory t
  end.
Proof.
  unfold DatabaseStorage.update_inventory_add. intros H He.
  destruct (_ && _); inversion H; subst; clear H; cbn; auto.
  split; auto.
  unfold MemStorage.getInventoryItem in *. cbn.
  eexists. split.
  - apply (find_replace_map
             (fun i0 => int_eqb (Inventory.product_id i0) (Int pid))
             (has_key Inventory.id (Int (Inventory.id e))) _ _ He).
    + unfold has_key. apply int_eqb_refl.
    + intros x. reflexivity.
  - cbn. auto.
Qed.

Lemma insert_inventory_effect
      (now : Z) (item : InsertInventory.t) (t t' : Store)
      (r : outcome Inventory.t) (pid : Z) :
  DatabaseStorage.insert_inventory now item t = (r, t') ->
  InsertInventory.product_id item = Int pid ->
  MemStorage.getInventoryItem (Int pid) t = None ->
  inventoryMovements t' = inventoryMovements t /\
  match r with
  | Ok _ =>
      recorded (InsertInventory.quantity item)
               (InsertInventory.total_price item)
               (InsertInventory.unit item)
               None (MemStorage.getInventoryItem (Int pid) t')
  | Throw => inventory t' = inventory t
  end.
Proof.
  unfold DatabaseStorage.insert_inventory. intros H Hp Hn. rewrite Hp in H.
  destruct (_ || _); inversion H; subst; clear H; cbn; auto.
  split; auto.
  unfold MemStorage.getInventoryItem in *. cbn.
  eexists. split.
  - apply find_app_none; [exact Hn|]. cbn. apply Z.eqb_refl.
  - cbn. auto.
Qed.

Lemma db_updateInventory_effect
      (now : Z) (item : InsertInventory.t) (db db' : Db)
      (r : outcome Inventory.t) :
  DatabaseStorage.updateInventory now item db = (r, db') ->
  inventoryMovements (tables db') = inventoryMovements (tables db) /\
  match r with
  | Ok _ =>
      exists pid,
        InsertInventory.product_id item = Int pid /\
        recorded (InsertInventory.quantity item)
                 (InsertInventory.total_price item)
                 (InsertInventory.unit item)
                 (balance_of pid (tables db)) (balance_of pid (tables db'))
  | Throw => inventory (tables db') = inventory (tables db)
  end.
Proof.
  unfold DatabaseStorage.updateInventory, DatabaseStorage.getInventoryItem,
    bind, balance_of.
  destruct (statement _ db) as [[oi|] db1] eqn:E1.
  - apply statement_Ok, select_inventory_of_effect in E1.
    destruct E1 as (Ht & Hoi & pid & Hpid). rewrite Hpid in *.
    destruct oi as [e|]; intros E2; apply statement_inv in E2;
      destruct E2 as [[-> Ht2] | E2]; rewrite ?Ht2, ?Ht; auto.
    + symmetry in Hoi. rewrite Ht in *.
      destruct (update_inventory_add_effect _ _ _ _ E2 Hoi) as [Hm Hr].
      split; auto. destruct r; auto. exists pid. rewrite Hoi. auto.
    + symmetry in Hoi. rewrite Ht in *.
      destruct (insert_inventory_effect _ _ _ E2 Hpid Hoi) as [Hm Hr].
      split; auto. destruct r; auto. exists pid. rewrite Hoi. auto.
  - intros H. inversion H; subst.
    apply statement_inv in E1.
    destruct E1 as [[_ ->] | E1]; auto.
    apply select_inventory_of_effect in E1. destruct E1 as [-> _]. auto.
Qed.

Lemma db_post_route_cases
      (now : Z) (ou : option User.t) (b : MovementRequest) (db : Db) :
  let r := post_inventory_movements now ou b db in
  (status (fst r) <> 201 /\
   inventory (tables (snd r)) = inventory (tables db) /\
   inventoryMovements (tables (snd r)) = inventoryMovements (tables db))
  \/
  (status (fst r) = 500 /\
   inventory (tables (snd r)) = inventory (tables db) /\
   exists m,
     inventoryMovements (tables (snd r))
     = inventoryMovements (tables db) ++ [m])
  \/
  (status (fst r) = 201 /\
   exists m pid,
     inventoryMovements (tables (snd r))
     = inventoryMovements (tables db) ++ [m] /\
     InventoryMovement.product_id m = Int pid /\
     InventoryMovement.quantity_change m = parseFloat (req_quantity_change b) /\
     InventoryMovement.total_price m = parseFloat (req_total_price b) /\
     recorded (parseFloat (req_quantity_change b))
              (parseFloat (req_total_price b))
              (str_or_empty (req_unit b))
              (balance_of pid (tables db))
              (balance_of pid (tables (snd r)))).
Proof.
  unfold post_inventory_movements, catching.
  destruct ou as [u|]; [|left; cbn; repeat split; discriminate].
  destruct (negb _ && negb _); [left; cbn; repeat split; discriminate|].
  destruct (_ || _); [left; cbn; repeat split; discriminate|].
  unfold bind. cbn [createInventoryMovement updateInventory Database].
  unfold DatabaseStorage.createInventoryMovement.
  destruct (statement _ db) as [[m|] db1] eqn:E1.
  - apply statement_Ok, insert_movement_effect in E1.
    destruct E1 as (Hinv & _ & _ & _ & Hms & _ & Hm & _ & Href & _).
    cbn in Href.
    destruct (DatabaseStorage.updateInventory _ _ db1) as [[i|] db2] eqn:E2;
      apply db_updateInventory_effect in E2; cbn in E2;
      destruct E2 as [Hms2 Hr]; cbn.
    + right. right. split; auto.
      destruct Hr as (pid & Hpid & Hrec).
      exists m, pid. rewrite Hms2, Hms. split; auto.
      rewrite Hm. cbn. repeat split; auto.
      unfold recorded, balance_of, MemStorage.getInventoryItem in *.
      rewrite <- Hinv. exact Hrec.
    + right. left. split; auto. rewrite Hr, Hinv, Hms2, Hms. eauto.
  - apply statement_inv in E1. cbn. left. split; [discriminate|].
    destruct E1 as [[_ ->] | E1]; auto.
    apply insert_movement_effect in E1.
    destruct E1 as (Hinv & _ & _ & _ & Hms). auto.
Qed.

(** The session lookup only reads: the route runs on the same tables, or
    the request ends with 500 on the same tables. *)
Lemma db_with_session
      (session : option Z) (route : option User.t -> Db -> Response * Db)
      (db : Db) :
  exists db1,
    tables db1 = tables db /\
    ((exists ou, with_session session route db = route ou db1) \/
     with_session session route db = (sendStatus 500, db1)).
Proof.
  unfold with_session. destruct session as [id|].
  - unfold deserializeUser, bind. cbn [getUser Database].
    unfold DatabaseStorage.getUser.
    destruct (statement _ db) as [[ou|] db1] eqn:E; exists db1.
    + apply statement_Ok in E.
      assert (Ht : tables db1 = tables db).
      { unfold DatabaseStorage.select_user in E. cbn in E.
        inversion E; auto. }
      split; auto. destruct ou; cbn; eauto.
    + apply statement_inv in E. destruct E as [[_ Ht] | E]; auto.
      unfold DatabaseStorage.select_user in E. cbn in E. discriminate.
  - exists db. eauto.
Qed.

(** C2, as the code has it.  POST /api/inventory/movements on the database
    runs the movement insert and the balance update as separate statements,
    with no transaction around them.  When the answer is 201, the movement
    row was appended and the balance row of its product carries the new
    sums and unit.  When the answer is anything else, the balance rows are
    as they were, and the movement rows are either as they were or have the
    new movement appended: a failure after the insert is answered 500 and
    leaves the inserted movement in place. *)
Theorem record_movement_has_no_rollback
        (now : Z) (session : option Z) (b : MovementRequest) (db : Db) :
  let r := handle (PostInventoryMovements now session b) db in
  (status (fst r) = 201 ->
   exists m pid,
     inventoryMovements (tables (snd r))
     = inventoryMovements (tables db) ++ [m] /\
     InventoryMovement.product_id m = Int pid /\
     InventoryMovement.quantity_change m = parseFloat (req_quantity_change b) /\
     InventoryMovement.total_price m = parseFloat (req_total_price b) /\
     recorded (parseFloat (req_quantity_change b))
              (parseFloat (req_total_price b))
              (str_or_empty (req_unit b))
              (balance_of pid (tables db))
              (balance_of pid (tables (snd r))))
  /\
  (status (fst r) <> 201 ->
   inventory (tables (snd r)) = inventory (tables db) /\
   (inventoryMovements (tables (snd r)) = inventoryMovements (tables db) \/
    exists m,
      inventoryMovements (tables (snd r))
      = inventoryMovements (tables db) ++ [m])).
Proof.
  cbn [handle].
  destruct (db_with_session
              session (fun user => post_inventory_movements now user b) db)
    as (db1 & Ht & [[ou Hrun] | Hrun]); rewrite Hrun; cbn zeta.
  - pose proof (db_post_route_cases now ou b db1) as Hc. cbn zeta in Hc.
    rewrite Ht in Hc.
    destruct Hc as [(Hs & Hi & Hm) | [(Hs & Hi & Hm) | (Hs & Hm)]].
    + split; [intros; contradiction | intros _; auto].
    + split; [intros H; rewrite Hs in H; discriminate | intros _; auto].
    + split; [intros _; exact Hm | intros; contradiction].
  - cbn. rewrite Ht. split; [discriminate | auto].
Qed.

(** The insert went through and the connection was lost before the balance
    update: the answer is 500, the movement row is stored, and there is no
    balance row. *)
Example partial_record_left_behind :
  handle record_ten lost_after_insert
  = (json 500 (Message "Error creating inventory movement"),
     mkDb (with_movements
             example_products
             [InventoryMovement.mk 1 (Int 1) (Fin 10) "kg" (Fin 100)
                                   "update" 1000 (Some 1)]
             2)
          []).
Proof. reflexivity. Qed.

(** C2 as stated fails: the request is not answered 201, and the movement
    rows are not as they were. *)
Lemma record_movement_not_all_or_nothing :
  ~ all_or_nothing lost_after_insert record_ten.
Proof.
  unfold all_or_nothing. rewrite partial_record_left_behind. cbn.
  intros [H | [H _]]; discriminate.
Qed.

Lemma record_movement_has_no_rollback_witness :
  (exists m pid,
      inventoryMovements (tables (snd (handle record_ten
                                              (healthy example_products))))
      = inventoryMovements (tables (healthy example_products)) ++ [m] /\
      InventoryMovement.product_id m = Int pid /\
      InventoryMovement.quantity_change m = Fin 10 /\
      InventoryMovement.total_price m = Fin 100 /\
      recorded (Fin 10) (Fin 100) "kg"
               (balance_of pid (tables (healthy example_products)))
               (balance_of pid
                  (tables (snd (handle record_ten
                                       (healthy example_products))))))
  /\
  (inventory (tables (snd (handle record_ten lost_after_insert)))
   = inventory (tables lost_after_insert) /\
   (inventoryMovements (tables (snd (handle record_ten lost_after_insert)))
    = inventoryMovements (tables lost_after_insert) \/
    exists m,
      inventoryMovements (tables (snd (handle record_ten lost_after_insert)))
      = inventoryMovements (tables lost_after_insert) ++ [m])).
Proof.
  split.
  - apply (proj1 (record_movement_has_no_rollback
                    1000 (Some 1) (example_request 10 100)
                    (healthy example_products))).
    reflexivity.
  - apply (proj2 (record_movement_has_no_rollback
                    1000 (Some 1) (example_request 10 100)
                    lost_after_insert)).
    cbn. discriminate.
Defined.

(* ================================================================== *)
(** * The accounts *)
(* ================================================================== *)

Lemma same_users_refl (t : Store) : same_users t t.
Proof. split; reflexivity. Qed.

Lemma same_users_trans (a b c : Store) :
  same_users a b -> same_users b c -> same_users a c.
Proof. intros [H1 H2] [H3 H4]. split; congruence. Qed.

Lemma same_users_invariant (t t' : Store) :
  same_users t t' -> admin_invariant t -> admin_invariant t'.
Proof.
  intros [Hu Hc] [Hf Ha]. unfold admin_invariant, user_ids_fresh.
  rewrite Hu, Hc. auto.
Qed.

Lemma has_admin_app (l : list User.t) (u : User.t) :
  has_admin l = true -> has_admin (l ++ [u]) = true.
Proof.
  unfold has_admin. intros H. rewrite existsb_app, H. reflexivity.
Qed.

Lemma has_admin_witness (l : list User.t) (u : User.t) :
  In u l -> User.is_admin u = true -> has_admin l = true.
Proof.
  intros Hin Hu. apply existsb_exists. eauto.
Qed.

Section AccountsOfRoutes.
Context {S : Type} `{IStorage S} (view : S -> Store) `{!UserFacts view}.

Lemma keeps_ret (A : Type) (a : A) : keeps_users view (ret a).
Proof. intros s. apply same_users_refl. Qed.

Lemma keeps_bind (A B : Type) (m : M S A) (f : A -> M S B) :
  keeps_users view m -> (forall a, keeps_users view (f a)) ->
  keeps_users view (bind m f).
Proof.
  intros Hm Hf s. unfold bind. specialize (Hm s).
  destruct (m s) as [[a|] s1]; cbn in *; auto.
  eapply same_users_trans; [exact Hm | apply Hf].
Qed.

Lemma keeps_if (A : Type) (c : bool) (m1 m2 : M S A) :
  keeps_users view m1 -> keeps_users view m2 ->
  keeps_users view (if c then m1 else m2).
Proof. destruct c; auto. Qed.

Lemma catching_keeps (m : M S Response) (failed : Response) (s : S) :
  keeps_users view m ->
  same_users (view s) (view (snd (catching m failed s))).
Proof.
  intros Hm. unfold catching. specialize (Hm s).
  destruct (m s) as [[r|] s1]; exact Hm.
Qed.

Lemma post_products_users
      (ou : option User.t) (name : string) (category : option string) (s : S) :
  same_users (view s) (view (snd (post_products ou name category s))).
Proof.
  unfold post_products. apply catching_keeps.
  destruct ou as [u|]; [|apply keeps_ret].
  apply keeps_if; [apply keeps_ret|].
  apply keeps_bind; [intros s0; apply getProductByName_users|].
  intros [p|]; [apply keeps_ret|].
  apply keeps_bind; [intros s0; apply createProduct_users|].
  intros p. apply keeps_ret.
Qed.

Lemma delete_products_users
      (ou : option User.t) (id_param : string) (s : S) :
  same_users (view s) (view (snd (delete_products ou id_param s))).
Proof.
  unfold delete_products. apply catching_keeps.
  destruct ou as [u|]; [|apply keeps_ret].
  apply keeps_if; [apply keeps_ret|].
  apply keeps_bind; [intros s0; apply deleteProduct_users|].
  intros ok. apply keeps_if; apply keeps_ret.
Qed.

Lemma post_inventory_movements_users
      (now : Z) (ou : option User.t) (b : MovementRequest) (s : S) :
  same_users (view s) (view (snd (post_inventory_movements now ou b s))).
Proof.
  unfold post_inventory_movements. apply catching_keeps.
  destruct ou as [u|]; [|apply keeps_ret].
  apply keeps_if; [apply keeps_ret|].
  apply keeps_if; [apply keeps_ret|].
  apply keeps_bind; [intros s0; apply createInventoryMovement_users|].
  intros m.
  apply keeps_bind; [intros s0; apply updateInventory_users|].
  intros i. apply keeps_ret.
Qed.

Lemma delete_inventory_movements_users
      (now : Z) (ou : option User.t) (id_param : string) (s : S) :
  same_users (view s)
             (view (snd (delete_inventory_movements now ou id_param s))).
Proof.
  unfold delete_inventory_movements. apply catching_keeps.
  destruct ou as [u|]; [|apply keeps_ret].
  apply keeps_if; [apply keeps_ret|].
  apply keeps_bind; [intros s0; apply deleteInventoryMovement_users|].
  intros ok. apply keeps_if; apply keeps_ret.
Qed.

(** Creating a user keeps the invariant. *)
Lemma createUser_invariant (ins : InsertUser.t) (s : S) :
  admin_invariant (view s) ->
  admin_invariant (view (snd (createUser ins s))).
Proof.
  intros [Hf Ha].
  destruct (createUser_users ins s Hf) as [Hc [Hu | (u & Hid & Hu)]];
    unfold admin_invariant, user_ids_fresh; rewrite Hu.
  - split; auto. eapply Forall_impl; [|exact Hf]. cbn. intros; lia.
  - split; [|apply has_admin_app, Ha].
    apply Forall_app. split.
    + eapply Forall_impl; [|exact Hf]. cbn. intros; lia.
    + constructor; [lia|constructor].
Qed.

Lemma lookup_then_create_invariant
      (A : Type) (n : string) (ins : InsertUser.t)
      (found : M S A) (k : User.t -> M S A) (s : S) :
  keeps_users view found -> (forall u, keeps_users view (k u)) ->
  admin_invariant (view s) ->
  admin_invariant
    (view (snd ((existing <- getUserByUsername n ;;
                 match existing with
                 | Some _ => found
                 | None => u <- createUser ins ;; k u
                 end) s))).
Proof.
  intros Hfound Hk Hinv. unfold bind.
  pose proof (getUserByUsername_users n s) as H1.
  destruct (getUserByUsername n s) as [[[e|]|] s1]; cbn in *.
  - eapply same_users_invariant; [apply Hfound|].
    eapply same_users_invariant; eauto.
  - pose proof (@createUser_invariant ins s1) as H2.
    destruct (createUser ins s1) as [[u|] s2]; cbn in *.
    + eapply same_users_invariant; [apply Hk|].
      apply H2. eapply same_users_invariant; eauto.
    + apply H2. eapply same_users_invariant; eauto.
  - eapply same_users_invariant; eauto.
Qed.

Lemma catching_invariant (m : M S Response) (failed : Response) (s : S) :
  admin_invariant (view (snd (m s))) ->
  admin_invariant (view (snd (catching m failed s))).
Proof.
  unfold catching. destruct (m s) as [[r|] s1]; auto.
Qed.

Lemma post_users_invariant (ou : option User.t) (b : UserRequest) (s : S) :
  admin_invariant (view s) ->
  admin_invariant (view (snd (post_users ou b s))).
Proof.
  intros Hinv. unfold post_users. apply catching_invariant.
  destruct ou as [u|]; [|exact Hinv].
  destruct (negb (User.is_admin u)); [exact Hinv|].
  apply lookup_then_create_invariant; auto.
  - apply keeps_ret.
  - intros u0. apply keeps_ret.
Qed.

Lemma post_register_invariant
      (ou : option User.t) (b : RegisterRequest) (s : S) :
  admin_invariant (view s) ->
  admin_invariant (view (snd (post_register ou b s))).
Proof.
  intros Hinv. unfold post_register. apply catching_invariant.
  destruct ou as [u|]; [|exact Hinv].
  destruct (negb (User.is_admin u)); [exact Hinv|].
  apply lookup_then_create_invariant; auto.
  - apply keeps_ret.
  - intros u0. apply keeps_ret.
Qed.

Lemma createAdminUser_invariant (hashed : string) (s : S) :
  admin_invariant (view s) ->
  admin_invariant (view (snd (createAdminUser hashed s))).
Proof.
  intros Hinv. unfold createAdminUser. cbn [snd].
  apply lookup_then_create_invariant; auto.
  - apply keeps_ret.
  - intros u0. apply keeps_ret.
Qed.

(** Deleting a user: the requester is an administrator of the store and is
    not the target, so an administrator is left. *)
Lemma delete_users_invariant (user : User.t) (id_param : string) (s : S) :
  In user (users (view s)) ->
  admin_invariant (view s) ->
  admin_invariant (view (snd (delete_users (Some user) id_param s))).
Proof.
  intros Hin Hinv. unfold delete_users. apply catching_invariant.
  destruct (negb (User.is_admin user)) eqn:Hadm; [exact Hinv|].
  apply negb_false_iff in Hadm.
  destruct (int_eqb (parseInt_string id_param) (Int (User.id user))) eqn:Hself;
    [exact Hinv|].
  set (id := parseInt_string id_param) in *.
  unfold bind.
  pose proof (getAllUsers_users s) as H1.
  destruct (getAllUsers s) as [[us|] s1]; cbn in H1 |- *;
    [|eapply same_users_invariant; eauto].
  pose proof (getUser_users id s1) as H2.
  destruct (getUser id s1) as [[ot|] s2]; cbn in H2 |- *;
    [|eapply same_users_invariant; [exact H2|];
      eapply same_users_invariant; eauto].
  assert (H12 : same_users (view s) (view s2))
    by (eapply same_users_trans; eauto).
  assert (Hinv2 : admin_invariant (view s2))
    by (eapply same_users_invariant; eauto).
  destruct (_ && _); [exact Hinv2|].
  pose proof (deleteUser_users id s2) as H3.
  assert (Hd : admin_invariant (view (snd (deleteUser id s2)))).
  { destruct H3 as [Hc [Hu | Hu]]; destruct Hinv2 as [Hf Ha];
      unfold admin_invariant, user_ids_fresh; rewrite Hu, Hc.
    - auto.
    - split.
      + unfold rows_delete. clear - Hf.
        induction Hf as [|u l Hu Hl IH]; cbn; auto.
        destruct (negb _); auto.
      + apply (has_admin_witness _ user); [|exact Hadm].
        apply filter_In. split.
        * destruct H12 as [-> _]. exact Hin.
        * unfold has_key. rewrite int_eqb_sym, Hself. reflexivity. }
  destruct (deleteUser id s2) as [[ok|] s3]; cbn in Hd |- *; auto.
  destruct ok; exact Hd.
Qed.

(** The session middleware hands the route a user of the store. *)
Lemma with_session_invariant
      (session : option Z) (route : option User.t -> S -> Response * S)
      (s : S) :
  (forall s1, admin_invariant (view s1) ->
              admin_invariant (view (snd (route None s1)))) ->
  (forall u s1, In u (users (view s1)) -> admin_invariant (view s1) ->
                admin_invariant (view (snd (route (Some u) s1)))) ->
  admin_invariant (view s) ->
  admin_invariant (view (snd (with_session session route s))).
Proof.
  intros Hnone Hsome Hinv. unfold with_session.
  destruct session as [id|]; [|auto].
  unfold deserializeUser, bind.
  pose proof (getUser_users (Int id) s) as H1.
  pose proof (getUser_found (Int id) s) as H2.
  destruct (getUser (Int id) s) as [[[u|]|] s1]; cbn in *.
  - destruct (H2 u eq_refl) as [Hin _].
    apply Hsome.
    + destruct H1 as [-> _]. exact Hin.
    + eapply same_users_invariant; eauto.
  - eapply same_users_invariant; eauto.
  - eapply same_users_invariant; eauto.
Qed.

Lemma handle_invariant (r : Request) (s : S) :
  admin_invariant (view s) ->
  admin_invariant (view (snd (handle r s))).
Proof.
  intros Hinv. destruct r; cbn [handle].
  - cbn [snd]. apply createAdminUser_invariant, Hinv.
  - apply with_session_invariant; auto;
      intros; apply post_register_invariant; auto.
  - apply with_session_invariant; auto; intros;
      (eapply same_users_invariant; [apply post_products_users|]; auto).
  - apply with_session_invariant; auto; intros;
      (eapply same_users_invariant; [apply delete_products_users|]; auto).
  - apply with_session_invariant; auto; intros;
      (eapply same_users_invariant;
       [apply post_inventory_movements_users|]; auto).
  - apply with_session_invariant; auto; intros;
      (eapply same_users_invariant;
       [apply delete_inventory_movements_users|]; auto).
  - apply with_session_invariant; auto;
      intros; apply post_users_invariant; auto.
  - apply with_session_invariant; auto.
    intros u s1 Hin H1. apply delete_users_invariant; auto.
Qed.

Lemma run_invariant (rs : list Request) (s : S) :
  admin_invariant (view s) -> admin_invariant (view (run rs s)).
Proof.
  revert s. induction rs as [|r rs IH]; intros s Hinv; cbn; auto.
  apply IH, handle_invariant, Hinv.
Qed.

End AccountsOfRoutes.

(* ------------------------------------------------------------------ *)
(** ** The two storages and the users *)

Ltac crush_same_users :=
  repeat match goal with
         | |- context [if ?c then _ else _] => destruct c
         | |- context [match ?x with _ => _ end] => destruct x
         end;
  split; reflexivity.

#[export] Instance mem_user_facts : UserFacts (S := Store) (fun st => st).
Proof.
  constructor; cbn; intros;
    try (apply same_users_refl);
    try (unfold MemStorage.createProduct, MemStorage.deleteProduct,
           MemStorage.createInventoryMovement, MemStorage.updateInventory,
           MemStorage.deleteInventoryMovement; cbn; crush_same_users).
  - inversion H as [Hu]. unfold MemStorage.getUser in Hu.
    apply rows_get_key in Hu. exact Hu.
  - match goal with Hf : user_ids_fresh _ |- _ => rename Hf into Hfresh end.
    split; [lia|]. right. eexists. split; [|].
    2:{ unfold rows_set.
        assert (Hno : rows_has User.id (Int (userIdCounter s)) (users s)
                      = false).
        { unfold rows_has. apply not_true_is_false. intros E.
          apply existsb_exists in E. destruct E as (u & Hin & Hk).
          unfold user_ids_fresh in Hfresh. rewrite Forall_forall in Hfresh.
          specialize (Hfresh u Hin). unfold has_key in Hk.
          apply int_eqb_eq in Hk. inversion Hk. lia. }
        cbn [User.id]. rewrite Hno. reflexivity. }
    cbn. lia.
  - split; [reflexivity|]. right. reflexivity.
Qed.

Lemma statement_keeps (A : Type) (run : Store -> outcome A * Store) :
  (forall t, same_users t (snd (run t))) ->
  keeps_users tables (statement run).
Proof.
  intros Hrun [t fs]. unfold statement. cbn.
  destruct fs as [|[|] fs]; cbn; auto using same_users_refl.
Qed.

Lemma keeps_try_catch (S A : Type) (view : S -> Store) (m h : M S A) :
  keeps_users view m -> keeps_users view h ->
  keeps_users view (try_catch m h).
Proof.
  intros Hm Hh s. unfold try_catch. specialize (Hm s).
  destruct (m s) as [[a|] s1]; cbn in *; auto.
  eapply same_users_trans; [exact Hm | apply Hh].
Qed.

Ltac keeps_statement :=
  apply statement_keeps; intros ?;
  unfold DatabaseStorage.select_user, DatabaseStorage.insert_product,
    DatabaseStorage.select_product, DatabaseStorage.delete_movements_of,
    DatabaseStorage.delete_inventory_of, DatabaseStorage.delete_product,
    DatabaseStorage.select_inventory_of, DatabaseStorage.update_inventory_add,
    DatabaseStorage.insert_inventory, DatabaseStorage.insert_movement,
    DatabaseStorage.select_movement, DatabaseStorage.update_inventory_sub,
    DatabaseStorage.delete_movement, DatabaseStorage.select_movements_in;
  cbn; crush_same_users.

#[export] Instance database_user_facts : UserFacts (S := Db) tables.
Proof.
  constructor; cbn; intros.
  - apply (statement_keeps (DatabaseStorage.select_user id)).
    intros t. unfold DatabaseStorage.select_user. crush_same_users.
  - unfold DatabaseStorage.getUser in *.
    destruct (statement _ s) as [r s1] eqn:E. cbn in *. subst r.
    apply statement_Ok in E. unfold DatabaseStorage.select_user in E.
    destruct id; inversion E as [[Hu Ht]].
    apply rows_get_key in Hu. exact Hu.
  - unfold DatabaseStorage.getUserByUsername. keeps_statement.
  - unfold DatabaseStorage.getAllUsers. keeps_statement.
  - unfold DatabaseStorage.createUser.
    destruct (statement _ s) as [r s1] eqn:E. cbn.
    apply statement_inv in E. destruct E as [[_ Ht] | E].
    + rewrite Ht. split; [lia|auto].
    + unfold DatabaseStorage.insert_user in E.
      destruct (_ || _); injection E as Hr Ht; rewrite <- Ht; cbn.
      * split; [lia|auto].
      * split; [lia|]. right. eexists. split; [|reflexivity]. cbn. lia.
  - unfold DatabaseStorage.deleteUser, try_catch, bind.
    destruct (statement _ s) as [r s1] eqn:E.
    apply statement_inv in E. destruct E as [[-> Ht] | E].
    + cbn. rewrite Ht. auto.
    + unfold DatabaseStorage.delete_user in E.
      destruct id; [destruct (_ && _)|]; injection E as Hr Ht;
        rewrite <- Hr; cbn; rewrite <- Ht; cbn; auto.
  - unfold DatabaseStorage.createProduct. keeps_statement.
  - unfold DatabaseStorage.getProductByName. keeps_statement.
  - unfold DatabaseStorage.deleteProduct.
    apply keeps_try_catch; [|apply keeps_ret].
    repeat (apply keeps_bind; [keeps_statement | intros ?]).
    apply keeps_ret.
  - unfold DatabaseStorage.createInventoryMovement. keeps_statement.
  - unfold DatabaseStorage.updateInventory, DatabaseStorage.getInventoryItem.
    apply keeps_bind; [keeps_statement|].
    intros [e|]; keeps_statement.
  - unfold DatabaseStorage.deleteInventoryMovement.
    apply keeps_try_catch; [|apply keeps_ret].
    apply keeps_bind; [keeps_statement|].
    intros [m|]; [|apply keeps_ret].
    apply keeps_bind; [keeps_statement|]. intros oi.
    apply keeps_bind; [destruct oi; [keeps_statement|apply keeps_ret]|].
    intros ?. apply keeps_bind; [keeps_statement|]. intros ?.
    apply keeps_ret.
Qed.

Lemma delete_users_self
      (S : Type) (storage : IStorage S)
      (user : User.t) (id_param : string) (s : S) :
  User.is_admin user = true ->
  parseInt_string id_param = Int (User.id user) ->
  delete_users (Some user) id_param s
  = (json 400 (Message "Kendinizi silemezsiniz"), s).
Proof.
  intros Ha Hid. unfold delete_users, catching.
  rewrite Ha, Hid, int_eqb_refl. reflexivity.
Qed.

Lemma mem_delete_users_last_admin
      (user target : User.t) (id_param : string) (st : Store) :
  User.is_admin user = true ->
  MemStorage.getUser (parseInt_string id_param) st = Some target ->
  User.is_admin target = true ->
  count_admins (users st) = 1%nat ->
  status (fst (delete_users (Some user) id_param st)) = 400 /\
  snd (delete_users (Some user) id_param st) = st.
Proof.
  intros Ha Ht Hta Hc. unfold delete_users, catching. rewrite Ha. cbn.
  destruct (int_eqb _ _); [split; reflexivity|].
  cbn. rewrite Ht, Hta. unfold MemStorage.getAllUsers.
  unfold count_admins in Hc. rewrite Hc. cbn. split; reflexivity.
Qed.

Lemma db_delete_users_last_admin
      (user target : User.t) (id_param : string) (db : Db) :
  User.is_admin user = true ->
  MemStorage.getUser (parseInt_string id_param) (tables db) = Some target ->
  User.is_admin target = true ->
  count_admins (users (tables db)) = 1%nat ->
  status (fst (delete_users (Some user) id_param db)) <> 200 /\
  tables (snd (delete_users (Some user) id_param db)) = tables db.
Proof.
  intros Ha Ht Hta Hc. unfold delete_users, catching. rewrite Ha. cbn [negb].
  destruct (int_eqb _ _); [split; [discriminate|reflexivity]|].
  unfold bind. cbn [getAllUsers getUser Database].
  unfold DatabaseStorage.getAllUsers, DatabaseStorage.getUser.
  destruct (statement _ db) as [[us|] db1] eqn:E1.
  - apply statement_Ok in E1. cbn in E1. injection E1 as Hus Ht1.
    destruct (statement _ db1) as [[ot|] db2] eqn:E2.
    + apply statement_Ok in E2. unfold DatabaseStorage.select_user in E2.
      destruct (parseInt_string id_param) eqn:Hid; [|discriminate].
      injection E2 as Hot Ht2.
      unfold MemStorage.getUser in Ht. rewrite <- Ht1, Ht in Hot. subst ot.
      rewrite Hta. unfold count_admins in Hc. rewrite <- Hus, Hc. cbn.
      split; [discriminate | congruence].
    + apply statement_inv in E2. cbn. split; [discriminate|].
      destruct E2 as [[_ Ht2] | E2]; [congruence|].
      unfold DatabaseStorage.select_user in E2.
      destruct (parseInt_string id_param); [discriminate|].
      injection E2 as Ht2. congruence.
  - apply statement_inv in E1. cbn. split; [discriminate|].
    destruct E1 as [[_ Ht1] | E1]; [congruence|]. discriminate.
Qed.

(** C7.  DELETE /api/users/:id answers 400 and changes nothing when the id
    is the requester's own, with either storage.  It does not delete, and
    leaves the store as it was, when the target is an administrator and the
    store holds exactly one administrator: the in-memory store answers 400,
    and so does the database unless a statement fails (then 500).  And
    whatever requests are served, in whatever order and with whatever
    failures of the connection, a store that has an administrator keeps
    having one. *)
Theorem last_administrator_is_kept :
  (forall (S : Type) (storage : IStorage S)
          (user : User.t) (id_param : string) (s : S),
      User.is_admin user = true ->
      parseInt_string id_param = Int (User.id user) ->
      delete_users (Some user) id_param s
      = (json 400 (Message "Kendinizi silemezsiniz"), s))
  /\
  (forall (user target : User.t) (id_param : string) (st : Store),
      User.is_admin user = true ->
      MemStorage.getUser (parseInt_string id_param) st = Some target ->
      User.is_admin target = true ->
      count_admins (users st) = 1%nat ->
      status (fst (delete_users (Some user) id_param st)) = 400 /\
      snd (delete_users (Some user) id_param st) = st)
  /\
  (forall (user target : User.t) (id_param : string) (db : Db),
      User.is_admin user = true ->
      MemStorage.getUser (parseInt_string id_param) (tables db) = Some target ->
      User.is_admin target = true ->
      count_admins (users (tables db)) = 1%nat ->
      status (fst (delete_users (Some user) id_param db)) <> 200 /\
      tables (snd (delete_users (Some user) id_param db)) = tables db)
  /\
  (forall (rs : list Request) (st : Store),
      user_ids_fresh st -> has_admin (users st) = true ->
      has_admin (users (run rs st)) = true)
  /\
  (forall (rs : list Request) (db : Db),
      user_ids_fresh (tables db) -> has_admin (users (tables db)) = true ->
      has_admin (users (tables (run rs db))) = true).
Proof.
  split; [|split; [|split; [|split]]].
  - apply delete_users_self.
  - apply mem_delete_users_last_admin.
  - apply db_delete_users_last_admin.
  - intros rs st Hf Ha.
    apply (@run_invariant Store Mem (fun st => st) _ rs st).
    split; assumption.
  - intros rs db Hf Ha.
    apply (@run_invariant Db Database tables _ rs db). split; assumption.
Qed.

(** Two administrators: one deletes the other; the one that is left can
    delete neither itself nor, were it asked for, the last
    administrator. *)
Example one_of_two_admins_deleted :
  handle (DeleteUsers (Some 1) "2") (healthy example_two_admins)
  = (json 200 (Message "Kullanıcı başarıyla silindi"),
     healthy (with_users example_two_admins (users example_products) 3)).
Proof. reflexivity. Qed.

Example last_admin_cannot_delete_itself :
  handle (DeleteUsers (Some 1) "1") (healthy example_products)
  = (json 400 (Message "Kendinizi silemezsiniz"), healthy example_products).
Proof. reflexivity. Qed.

Lemma last_administrator_is_kept_witness :
  delete_users (Some example_admin) "1" (healthy example_products)
  = (json 400 (Message "Kendinizi silemezsiniz"), healthy example_products)
  /\
  (status (fst (delete_users (Some example_second_admin) "1"
                             example_products)) = 400 /\
   snd (delete_users (Some example_second_admin) "1" example_products)
   = example_products)
  /\
  (status (fst (delete_users (Some example_second_admin) "1"
                             (mkDb example_products [false; true]))) <> 200 /\
   tables (snd (delete_users (Some example_second_admin) "1"
                             (mkDb example_products [false; true])))
   = tables (mkDb example_products [false; true]))
  /\
  has_admin (users (run [DeleteUsers (Some 2) "1"; DeleteUsers (Some 2) "2"]
                        example_two_admins)) = true
  /\
  has_admin (users (tables (run [DeleteUsers (Some 2) "1";
                                 DeleteUsers (Some 2) "2"]
                                (healthy example_two_admins)))) = true.
Proof.
  destruct last_administrator_is_kept as (A & B & C & D & E).
  split; [|split; [|split; [|split]]].
  - apply (A Db Database example_admin "1" (healthy example_products));
      reflexivity.
  - apply (B example_second_admin example_admin "1" example_products);
      reflexivity.
  - apply (C example_second_admin example_admin "1"
             (mkDb example_products [false; true])); reflexivity.
  - apply (D [DeleteUsers (Some 2) "1"; DeleteUsers (Some 2) "2"]
             example_two_admins); [|reflexivity].
    repeat constructor.
  - apply (E [DeleteUsers (Some 2) "1"; DeleteUsers (Some 2) "2"]
             (healthy example_two_admins)); [|reflexivity].
    repeat constructor.
Defined.

(* ================================================================== *)
(** * The ledger invariant *)
(* ================================================================== *)

Section KeyedRows.
Variable row : Type.
Variable key : row -> Z.

Lemma has_key_Int (z : Z) (r : row) : has_key key (Int z) r = (key r =? z).
Proof. reflexivity. Qed.

Lemma fresh_not_has (c : Z) (l : list row) :
  Forall (fun r => key r < c) l -> rows_has key (Int c) l = false.
Proof.
  intros H. unfold rows_has. induction H as [|r l Hr Hl IH]; cbn; auto.
  rewrite IH, has_key_Int. apply orb_false_iff. split; auto.
  apply Z.eqb_neq. lia.
Qed.

Lemma rows_set_fresh (r : row) (l : list row) :
  rows_has key (Int (key r)) l = false -> rows_set key r l = l ++ [r].
Proof. unfold rows_set. intros ->. reflexivity. Qed.

Lemma rows_set_present (r : row) (l : list row) :
  rows_has key (Int (key r)) l = true ->
  rows_set key r l
  = map (fun x => if has_key key (Int (key r)) x then r else x) l.
Proof. unfold rows_set. intros ->. reflexivity. Qed.

Lemma map_replace_keys (c : row) (l : list row) :
  map key (map (fun x => if has_key key (Int (key c)) x then c else x) l)
  = map key l.
Proof.
  induction l as [|x l IH]; cbn; auto. rewrite IH. f_equal.
  rewrite has_key_Int. destruct (key x =? key c) eqn:E; auto.
  apply Z.eqb_eq in E. congruence.
Qed.

Lemma NoDup_key_unique (l : list row) (x y : row) :
  NoDup (map key l) -> In x l -> In y l -> key x = key y -> x = y.
Proof.
  induction l as [|a l IH]; cbn; intros Hnd Hx Hy Hk; [contradiction|].
  inversion Hnd as [|? ? Hna Hnd']; subst.
  destruct Hx as [-> | Hx], Hy as [-> | Hy]; auto.
  - exfalso. apply Hna. rewrite Hk. apply in_map, Hy.
  - exfalso. apply Hna. rewrite <- Hk. apply in_map, Hx.
Qed.



Lemma filter_all (f : row -> bool) (l : list row) :
  (forall x, In x l -> f x = true) -> filter f l = l.
Proof.
  induction l as [|x l IH]; cbn; intros H; auto.
  rewrite (H x (or_introl eq_refl)). f_equal. apply IH.
  intros y Hy. apply H. right. exact Hy.
Qed.

Lemma filter_comm (f g : row -> bool) (l : list row) :
  filter f (filter g l) = filter g (filter f l).
Proof.
  induction l as [|x l IH]; cbn; auto.
  destruct (f x) eqn:Ef, (g x) eqn:Eg; cbn; rewrite ?Ef, ?Eg, IH; auto.
Qed.

Lemma NoDup_keys_filter (f : row -> bool) (l : list row) :
  NoDup (map key l) -> NoDup (map key (filter f l)).
Proof.
  induction l as [|x l IH]; cbn; intros H; auto.
  inversion H as [|? ? Hn Hnd]; subst.
  destruct (f x); cbn; auto. constructor; auto.
  intros Hin. apply Hn. apply in_map_iff in Hin.
  destruct Hin as (y & Hy & Hin). apply filter_In in Hin.
  rewrite <- Hy. apply in_map. tauto.
Qed.

Lemma NoDup_keys_app_fresh (c : Z) (r : row) (l : list row) :
  NoDup (map key l) -> Forall (fun x => key x < c) l -> key r = c ->
  NoDup (map key (l ++ [r])).
Proof.
  intros Hnd Hf Hr. rewrite map_app. cbn.
  apply NoDup_app; auto.
  - constructor; [intros []|constructor].
  - intros k Hk [<- | []]. apply in_map_iff in Hk.
    destruct Hk as (x & Hx & Hin). rewrite Forall_forall in Hf.
    specialize (Hf x Hin). lia.
Qed.


End KeyedRows.

Lemma Qsum_app (l : list Q) (x : Q) : (Qsum (l ++ [x]) == Qsum l + x)%Q.
Proof.
  induction l as [|y l IH]; cbn; [ring|]. rewrite IH. ring.
Qed.




Lemma Forall_filter_keep (A : Type) (P : A -> Prop) (f : A -> bool)
      (l : list A) :
  Forall P l -> Forall P (filter f l).
Proof.
  induction 1 as [|x l Hx Hl IH]; cbn; auto. destruct (f x); auto.
Qed.









(* ------------------------------------------------------------------ *)
(** ** The database on a working connection *)






(* ------------------------------------------------------------------ *)
(** ** One operation of the ledger *)









(** The scenario of the specification, step by step. *)
Example scenario_balances :
  map (fun n => balance_of 1 (run (map request_of (firstn n example_ops))
                                  example_products))
      [1%nat; 2%nat; 3%nat]
  = [Some (Inventory.mk 1 (Int 1) (Fin 10) "kg" (Fin 100) 1000 (Some 1));
     Some (Inventory.mk 1 (Int 1) (Fin (10 + 5)) "kg" (Fin (100 + 40)) 2000
                        (Some 1));
     Some (Inventory.mk 1 (Int 1) (Fin (10 + 5 - 5)) "kg"
                        (Fin (100 + 40 - 40)) 3000 (Some 1))].
Proof. reflexivity. Qed.

(* ================================================================== *)
(** * The summary tab *)
(* ================================================================== *)

Module ReportingFacts.
Import Reporting.

Lemma filter_none (A : Type) (f : A -> bool) (l : list A) :
  (forall x, In x l -> f x = false) -> filter f l = [].
Proof.
  induction l as [|x l IH]; cbn; intros H; auto.
  rewrite (H x (or_introl eq_refl)). apply IH.
  intros y Hy. apply H. right. exact Hy.
Qed.

Lemma field_or0_value (x : option Q) :
  exists q, field_or0 x = Fin q /\ (q == or0 x)%Q.
Proof.
  destruct x as [q|]; cbn.
  - unfold num_or0. cbn. destruct (Qzero_b q) eqn:E; cbn.
    + exists 0%Q. split; auto. apply Qzero_b_spec in E. symmetry. exact E.
    + exists q. split; auto. reflexivity.
  - exists 0%Q. split; auto. reflexivity.
Qed.

Lemma own_In (key : string) (acc : Acc) :
  own key acc = true <-> In key (map fst acc).
Proof.
  unfold own. rewrite existsb_exists, in_map_iff. split.
  - intros (e & Hin & He). apply String.eqb_eq in He. eauto.
  - intros (e & He & Hin). exists e. split; auto. apply String.eqb_eq, He.
Qed.

Lemma items_named_snoc (k : string) (seen : list Item) (item : Item) :
  items_named k (seen ++ [item])
  = items_named k seen
    ++ (if (product_name item =? k)%string then [item] else []).
Proof.
  unfold items_named. rewrite filter_app. cbn.
  destruct (product_name item =? k)%string; reflexivity.
Qed.

Lemma summed_quantity_snoc (k : string) (seen : list Item) (item : Item) :
  (summed_quantity k (seen ++ [item])
   == summed_quantity k seen
      + (if (product_name item =? k)%string
         then Qabs (or0 (quantity_change item)) else 0))%Q.
Proof.
  unfold summed_quantity. rewrite items_named_snoc.
  destruct (product_name item =? k)%string.
  - rewrite map_app. cbn [map]. apply Qsum_app.
  - rewrite app_nil_r. ring.
Qed.

Lemma summed_price_snoc (k : string) (seen : list Item) (item : Item) :
  (summed_price k (seen ++ [item])
   == summed_price k seen
      + (if (product_name item =? k)%string
         then or0 (total_price item) else 0))%Q.
Proof.
  unfold summed_price. rewrite items_named_snoc.
  destruct (product_name item =? k)%string.
  - rewrite map_app. cbn [map]. apply Qsum_app.
  - rewrite app_nil_r. ring.
Qed.


(** One step of the reduce. *)
Lemma reducer_sums (seen : list Item) (acc : Acc) (item : Item) :
  acc_sums seen acc -> acc_sums (seen ++ [item]) (reducer acc item).
Proof.
  intros (Hnd & Hown & Hg). unfold reducer.
  destruct (inherited (product_name item)) eqn:Hinh.
  - (* an inherited key: nothing is added to [acc] *)
    split; [exact Hnd|]. split.
    + intros i Hi Hni. apply in_app_or in Hi.
      destruct Hi as [Hi | [<- | []]]; auto. congruence.
    + eapply Forall_impl; [|exact Hg].
      intros e (Hname & Hne & q & t & Hq & Ht & Hsq & Hsp).
      assert (Hk : (product_name item =? fst e)%string = false).
      { apply String.eqb_neq. intros E. rewrite E in Hinh. congruence. }
      split; auto. split; auto. exists q, t. repeat split; auto.
      * rewrite summed_quantity_snoc, Hk, Hsq. ring.
      * rewrite summed_price_snoc, Hk, Hsp. ring.
  - set (key := product_name item) in *.
    set (g0 := mkGroup key (Fin 0) (unit item) (Fin 0)).
    set (acc1 := if negb (own key acc) then acc ++ [(key, g0)] else acc).
    set (upd := fun e : string * Group =>
                  if (fst e =? key)%string
                  then (fst e,
                        mkGroup (name (snd e))
                                (num_add (quantity (snd e))
                                         (num_abs (field_or0
                                                     (quantity_change item))))
                                (group_unit (snd e))
                                (num_add (group_total_price (snd e))
                                         (field_or0 (total_price item))))
                  else e).
    assert (Hkeys : map fst (map upd acc1) = map fst acc1).
    { rewrite map_map. apply map_ext. intros e. unfold upd.
      destruct (fst e =? key)%string; reflexivity. }
    assert (Hempty : own key acc = false -> items_named key seen = []).
    { intros Ho. unfold items_named. apply filter_none. intros i Hi.
      destruct (product_name i =? key)%string eqn:E; auto.
      exfalso. apply String.eqb_eq in E.
      assert (Hoi : own (product_name i) acc = true).
      { apply Hown; [exact Hi|]. rewrite E. exact Hinh. }
      rewrite E in Hoi. congruence. }
    assert (H1 : NoDup (map fst acc1) /\ own key acc1 = true /\
                 (forall k, own k acc = true -> own k acc1 = true) /\
                 Forall (group_sums seen) acc1).
    { subst acc1. destruct (own key acc) eqn:Ho; cbn [negb].
      - repeat split; auto.
      - repeat split.
        + rewrite map_app. cbn. apply NoDup_app; auto.
          * constructor; [intros []|constructor].
          * intros k Hk [<- | []].
            apply own_In in Hk. rewrite Hk in Ho. discriminate.
        + apply own_In. rewrite map_app. apply in_or_app. right. left.
          reflexivity.
        + intros k Hk. apply own_In. rewrite map_app. apply in_or_app.
          left. apply own_In, Hk.
        + apply Forall_app. split; auto. constructor; [|constructor].
          split; [reflexivity|]. split; [exact Hinh|].
          exists 0%Q, 0%Q. cbn. unfold summed_quantity, summed_price.
          rewrite (Hempty eq_refl). cbn. repeat split; reflexivity. }
    destruct H1 as (Hnd1 & Hkey1 & Hown1 & Hg1).
    fold upd. split; [rewrite Hkeys; exact Hnd1|]. split.
    + intros i Hi Hni. apply own_In. rewrite Hkeys. apply own_In.
      apply in_app_or in Hi. destruct Hi as [Hi | [<- | []]]; auto.
    + apply Forall_map. eapply Forall_impl; [|exact Hg1].
      intros e (Hname & Hne & q & t & Hq & Ht & Hsq & Hsp).
      destruct (field_or0_value (quantity_change item)) as (dq & Hdq & Edq).
      destruct (field_or0_value (total_price item)) as (dt & Hdt & Edt).
      unfold upd. destruct (fst e =? key)%string eqn:E.
      * apply String.eqb_eq in E.
        split; [exact Hname|]. split; [exact Hne|].
        exists (q + Qabs dq)%Q, (t + dt)%Q. cbn [fst snd quantity
          group_total_price]. rewrite Hq, Ht, Hdq, Hdt. cbn.
        assert (Hk : (product_name item =? fst e)%string = true)
          by (apply String.eqb_eq; symmetry; exact E).
        repeat split.
        -- rewrite summed_quantity_snoc, Hk, Hsq, Edq. reflexivity.
        -- rewrite summed_price_snoc, Hk, Hsp, Edt. reflexivity.
      * assert (Hk : (product_name item =? fst e)%string = false).
        { fold key. rewrite String.eqb_sym. exact E. }
        split; auto. split; auto. exists q, t. repeat split; auto.
        -- rewrite summed_quantity_snoc, Hk, Hsq. ring.
        -- rewrite summed_price_snoc, Hk, Hsp. ring.
Qed.

Lemma groups_sums (report : list Item) : acc_sums report (groups report).
Proof.
  unfold groups.
  assert (G : forall rest seen acc,
             acc_sums seen acc ->
             acc_sums (seen ++ rest) (fold_left reducer rest acc)).
  { induction rest as [|item rest IH]; intros seen acc Hacc; cbn.
    - rewrite app_nil_r. exact Hacc.
    - replace (seen ++ item :: rest) with ((seen ++ [item]) ++ rest)
        by (rewrite <- app_assoc; reflexivity).
      apply IH, reducer_sums, Hacc. }
  apply (G report [] []). repeat split; [constructor | intros i [] | constructor].
Qed.

(** Every product name that is not an inherited key has its row. *)
Lemma summary_has_each_product (report : list Item) (i : Item) :
  In i report -> inherited (product_name i) = false ->
  exists g r, In (g, r) (summary_rows report) /\ row_key r = product_name i.
Proof.
  intros Hin Hni. destruct (groups_sums report) as (_ & Hown & _).
  specialize (Hown i Hin Hni). unfold own in Hown.
  apply existsb_exists in Hown. destruct Hown as (e & He & Hk).
  apply String.eqb_eq in Hk.
  eexists. eexists. split.
  - unfold summary_rows. apply in_map_iff. exists e. split; [reflexivity|exact He].
  - cbn. exact Hk.
Qed.


Example summary_of_example_report :
  summary_rows example_report
  = [(example_group_un,
      mkRow "Un" "Un" (ToFixed2 (Fin (0 + 10 + 5))) "kg"
            (ToFixed2 (Fin ((0 + 100 + 40) / (0 + 10 + 5))))
            (ToFixed2 (Fin (0 + 100 + 40))));
     (example_group_tuz,
      mkRow "Tuz" "Tuz" (ToFixed2 (Fin (0 + 0))) "kg"
            (Text "0.00")
            (ToFixed2 (Fin (0 + 7))))].
Proof. reflexivity. Qed.


End ReportingFacts.

(* ================================================================== *)
(** * Who may change the store *)
(* ================================================================== *)

Section Capabilities.
Context {S : Type} `{IStorage S}.

(** Every route but start-up sits behind the session middleware, answers
    401 to a request without a user and 403 to a user without the
    capability, and has touched nothing by then. *)
Lemma handle_guarded (r : Request) (capability : User.t -> bool) :
  required r = Some capability ->
  exists route : option User.t -> S -> Response * S,
    handle r = with_session (session_of r) route /\
    (forall s, status (fst (route None s)) = 401 /\ snd (route None s) = s) /\
    (forall u s, capability u = false ->
                 status (fst (route (Some u) s)) = 403 /\
                 snd (route (Some u) s) = s).
Proof.
  destruct r; cbn [required session_of handle]; intros E;
    [discriminate| | | | | | |]; injection E as <-;
    eexists; (split; [reflexivity|]); split;
    try (intros s; split; reflexivity); intros u s Hc.
  - unfold post_register, catching. rewrite Hc. split; reflexivity.
  - apply orb_false_iff in Hc. destruct Hc as [H1 H2].
    unfold post_products, catching. rewrite H1, H2. split; reflexivity.
  - apply orb_false_iff in Hc. destruct Hc as [H1 H2].
    unfold delete_products, catching. rewrite H1, H2. split; reflexivity.
  - apply orb_false_iff in Hc. destruct Hc as [H1 H2].
    unfold post_inventory_movements, catching. rewrite H1, H2.
    split; reflexivity.
  - apply orb_false_iff in Hc. destruct Hc as [H1 H2].
    unfold delete_inventory_movements, catching. rewrite H1, H2.
    split; reflexivity.
  - unfold post_users, catching. rewrite Hc. split; reflexivity.
  - unfold delete_users, catching. rewrite Hc. split; reflexivity.
Qed.

End Capabilities.

Lemma db_with_session_user
      (id : Z) (route : option User.t -> Db -> Response * Db) (db : Db) :
  exists db1,
    tables db1 = tables db /\
    (with_session (Some id) route db = (sendStatus 500, db1) \/
     exists u,
       MemStorage.getUser (Int id) (tables db) = Some u /\
       with_session (Some id) route db = route (Some u) db1).
Proof.
  unfold with_session, deserializeUser, bind. cbn [getUser Database].
  unfold DatabaseStorage.getUser.
  destruct (statement _ db) as [[ou|] db1] eqn:E; exists db1.
  - apply statement_Ok in E. unfold DatabaseStorage.select_user in E.
    injection E as Hou Ht. split; [auto|].
    destruct ou as [u|]; cbn; [right|left; reflexivity].
    exists u. split; [|reflexivity]. exact Hou.
  - apply statement_inv in E. destruct E as [[_ Ht] | E]; [auto|].
    unfold DatabaseStorage.select_user in E. discriminate.
Qed.

(** X1.  A request that is not authorised - it carries no session, or the
    user of its session is not in the store or lacks the capability of the
    route - is never answered with success and leaves the store as it was,
    on the in-memory store and on the database whatever the connection
    does. *)
Theorem unauthorised_request_is_refused :
  (forall (r : Request) (st : Store),
      authorised r st = false ->
      success (fst (handle r st)) = false /\ snd (handle r st) = st)
  /\
  (forall (r : Request) (db : Db),
      authorised r (tables db) = false ->
      success (fst (handle r db)) = false /\
      tables (snd (handle r db)) = tables db).
Proof.
  split.
  - intros r st Hno. unfold authorised in Hno.
    destruct (required r) as [capability|] eqn:Hreq; [|discriminate].
    destruct (handle_guarded (S := Store) r Hreq) as (route & -> & Hnone & Hsome).
    destruct (session_of r) as [id|].
    + unfold with_session, deserializeUser, bind. cbn [getUser Mem pure_read].
      destruct (MemStorage.getUser (Int id) st) as [u|]; cbn.
      * destruct (Hsome u st Hno) as [Hs Ht]. unfold success.
        rewrite Hs. auto.
      * auto.
    + cbn. destruct (Hnone st) as [Hs Ht]. unfold success. rewrite Hs. auto.
  - intros r db Hno. unfold authorised in Hno.
    destruct (required r) as [capability|] eqn:Hreq; [|discriminate].
    destruct (handle_guarded (S := Db) r Hreq) as (route & -> & Hnone & Hsome).
    destruct (session_of r) as [id|].
    + destruct (db_with_session_user id route db)
        as (db1 & Ht & [-> | (u & Hu & ->)]); [auto|].
      rewrite Hu in Hno. destruct (Hsome u db1 Hno) as [Hs Ht1].
      unfold success. rewrite Hs, Ht1. auto.
    + cbn. destruct (Hnone db) as [Hs Ht]. unfold success.
      rewrite Hs, Ht. auto.
Qed.

Lemma unauthorised_request_is_refused_witness :
  (success (fst (handle (PostProducts (Some 2) "Tuz" None) example_clerk))
   = false /\
   snd (handle (PostProducts (Some 2) "Tuz" None) example_clerk)
   = example_clerk)
  /\
  (success (fst (handle (DeleteUsers None "1") (healthy example_clerk)))
   = false /\
   tables (snd (handle (DeleteUsers None "1") (healthy example_clerk)))
   = tables (healthy example_clerk)).
Proof.
  destruct unauthorised_request_is_refused as [A B].
  split.
  - apply (A (PostProducts (Some 2) "Tuz" None) example_clerk). reflexivity.
  - apply (B (DeleteUsers None "1") (healthy example_clerk)). reflexivity.
Defined.

(* ================================================================== *)
(** * The pages of the client *)
(* ================================================================== *)

(** X2.  The page that the home page opens first is one of the four pages
    it can render, and it is an entry of the user's side menu exactly when
    the user holds some permission: a user without any permission lands on
    the stock page, which the menu does not offer. *)
Theorem default_page_is_on_the_menu (u : User.t) :
  HomePage.renderActivePage (HomePage.defaultPage (Some u)) = true /\
  (In (HomePage.defaultPage (Some u))
      (map Sidebar.id (Sidebar.filteredMenuItems (Some u)))
   <-> any_permission u = true).
Proof.
  destruct u as [id n pw a p r m]. unfold any_permission. cbn.
  destruct a, p, r, m; cbn; split; try reflexivity;
    split; intros H; try reflexivity; try discriminate; try tauto.
Qed.

Module ProductPageFacts.
Import ProductDefinition.

Lemma own_keys (key : string) (acc : Groups) :
  own key acc = true <-> In key (map fst acc).
Proof.
  unfold own. rewrite existsb_exists, in_map_iff. split.
  - intros (e & Hin & He). apply String.eqb_eq in He. eauto.
  - intros (e & He & Hin). exists e. split; auto. apply String.eqb_eq, He.
Qed.

Lemma add_keys (key : string) (product : Product.t) (acc : Groups) :
  map fst (map (fun e : string * list Product.t =>
                  if (fst e =? key)%string
                  then (fst e, snd e ++ [product])
                  else e) acc)
  = map fst acc.
Proof.
  rewrite map_map. apply map_ext. intros e.
  destruct (fst e =? key)%string; reflexivity.
Qed.

Lemma filter_snoc (k : string) (seen : list Product.t) (p : Product.t) :
  filter (fun p => (Product.category p =? k)%string) (seen ++ [p])
  = filter (fun p => (Product.category p =? k)%string) seen
    ++ (if (Product.category p =? k)%string then [p] else []).
Proof. rewrite filter_app. reflexivity. Qed.

(** One step of the loop. *)
Lemma add_grouped (seen : list Product.t) (acc : Groups) (p : Product.t) :
  Reporting.inherited (Product.category p) = false ->
  grouped seen acc ->
  exists acc', add acc p = Ok acc' /\ grouped (seen ++ [p]) acc'.
Proof.
  intros Hinh (Hnd & Hall & Hgroups). unfold add. rewrite Hinh.
  set (key := Product.category p).
  match goal with |- context [map _ ?a] => set (acc1 := a) end.
  eexists. split; [reflexivity|].
  assert (H1 : NoDup (map fst acc1) /\ In key (map fst acc1) /\
               (forall k, In k (map fst acc) -> In k (map fst acc1)) /\
               (forall k ps, In (k, ps) acc1 ->
                             ps = filter (fun p => (Product.category p =? k)%string)
                                         seen /\
                             (ps = [] -> k = key))).
  { subst acc1. destruct (own key acc) eqn:Ho; cbn [negb].
    - repeat split; auto.
      + apply own_keys, Ho.
      + apply Hgroups in H. tauto.
      + apply Hgroups in H. intros E. tauto.
    - assert (Hnk : ~ In key (map fst acc)).
      { intros Hk. apply own_keys in Hk. congruence. }
      repeat split.
      + rewrite map_app. cbn. apply NoDup_app; auto.
        * constructor; [intros []|constructor].
        * intros k Hk [<- | []]. auto.
      + rewrite map_app. apply in_or_app. right. left. reflexivity.
      + intros k Hk. rewrite map_app. apply in_or_app. auto.
      + apply in_app_or in H. destruct H as [H | [H | []]].
        * apply Hgroups in H. tauto.
        * injection H as <- <-. symmetry. apply ReportingFacts.filter_none.
          intros x Hx. apply String.eqb_neq. intros E. apply Hnk.
          rewrite <- E. apply Hall, Hx.
      + apply in_app_or in H. destruct H as [H | [H | []]].
        * apply Hgroups in H. intros E. tauto.
        * injection H as <- <-. reflexivity. }
  destruct H1 as (Hnd1 & Hkey1 & Hmono & Hg1).
  split; [|split].
  - rewrite add_keys. exact Hnd1.
  - intros x Hx. rewrite add_keys. apply in_app_or in Hx.
    destruct Hx as [Hx | [<- | []]]; auto.
  - intros k ps Hin. apply in_map_iff in Hin.
    destruct Hin as ([k0 ps0] & He & Hin). cbn [fst snd] in He.
    destruct (Hg1 k0 ps0 Hin) as [Hps0 Hempty].
    rewrite filter_snoc. fold key.
    destruct (k0 =? key)%string eqn:Ek.
    + injection He as <- <-. apply String.eqb_eq in Ek. subst k0.
      rewrite String.eqb_refl. split.
      * intros E. apply app_eq_nil in E. destruct E as [_ E]. discriminate.
      * rewrite <- Hps0. reflexivity.
    + injection He as <- <-.
      rewrite String.eqb_sym, Ek, app_nil_r. split; auto.
      intros E. apply Hempty in E. subst k0.
      rewrite String.eqb_refl in Ek. discriminate.
Qed.

Lemma forEach_grouped (rest seen : list Product.t) (acc : Groups) :
  Forall (fun p => Reporting.inherited (Product.category p) = false) rest ->
  grouped seen acc ->
  exists groups, forEach rest acc = Ok groups /\ grouped (seen ++ rest) groups.
Proof.
  revert seen acc. induction rest as [|p rest IH]; intros seen acc Hrest Hg.
  - exists acc. rewrite app_nil_r. auto.
  - inversion Hrest as [|? ? Hp Hrest']; subst.
    destruct (@add_grouped seen acc p Hp Hg) as (acc' & Ha & Hg').
    destruct (IH (seen ++ [p]) acc' Hrest' Hg') as (groups & Hf & Hgr).
    exists groups. cbn. rewrite Ha. split; [exact Hf|].
    rewrite <- app_assoc in Hgr. exact Hgr.
Qed.

Lemma forEach_throws (rest : list Product.t) (acc : Groups) :
  Exists (fun p => Reporting.inherited (Product.category p) = true) rest ->
  forEach rest acc = Throw.
Proof.
  intros Hex. revert acc. induction Hex as [p rest Hp | p rest Hex IH];
    intros acc; cbn.
  - unfold add. rewrite Hp. reflexivity.
  - destruct (add acc p); auto.
Qed.

(** X3.  The product page lists every product exactly where it belongs:
    when no category is the name of a property that every object inherits,
    the grouping has one group per category in use, and a group holds the
    products of its category, all of them and in their order.  When some
    product has such a category (constructor, toString, ...) the grouping
    throws. *)
Theorem products_are_grouped_by_category (products : list Product.t) :
  (Forall (fun p => Reporting.inherited (Product.category p) = false)
          products ->
   exists groups,
     productsByCategory products = Ok groups /\ grouped products groups)
  /\
  (Exists (fun p => Reporting.inherited (Product.category p) = true)
          products ->
   productsByCategory products = Throw).
Proof.
  split.
  - intros Hall. apply (@forEach_grouped products [] []); auto.
    split; [constructor|]. split; [intros p []|intros k ps []].
  - apply forEach_throws.
Qed.

Lemma products_are_grouped_by_category_witness :
  (exists groups,
      productsByCategory example_catalogue = Ok groups /\
      grouped example_catalogue groups)
  /\
  productsByCategory [Product.mk 1 "Un" "constructor"] = Throw.
Proof.
  split.
  - apply (proj1 (products_are_grouped_by_category example_catalogue)).
    repeat constructor.
  - apply (proj2 (products_are_grouped_by_category
                    [Product.mk 1 "Un" "constructor"])).
    constructor. reflexivity.
Defined.

End ProductPageFacts.

Module ReportingCardFacts.
Import Reporting ReportingCards.











(** A product named like an inherited property is counted by the cards and
    has no row in the table. *)
Example cards_count_what_the_table_omits :
  totalQuantity example_report = Fin (0 + 10 + 0 + 5 + 1) /\
  column_quantity example_report = (0 + 10 + 5 + (0 + 0 + 0))%Q.
Proof. split; reflexivity. Qed.

End ReportingCardFacts.

(* ================================================================== *)
(** * Deleting users *)
(* ================================================================== *)

Lemma rows_get_unique (row : Type) (key : row -> Z) (l : list row) (r : row) :
  NoDup (map key l) -> In r l -> rows_get key (Int (key r)) l = Some r.
Proof.
  unfold rows_get. induction l as [|a l IH]; cbn; intros Hnd Hin;
    [contradiction|].
  rewrite has_key_Int. destruct (key a =? key r) eqn:E.
  - apply Z.eqb_eq in E. f_equal.
    apply (@NoDup_key_unique _ key (a :: l)); cbn; auto.
  - inversion Hnd; subst. destruct Hin as [-> | Hin].
    + rewrite Z.eqb_refl in E. discriminate.
    + apply IH; auto.
Qed.

Lemma count_admins_member (l : list User.t) (u : User.t) :
  In u l -> User.is_admin u = true -> (1 <= count_admins l)%nat.
Proof.
  intros Hin Hu. unfold count_admins.
  assert (H : In u (filter User.is_admin l)) by (apply filter_In; auto).
  destruct (filter User.is_admin l); [contradiction|cbn; lia].
Qed.

(** X5.  The user page disables the delete button of a row exactly when
    the server would refuse the deletion.  With the in-memory store, where
    the store holds the listed users under distinct ids and the requester
    is an administrator, the button of a listed user is enabled if and
    only if DELETE /api/users/:id for that user is answered 200; with the
    database, whatever the connection does, a disabled button stands for a
    request that is not answered 200 and deletes nothing. *)
Theorem delete_button_matches_the_server
        (me u : User.t) (id_param : string) (st : Store) :
  NoDup (map User.id (users st)) ->
  User.is_admin me = true ->
  In u (users st) ->
  parseInt_string id_param = Int (User.id u) ->
  (UserManagement.deleteDisabled (Some me) (users st) u = false <->
   status (fst (delete_users (Some me) id_param st)) = 200)
  /\
  (forall fs : list bool,
      UserManagement.deleteDisabled (Some me) (users st) u = true ->
      status (fst (delete_users (Some me) id_param (mkDb st fs))) <> 200 /\
      tables (snd (delete_users (Some me) id_param (mkDb st fs))) = st).
Proof.
  intros Hnd Ha Hin Hid. split.
  - unfold delete_users, catching, UserManagement.deleteDisabled.
    rewrite Ha, Hid. cbn [negb int_eqb].
    destruct (User.id u =? User.id me); [cbn; split; discriminate|].
    unfold bind. cbn [getAllUsers getUser deleteUser Mem pure_read pure_op].
    unfold MemStorage.getAllUsers, MemStorage.getUser.
    rewrite (rows_get_unique User.id _ _ Hnd Hin). cbn [orb fst snd].
    destruct (User.is_admin u && _); [cbn; split; discriminate|].
    unfold MemStorage.deleteUser. cbn [fst snd].
    rewrite (rows_get_has User.id _ _ (rows_get_unique User.id _ _ Hnd Hin)).
    cbn. split; reflexivity.
  - intros fs Hdis. unfold UserManagement.deleteDisabled in Hdis.
    apply orb_true_iff in Hdis. destruct Hdis as [Hself | Hlast].
    + apply Z.eqb_eq in Hself. rewrite Hself in Hid.
      rewrite (@delete_users_self Db Database me id_param (mkDb st fs) Ha Hid).
      split; [discriminate|reflexivity].
    + apply andb_true_iff in Hlast. destruct Hlast as [Hu Hle].
      apply Nat.leb_le in Hle.
      apply (@db_delete_users_last_admin me u id_param (mkDb st fs)); auto.
      * cbn [tables]. rewrite Hid. apply rows_get_unique; auto.
      * pose proof (count_admins_member _ _ Hin Hu). cbn [tables].
        unfold count_admins in *. lia.
Qed.

Lemma delete_button_matches_the_server_witness :
  (UserManagement.deleteDisabled
     (Some example_admin) (users example_two_admins) example_second_admin
   = false <->
   status (fst (delete_users (Some example_admin) "2" example_two_admins))
   = 200)
  /\
  (forall fs : list bool,
      UserManagement.deleteDisabled
        (Some example_admin) (users example_two_admins) example_second_admin
      = true ->
      status (fst (delete_users (Some example_admin) "2"
                                (mkDb example_two_admins fs))) <> 200 /\
      tables (snd (delete_users (Some example_admin) "2"
                                (mkDb example_two_admins fs)))
      = example_two_admins).
Proof.
  apply (@delete_button_matches_the_server
           example_admin example_second_admin "2" example_two_admins).
  - constructor; [cbn; intros [E | []]; discriminate|].
    constructor; [intros []|constructor].
  - reflexivity.
  - right. left. reflexivity.
  - reflexivity.
Defined.

Lemma rows_get_none_has (row : Type) (key : row -> Z) (k : integer)
      (l : list row) :
  rows_get key k l = None -> rows_has key k l = false.
Proof.
  unfold rows_get, rows_has. intros H.
  destruct (existsb _ l) eqn:E; auto.
  apply existsb_exists in E. destruct E as (r & Hin & Hr).
  apply (find_none _ _ H) in Hin. congruence.
Qed.






(* ================================================================== *)
(** * Products *)
(* ================================================================== *)

Section SetAndGet.
Variable row : Type.
Variable key : row -> Z.

Lemma rows_has_none_get (k : integer) (l : list row) :
  rows_has key k l = false -> rows_get key k l = None.
Proof.
  unfold rows_has, rows_get. intros H.
  destruct (find (has_key key k) l) as [r|] eqn:E; auto.
  apply find_some in E. destruct E as [Hin Hr].
  assert (Ht : existsb (has_key key k) l = true)
    by (apply existsb_exists; eauto).
  congruence.
Qed.

(** What was set is what is found, by any test that the row passes and no
    earlier row passed. *)
Lemma find_rows_set (P : row -> bool) (r : row) (l : list row) :
  find P l = None -> P r = true -> find P (rows_set key r l) = Some r.
Proof.
  intros Hnone Hr. unfold rows_set.
  destruct (rows_has key (Int (key r)) l) eqn:E.
  - unfold rows_has in E. induction l as [|x l IH]; cbn in *; [discriminate|].
    destruct (P x) eqn:Px; [discriminate|].
    destruct (has_key key (Int (key r)) x); cbn in *.
    + rewrite Hr. reflexivity.
    + rewrite Px. auto.
  - apply find_app_none; auto.
Qed.

Lemma rows_get_set (r : row) (l : list row) :
  rows_get key (Int (key r)) (rows_set key r l) = Some r.
Proof.
  unfold rows_get, rows_set.
  destruct (rows_has key (Int (key r)) l) eqn:E.
  - unfold rows_has in E. induction l as [|x l IH]; cbn in *; [discriminate|].
    destruct (has_key key (Int (key r)) x) eqn:Hx; cbn in *.
    + rewrite has_key_Int, Z.eqb_refl. reflexivity.
    + rewrite Hx. auto.
  - apply find_app_none.
    + apply rows_has_none_get in E. exact E.
    + rewrite has_key_Int. apply Z.eqb_refl.
Qed.

Lemma filter_filter (f g : row -> bool) (l : list row) :
  filter f (filter g l) = filter (fun x => g x && f x) l.
Proof.
  induction l as [|x l IH]; cbn; auto.
  destruct (g x); cbn; [destruct (f x)|]; rewrite IH; reflexivity.
Qed.

(** The loop [for (const item of items) map.delete(item.id)]. *)
Lemma fold_rows_delete (items l : list row) :
  fold_left (fun rows item => rows_delete key (Int (key item)) rows) items l
  = filter (fun r => negb (existsb (fun item => key r =? key item) items)) l.
Proof.
  revert l. induction items as [|item items IH]; intros l; cbn.
  - symmetry. apply filter_all. auto.
  - rewrite IH. unfold rows_delete. rewrite filter_filter.
    apply filter_ext. intros r. rewrite has_key_Int, negb_orb. reflexivity.
Qed.


End SetAndGet.

Lemma category_eqb_refl (p : Product.t) :
  (Product.category p =? Product.category p)%string = true.
Proof. apply String.eqb_refl. Qed.

(** X7.  A product that POST /api/products has answered 201 for can be
    looked up: the answer carries the name that was sent and the category
    that was sent, or GENEL for a missing or empty one, and in the store
    that the request leaves, the lookups by id and by name return this
    product and the listing of its category contains it - in the in-memory
    store, and in the database on a working connection. *)
Theorem posted_product_is_found
        (u : User.t) (name : string) (category : option string) :
  (forall (st st' : Store) (p : Product.t),
      post_products (Some u) name category st
      = (json 201 (ProductJson p), st') ->
      Product.name p = name /\
      Product.category p = or_genel category /\
      MemStorage.getProduct (Int (Product.id p)) st' = Some p /\
      MemStorage.getProductByName name st' = Some p /\
      In p (MemStorage.getProductsByCategory (or_genel category) st'))
  /\
  (forall (t : Store) (db' : Db) (p : Product.t),
      post_products (Some u) name category (healthy t)
      = (json 201 (ProductJson p), db') ->
      Product.name p = name /\
      Product.category p = or_genel category /\
      DatabaseStorage.getProduct (Int (Product.id p)) db'
      = (Ok (Some p), db') /\
      DatabaseStorage.getProductByName name db' = (Ok (Some p), db') /\
      exists l,
        DatabaseStorage.getProductsByCategory (or_genel category) db'
        = (Ok l, db') /\
        In p l).
Proof.
  split.
  - intros st st' p. unfold post_products, catching.
    destruct (negb _ && negb _); [discriminate|].
    unfold bind. cbn [getProductByName createProduct Mem pure_read pure_op].
    destruct (MemStorage.getProductByName name st) eqn:Hname; cbn;
      [discriminate|].
    intros E. injection E as <- <-. cbn.
    unfold MemStorage.getProduct, MemStorage.getProductByName,
      MemStorage.getProductsByCategory. cbn.
    repeat split.
    + exact (rows_get_set
               Product.id
               (Product.mk (productIdCounter st) name (or_genel category))
               (products st)).
    + apply find_rows_set; [exact Hname|]. cbn. apply String.eqb_refl.
    + apply filter_In. split; [apply rows_set_In|].
      cbn. apply String.eqb_refl.
  - intros t db' p. unfold post_products, catching.
    destruct (negb _ && negb _); [discriminate|].
    unfold bind. cbn [getProductByName createProduct Database].
    unfold DatabaseStorage.getProductByName, DatabaseStorage.createProduct.
    rewrite statement_healthy. cbn [fst snd].
    destruct (find _ (products t)) eqn:Hname; [discriminate|].
    rewrite statement_healthy. unfold DatabaseStorage.insert_product.
    destruct (rows_has Product.id (Int (productIdCounter t)) (products t))
      eqn:Hid; cbn [orb]; [discriminate|].
    destruct (existsb _ (products t)); cbn [fst snd]; [discriminate|].
    intros E. injection E as <- <-.
    unfold DatabaseStorage.getProduct, DatabaseStorage.getProductsByCategory.
    rewrite !statement_healthy. cbn.
    repeat split.
    + do 2 f_equal. apply find_app_none.
      * apply (rows_has_none_get Product.id), Hid.
      * rewrite has_key_Int. apply Z.eqb_refl.
    + do 2 f_equal. apply find_app_none; [exact Hname|].
      cbn. apply String.eqb_refl.
    + eexists. split; [reflexivity|]. apply filter_In. split.
      * apply in_or_app. right. left. reflexivity.
      * cbn. apply String.eqb_refl.
Qed.

Lemma posted_product_is_found_witness :
  (Product.name (Product.mk 2 "Tuz" "GENEL") = "Tuz" /\
   Product.category (Product.mk 2 "Tuz" "GENEL") = or_genel (Some "") /\
   MemStorage.getProduct
     (Int (Product.id (Product.mk 2 "Tuz" "GENEL")))
     (snd (post_products (Some example_admin) "Tuz" (Some "")
                         example_products))
   = Some (Product.mk 2 "Tuz" "GENEL") /\
   MemStorage.getProductByName
     "Tuz"
     (snd (post_products (Some example_admin) "Tuz" (Some "")
                         example_products))
   = Some (Product.mk 2 "Tuz" "GENEL") /\
   In (Product.mk 2 "Tuz" "GENEL")
      (MemStorage.getProductsByCategory
         (or_genel (Some ""))
         (snd (post_products (Some example_admin) "Tuz" (Some "")
                             example_products)))).
Proof.
  apply (proj1 (posted_product_is_found example_admin "Tuz" (Some ""))
               example_products).
  reflexivity.
Defined.



(* ================================================================== *)
(** * Movements of products that do not exist *)
(* ================================================================== *)




(* ================================================================== *)
(** * The listings of movements *)
(* ================================================================== *)

Section NewestFirstFacts.
Variable A : Type.
Variable date : A -> Z.

Lemma insert_newest_first_perm (a : A) (l : list A) :
  Permutation (insert_newest_first date a l) (a :: l).
Proof.
  induction l as [|x l IH]; cbn; [reflexivity|].
  destruct (date x <=? date a); [reflexivity|].
  rewrite IH. apply perm_swap.
Qed.

Lemma sort_newest_first_perm (l : list A) :
  Permutation (sort_newest_first date l) l.
Proof.
  induction l as [|x l IH]; cbn; [reflexivity|].
  rewrite insert_newest_first_perm. constructor. exact IH.
Qed.

Lemma insert_newest_first_sorted (a : A) (l : list A) :
  newest_first date l -> newest_first date (insert_newest_first date a l).
Proof.
  unfold newest_first. induction 1 as [|x l Hl IH Hx]; cbn.
  - constructor; constructor.
  - destruct (date x <=? date a) eqn:E.
    + apply Z.leb_le in E. constructor; [constructor; auto|].
      constructor; auto. eapply Forall_impl; [|exact Hx].
      cbn. intros y Hy. lia.
    + apply Z.leb_gt in E. constructor; auto.
      eapply Permutation_Forall.
      * symmetry. apply insert_newest_first_perm.
      * constructor; [lia|exact Hx].
Qed.

Lemma sort_newest_first_sorted (l : list A) :
  newest_first date (sort_newest_first date l).
Proof.
  induction l as [|x l IH]; cbn.
  - constructor.
  - apply insert_newest_first_sorted, IH.
Qed.

Lemma filter_perm (f : A -> bool) (l l' : list A) :
  Permutation l l' -> Permutation (filter f l) (filter f l').
Proof.
  induction 1 as [|x l l' H IH|x y l|l l' l'' H1 IH1 H2 IH2]; cbn.
  - constructor.
  - destruct (f x); auto.
  - destruct (f x), (f y); auto using perm_swap, Permutation_refl.
  - etransitivity; eauto.
Qed.

(** In a sorted listing nothing of the tail is newer than anything that
    comes before it. *)
Lemma newest_first_app (l1 l2 : list A) (x y : A) :
  newest_first date (l1 ++ l2) -> In x l1 -> In y l2 -> date y <= date x.
Proof.
  unfold newest_first. induction l1 as [|a l1 IH]; cbn; intros H Hx Hy;
    [contradiction|].
  inversion H as [|? ? Hl Ha]; subst. destruct Hx as [-> | Hx]; auto.
  rewrite Forall_forall in Ha. apply Ha. apply in_or_app. auto.
Qed.

Lemma newest_first_prefix (l1 l2 : list A) :
  newest_first date (l1 ++ l2) -> newest_first date l1.
Proof.
  unfold newest_first. induction l1 as [|a l1 IH]; cbn; intros H;
    [constructor|].
  inversion H as [|? ? Hl Ha]; subst. constructor; auto.
  apply Forall_app in Ha. tauto.
Qed.

Lemma firstn_member (n : nat) (l : list A) (x : A) :
  In x (firstn n l) -> In x l.
Proof.
  intros H. rewrite <- (firstn_skipn n l). apply in_or_app. auto.
Qed.

Lemma firstn_length_le (n : nat) (l : list A) :
  (List.length (firstn n l) <= n)%nat.
Proof. rewrite length_firstn. lia. Qed.

End NewestFirstFacts.

Section KeyLookup.
Variable row : Type.
Variable key : row -> Z.

(** Under distinct keys, the rows of a key are the row found for it. *)
Lemma filter_key_unique (k : integer) (l : list row) :
  NoDup (map key l) ->
  filter (fun r => int_eqb k (Int (key r))) l
  = match rows_get key k l with
    | Some r => [r]
    | None => []
    end.
Proof.
  unfold rows_get. induction l as [|x l IH]; cbn; intros Hnd; auto.
  inversion Hnd as [|? ? Hn Hnd']; subst.
  unfold has_key at 1. rewrite (int_eqb_sym (Int (key x)) k).
  destruct (int_eqb k (Int (key x))) eqn:E.
  - f_equal. apply ReportingFacts.filter_none. intros y Hy.
    apply not_true_is_false. intros Ey.
    apply int_eqb_eq in E. apply int_eqb_eq in Ey.
    apply Hn. assert (key x = key y) by congruence.
    rewrite H. apply in_map, Hy.
  - apply IH, Hnd'.
Qed.

End KeyLookup.

Lemma with_details_movements (ms : list InventoryMovement.t) (st : Store) :
  map InventoryMovementWithDetails.movement
      (MemStorage.with_product_details ms st)
  = filter (has_product st) ms.
Proof.
  unfold MemStorage.with_product_details, has_product, MemStorage.getProduct.
  induction ms as [|m ms IH]; cbn; auto.
  destruct (rows_get Product.id (InventoryMovement.product_id m)
                     (products st)) as [p|] eqn:E.
  - rewrite (@rows_get_has _ Product.id _ _ _ E). cbn. f_equal. exact IH.
  - rewrite (@rows_get_none_has _ Product.id _ _ E). exact IH.
Qed.

Lemma with_details_labelled (ms : list InventoryMovement.t) (st : Store) :
  Forall (labelled st) (MemStorage.with_product_details ms st).
Proof.
  unfold MemStorage.with_product_details.
  induction ms as [|m ms IH]; cbn; [constructor|].
  destruct (MemStorage.getProduct (InventoryMovement.product_id m) st)
    as [p|] eqn:E; cbn; auto.
  constructor; auto. exists p. cbn. auto.
Qed.

Lemma with_details_In
      (ms : list InventoryMovement.t) (st : Store)
      (d : InventoryMovementWithDetails.t) :
  In d (MemStorage.with_product_details ms st) ->
  In (InventoryMovementWithDetails.movement d) ms.
Proof.
  intros H. apply (in_map InventoryMovementWithDetails.movement) in H.
  rewrite with_details_movements in H. apply filter_In in H. tauto.
Qed.

Lemma with_details_sorted (ms : list InventoryMovement.t) (st : Store) :
  newest_first InventoryMovement.movement_date ms ->
  newest_first InventoryMovementWithDetails.movement_date
               (MemStorage.with_product_details ms st).
Proof.
  unfold newest_first. induction 1 as [|m ms Hms IH Hm].
  - constructor.
  - change (MemStorage.with_product_details (m :: ms) st)
      with (match MemStorage.getProduct (InventoryMovement.product_id m) st
            with
            | Some product =>
                [InventoryMovementWithDetails.mk
                   m (Product.name product) (Product.category product)]
            | None => []
            end ++ MemStorage.with_product_details ms st).
    destruct (MemStorage.getProduct _ st) as [p|]; cbn; auto.
    constructor; auto. apply Forall_forall. intros d Hd.
    apply with_details_In in Hd. rewrite Forall_forall in Hm.
    apply (Hm _ Hd).
Qed.

(** The join of the database finds for each movement the product that the
    in-memory lookup finds. *)
Lemma join_products_details (ms : list InventoryMovement.t) (t : Store) :
  NoDup (map Product.id (products t)) ->
  DatabaseStorage.join_products ms t = MemStorage.with_product_details ms t.
Proof.
  intros Hnd.
  unfold DatabaseStorage.join_products, MemStorage.with_product_details,
    MemStorage.getProduct.
  apply flat_map_ext. intros m.
  rewrite (filter_key_unique Product.id _ _ Hnd).
  destruct (rows_get Product.id _ _); reflexivity.
Qed.

Lemma window_is_in_dates (s e : Z) (l : list InventoryMovement.t) :
  filter (fun m =>
            date_ge (InventoryMovement.movement_date m) (ValidDate s)
            && date_le (InventoryMovement.movement_date m) (ValidDate e)) l
  = filter (in_dates s e) l.
Proof. reflexivity. Qed.

(** X10.  The detailed movements report lists the window newest first: its
    rows are ordered by date, the newest first; each movement dated within
    the window, both ends included, whose product is in the store has
    exactly one row, and no other movement has one; and each row carries
    the name and category that the product has now.  This holds for the
    in-memory store, and for the database on a working connection (its
    product ids being distinct).  With a date that is not valid the
    in-memory store gives the empty report and the database throws. *)
Theorem detailed_report_lists_the_window (s e : Z) (st : Store) :
  detailed_report_of
    s e st
    (MemStorage.getDetailedMovementsReport (ValidDate s) (ValidDate e) st)
  /\
  (NoDup (map Product.id (products st)) ->
   exists report,
     DatabaseStorage.getDetailedMovementsReport
       (ValidDate s) (ValidDate e) (healthy st)
     = (Ok report, healthy st) /\
     detailed_report_of s e st report)
  /\
  MemStorage.getDetailedMovementsReport InvalidDate (ValidDate e) st = [] /\
  MemStorage.getDetailedMovementsReport (ValidDate s) InvalidDate st = [] /\
  fst (DatabaseStorage.getDetailedMovementsReport
         InvalidDate (ValidDate e) (healthy st)) = Throw /\
  fst (DatabaseStorage.getDetailedMovementsReport
         (ValidDate s) InvalidDate (healthy st)) = Throw.
Proof.
  split; [|split; [|split; [|split; [|split]]]].
  - unfold MemStorage.getDetailedMovementsReport.
    rewrite window_is_in_dates. split; [|split].
    + apply with_details_sorted, sort_newest_first_sorted.
    + rewrite with_details_movements.
      rewrite <- (filter_filter (has_product st) (in_dates s e)).
      apply filter_perm, sort_newest_first_perm.
    + apply with_details_labelled.
  - intros Hnd. unfold DatabaseStorage.getDetailedMovementsReport.
    rewrite statement_healthy.
    cbn [fst snd DatabaseStorage.select_detailed_movements].
    eexists. split; [reflexivity|].
    rewrite window_is_in_dates, (@join_products_details _ st Hnd).
    split; [|split].
    + apply sort_newest_first_sorted.
    + rewrite <- (filter_filter (has_product st) (in_dates s e)).
      rewrite <- with_details_movements.
      apply Permutation_map, sort_newest_first_perm.
    + eapply Permutation_Forall.
      * symmetry. apply sort_newest_first_perm.
      * apply with_details_labelled.
  - unfold MemStorage.getDetailedMovementsReport. cbn.
    rewrite ReportingFacts.filter_none; auto.
  - unfold MemStorage.getDetailedMovementsReport. cbn.
    rewrite ReportingFacts.filter_none; auto.
    intros x _. apply andb_false_r.
  - reflexivity.
  - reflexivity.
Qed.

Lemma detailed_report_lists_the_window_witness :
  exists report,
    DatabaseStorage.getDetailedMovementsReport
      (ValidDate 0) (ValidDate 1500) (healthy example_backdated)
    = (Ok report, healthy example_backdated) /\
    detailed_report_of 0 1500 example_backdated report.
Proof.
  apply (proj1 (proj2 (detailed_report_lists_the_window
                         0 1500 example_backdated))).
  constructor; [intros []|constructor].
Defined.

(** The third movement was recorded last and is the oldest: the report has
    it last, and leaves out the movement after the window. *)
Example detailed_report_of_example :
  map (fun d => InventoryMovement.id (InventoryMovementWithDetails.movement d))
      (MemStorage.getDetailedMovementsReport
         (ValidDate 0) (ValidDate 1500) example_backdated)
  = [1; 3].
Proof. reflexivity. Qed.

(** X11.  The latest movements, asked from the in-memory store with a
    limit that is not negative: the listing has at most [limit] rows,
    newest first, each the row of a stored movement with the name and
    category of its product; and whatever it leaves out is not newer than
    what it shows, except for movements whose product is not in the store -
    these are left out after they were counted against the limit.  A limit
    that is not a number gives the empty listing. *)
Theorem latest_movements_are_the_newest (limit : Z) (st : Store) :
  0 <= limit ->
  (List.length (MemStorage.getLatestInventoryMovements (Int limit) st)
   <= Z.to_nat limit)%nat /\
  newest_first InventoryMovementWithDetails.movement_date
               (MemStorage.getLatestInventoryMovements (Int limit) st) /\
  (forall d,
      In d (MemStorage.getLatestInventoryMovements (Int limit) st) ->
      In (InventoryMovementWithDetails.movement d) (inventoryMovements st) /\
      labelled st d) /\
  (forall d m,
      In d (MemStorage.getLatestInventoryMovements (Int limit) st) ->
      In m (inventoryMovements st) ->
      InventoryMovementWithDetails.movement_date d
      < InventoryMovement.movement_date m ->
      has_product st m = true ->
      exists d',
        In d' (MemStorage.getLatestInventoryMovements (Int limit) st) /\
        InventoryMovementWithDetails.movement d' = m) /\
  MemStorage.getLatestInventoryMovements IntNaN st = [].
Proof.
  intros Hlimit. unfold MemStorage.getLatestInventoryMovements, slice_to.
  assert (Hneg : (limit <? 0) = false) by (apply Z.ltb_ge; exact Hlimit).
  rewrite Hneg.
  set (sorted := sort_newest_first InventoryMovement.movement_date
                                   (inventoryMovements st)).
  set (n := Z.to_nat limit).
  assert (Hsorted : newest_first InventoryMovement.movement_date sorted)
    by apply sort_newest_first_sorted.
  assert (Hperm : Permutation sorted (inventoryMovements st))
    by apply sort_newest_first_perm.
  assert (Hsplit : sorted = firstn n sorted ++ skipn n sorted)
    by (symmetry; apply firstn_skipn).
  split; [|split; [|split; [|split]]].
  - rewrite <- (length_map InventoryMovementWithDetails.movement).
    rewrite with_details_movements.
    etransitivity; [apply filter_length_le|]. apply firstn_length_le.
  - apply with_details_sorted.
    rewrite Hsplit in Hsorted. apply newest_first_prefix in Hsorted.
    exact Hsorted.
  - intros d Hd. split.
    + apply with_details_In in Hd. apply firstn_member in Hd.
      apply (Permutation_in _ Hperm), Hd.
    + pose proof (with_details_labelled (firstn n sorted) st) as Hl.
      rewrite Forall_forall in Hl. apply Hl, Hd.
  - intros d m Hd Hm Hnewer Hprod.
    apply with_details_In in Hd.
    assert (Hms : In m sorted)
      by (apply (Permutation_in _ (Permutation_sym Hperm)), Hm).
    rewrite Hsplit in Hms. apply in_app_or in Hms.
    destruct Hms as [Hfirst | Hrest].
    + assert (Hin : In m (map InventoryMovementWithDetails.movement
                              (MemStorage.with_product_details
                                 (firstn n sorted) st))).
      { rewrite with_details_movements. apply filter_In. auto. }
      apply in_map_iff in Hin. destruct Hin as (d' & Hd' & Hin). eauto.
    + exfalso. rewrite Hsplit in Hsorted.
      pose proof (@newest_first_app _ _ _ _ _ _ Hsorted Hd Hrest) as Hle.
      unfold InventoryMovementWithDetails.movement_date in Hnewer. lia.
  - reflexivity.
Qed.

Lemma latest_movements_are_the_newest_witness :
  (List.length (MemStorage.getLatestInventoryMovements (Int 2)
                                                       example_backdated)
   <= Z.to_nat 2)%nat /\
  newest_first InventoryMovementWithDetails.movement_date
               (MemStorage.getLatestInventoryMovements (Int 2)
                                                       example_backdated) /\
  (forall d,
      In d (MemStorage.getLatestInventoryMovements (Int 2)
                                                   example_backdated) ->
      In (InventoryMovementWithDetails.movement d)
         (inventoryMovements example_backdated) /\
      labelled example_backdated d) /\
  (forall d m,
      In d (MemStorage.getLatestInventoryMovements (Int 2)
                                                   example_backdated) ->
      In m (inventoryMovements example_backdated) ->
      InventoryMovementWithDetails.movement_date d
      < InventoryMovement.movement_date m ->
      has_product example_backdated m = true ->
      exists d',
        In d' (MemStorage.getLatestInventoryMovements (Int 2)
                                                      example_backdated) /\
        InventoryMovementWithDetails.movement d' = m) /\
  MemStorage.getLatestInventoryMovements IntNaN example_backdated = [].
Proof.
  apply (@latest_movements_are_the_newest 2 example_backdated). lia.
Defined.

(** The two newest of the three movements, the one recorded last not among
    them. *)
Example latest_of_example :
  map (fun d => InventoryMovement.id (InventoryMovementWithDetails.movement d))
      (MemStorage.getLatestInventoryMovements (Int 2) example_backdated)
  = [2; 1].
Proof. reflexivity. Qed.

(* ================================================================== *)
(** * The invariants of the store *)
(* ================================================================== *)

(** ** What every route keeps, when the storage keeps it *)

Section Preservation.
Context {S : Type} {storage : IStorage S}.
Variable view : S -> Store.
Variable P : Store -> Prop.
Hypothesis HP : storage_preserves storage view P.

Lemma preserves_ret (A : Type) (a : A) : preserves view P (ret a : M S A).
Proof. intros s Hs. exact Hs. Qed.

Lemma preserves_bind (A B : Type) (m : M S A) (f : A -> M S B) :
  preserves view P m -> (forall a, preserves view P (f a)) ->
  preserves view P (bind m f).
Proof.
  intros Hm Hf s Hs. unfold bind. specialize (Hm s Hs).
  destruct (m s) as [[a|] s1]; cbn in *; auto. apply Hf, Hm.
Qed.

Lemma preserves_if (A : Type) (c : bool) (m1 m2 : M S A) :
  preserves view P m1 -> preserves view P m2 ->
  preserves view P (if c then m1 else m2).
Proof. destruct c; auto. Qed.

Lemma catching_preserves (m : M S Response) (failed : Response) (s : S) :
  preserves view P m -> P (view s) -> P (view (snd (catching m failed s))).
Proof.
  intros Hm Hs. unfold catching. specialize (Hm s Hs).
  destruct (m s) as [[r|] s1]; exact Hm.
Qed.

Lemma lookup_then_createUser_preserves
      (A : Type) (ins : InsertUser.t) (found : M S A) (k : User.t -> M S A) :
  preserves view P found -> (forall u, preserves view P (k u)) ->
  preserves view P
    (existing <- getUserByUsername (InsertUser.username ins) ;;
     match existing with
     | Some _ => found
     | None => u <- createUser ins ;; k u
     end).
Proof.
  intros Hfound Hk s Hs. unfold bind.
  pose proof (getUserByUsername_preserves HP (InsertUser.username ins) s Hs)
    as H1.
  pose proof (createUser_after_lookup HP ins s Hs) as H2.
  destruct (getUserByUsername (InsertUser.username ins) s)
    as [[[e|]|] s1]; cbn in *.
  - apply Hfound, H1.
  - specialize (H2 eq_refl).
    destruct (createUser ins s1) as [[u|] s2]; cbn in *; [|exact H2].
    apply Hk, H2.
  - exact H1.
Qed.

Lemma lookup_then_createProduct_preserves
      (A : Type) (p : InsertProduct.t) (found : M S A)
      (k : Product.t -> M S A) :
  preserves view P found -> (forall x, preserves view P (k x)) ->
  preserves view P
    (existing <- getProductByName (InsertProduct.name p) ;;
     match existing with
     | Some _ => found
     | None => x <- createProduct p ;; k x
     end).
Proof.
  intros Hfound Hk s Hs. unfold bind.
  pose proof (getProductByName_preserves HP (InsertProduct.name p) s Hs)
    as H1.
  pose proof (createProduct_after_lookup HP p s Hs) as H2.
  destruct (getProductByName (InsertProduct.name p) s)
    as [[[e|]|] s1]; cbn in *.
  - apply Hfound, H1.
  - specialize (H2 eq_refl).
    destruct (createProduct p s1) as [[x|] s2]; cbn in *; [|exact H2].
    apply Hk, H2.
  - exact H1.
Qed.

Lemma with_session_preserves
      (session : option Z) (route : option User.t -> S -> Response * S)
      (s : S) :
  (forall ou s1, P (view s1) -> P (view (snd (route ou s1)))) ->
  P (view s) -> P (view (snd (with_session session route s))).
Proof.
  intros Hroute Hs. unfold with_session.
  destruct session as [id|]; [|auto].
  unfold deserializeUser, bind.
  pose proof (getUser_preserves HP (Int id) s Hs) as H1.
  destruct (getUser (Int id) s) as [[[u|]|] s1]; cbn in *; auto.
Qed.

Lemma post_register_preserves
      (ou : option User.t) (b : RegisterRequest) (s : S) :
  P (view s) -> P (view (snd (post_register ou b s))).
Proof.
  intros Hs. unfold post_register. apply catching_preserves; [|exact Hs].
  destruct ou as [u|]; [|apply preserves_ret].
  apply preserves_if; [apply preserves_ret|].
  apply (lookup_then_createUser_preserves
           (InsertUser.mk (reg_username b) (reg_hashed b) (reg_is_admin b)
                          (reg_can_add_product b) (reg_can_view_reports b)
                          (reg_can_manage_inventory b))).
  - apply preserves_ret.
  - intros u0. apply preserves_ret.
Qed.

Lemma post_users_preserves (ou : option User.t) (b : UserRequest) (s : S) :
  P (view s) -> P (view (snd (post_users ou b s))).
Proof.
  intros Hs. unfold post_users. apply catching_preserves; [|exact Hs].
  destruct ou as [u|]; [|apply preserves_ret].
  apply preserves_if; [apply preserves_ret|].
  apply (lookup_then_createUser_preserves
           (InsertUser.mk (req_username b) (req_hashed b)
                          (Some (truthy (req_is_admin b)))
                          (Some (truthy (req_can_add_product b)))
                          (Some (truthy (req_can_view_reports b)))
                          (Some (truthy (req_can_manage_inventory b))))).
  - apply preserves_ret.
  - intros u0. apply preserves_ret.
Qed.

Lemma createAdminUser_preserves (hashed : string) (s : S) :
  P (view s) -> P (view (snd (createAdminUser hashed s))).
Proof.
  intros Hs. unfold createAdminUser. cbn [snd].
  apply (lookup_then_createUser_preserves
           (InsertUser.mk "admin" hashed (Some true) (Some true)
                          (Some true) (Some true))); auto.
  - apply preserves_ret.
  - intros u0. apply preserves_ret.
Qed.

Lemma post_products_preserves
      (ou : option User.t) (name : string) (category : option string)
      (s : S) :
  P (view s) -> P (view (snd (post_products ou name category s))).
Proof.
  intros Hs. unfold post_products. apply catching_preserves; [|exact Hs].
  destruct ou as [u|]; [|apply preserves_ret].
  apply preserves_if; [apply preserves_ret|].
  apply (lookup_then_createProduct_preserves (InsertProduct.mk name category)).
  - apply preserves_ret.
  - intros x. apply preserves_ret.
Qed.

Lemma delete_products_preserves
      (ou : option User.t) (id_param : string) (s : S) :
  P (view s) -> P (view (snd (delete_products ou id_param s))).
Proof.
  intros Hs. unfold delete_products. apply catching_preserves; [|exact Hs].
  destruct ou as [u|]; [|apply preserves_ret].
  apply preserves_if; [apply preserves_ret|].
  apply preserves_bind; [apply (deleteProduct_preserves HP)|].
  intros ok. apply preserves_if; apply preserves_ret.
Qed.

Lemma post_inventory_movements_preserves
      (now : Z) (ou : option User.t) (b : MovementRequest) (s : S) :
  P (view s) -> P (view (snd (post_inventory_movements now ou b s))).
Proof.
  intros Hs. unfold post_inventory_movements.
  apply catching_preserves; [|exact Hs].
  destruct ou as [u|]; [|apply preserves_ret].
  apply preserves_if; [apply preserves_ret|].
  apply preserves_if; [apply preserves_ret|].
  apply preserves_bind; [apply (createInventoryMovement_preserves HP)|].
  intros m.
  apply preserves_bind; [apply (updateInventory_preserves HP)|].
  intros i. apply preserves_ret.
Qed.

Lemma delete_inventory_movements_preserves
      (now : Z) (ou : option User.t) (id_param : string) (s : S) :
  P (view s) -> P (view (snd (delete_inventory_movements now ou id_param s))).
Proof.
  intros Hs. unfold delete_inventory_movements.
  apply catching_preserves; [|exact Hs].
  destruct ou as [u|]; [|apply preserves_ret].
  apply preserves_if; [apply preserves_ret|].
  apply preserves_bind; [apply (deleteInventoryMovement_preserves HP)|].
  intros ok. apply preserves_if; apply preserves_ret.
Qed.

Lemma delete_users_preserves
      (ou : option User.t) (id_param : string) (s : S) :
  P (view s) -> P (view (snd (delete_users ou id_param s))).
Proof.
  intros Hs. unfold delete_users. apply catching_preserves; [|exact Hs].
  destruct ou as [u|]; [|apply preserves_ret].
  apply preserves_if; [apply preserves_ret|].
  apply preserves_if; [apply preserves_ret|].
  apply preserves_bind; [apply (getAllUsers_preserves HP)|]. intros us.
  apply preserves_bind; [apply (getUser_preserves HP)|]. intros target.
  apply preserves_if; [apply preserves_ret|].
  apply preserves_bind; [apply (deleteUser_preserves HP)|].
  intros ok. apply preserves_if; apply preserves_ret.
Qed.

Lemma handle_preserves (r : Request) (s : S) :
  P (view s) -> P (view (snd (handle r s))).
Proof.
  intros Hs. destruct r; cbn [handle].
  - cbn [snd]. apply createAdminUser_preserves, Hs.
  - apply with_session_preserves; auto.
    intros; apply post_register_preserves; auto.
  - apply with_session_preserves; auto.
    intros; apply post_products_preserves; auto.
  - apply with_session_preserves; auto.
    intros; apply delete_products_preserves; auto.
  - apply with_session_preserves; auto.
    intros; apply post_inventory_movements_preserves; auto.
  - apply with_session_preserves; auto.
    intros; apply delete_inventory_movements_preserves; auto.
  - apply with_session_preserves; auto.
    intros; apply post_users_preserves; auto.
  - apply with_session_preserves; auto.
    intros; apply delete_users_preserves; auto.
Qed.

Lemma run_preserves (rs : list Request) (s : S) :
  P (view s) -> P (view (run rs s)).
Proof.
  revert s. induction rs as [|r rs IH]; intros s Hs; cbn; auto.
  apply IH, handle_preserves, Hs.
Qed.

End Preservation.

(** ** Tables under the changes that the operations make *)

Section FreshRows.
Variable row : Type.
Variable key : row -> Z.

Lemma rows_fresh_bump (c : Z) (l : list row) :
  rows_fresh key c l -> rows_fresh key (c + 1) l.
Proof.
  intros [Hnd Hf]. split; auto.
  eapply Forall_impl; [|exact Hf]. cbn. intros; lia.
Qed.

Lemma rows_fresh_append (c : Z) (r : row) (l : list row) :
  rows_fresh key c l -> key r = c -> rows_fresh key (c + 1) (l ++ [r]).
Proof.
  intros [Hnd Hf] Hr. split.
  - apply (@NoDup_keys_app_fresh _ key c); auto.
  - apply Forall_app. split.
    + eapply Forall_impl; [|exact Hf]. cbn. intros; lia.
    + constructor; [lia|constructor].
Qed.

Lemma rows_fresh_set (c : Z) (r : row) (l : list row) :
  rows_fresh key c l -> key r = c ->
  rows_set key r l = l ++ [r] /\ rows_fresh key (c + 1) (rows_set key r l).
Proof.
  intros Hl Hr.
  assert (E : rows_set key r l = l ++ [r]).
  { apply rows_set_fresh. rewrite Hr. apply fresh_not_has, Hl. }
  rewrite E. split; auto. apply rows_fresh_append; auto.
Qed.

Lemma rows_fresh_filter (c : Z) (f : row -> bool) (l : list row) :
  rows_fresh key c l -> rows_fresh key c (filter f l).
Proof.
  intros [Hnd Hf]. split.
  - apply NoDup_keys_filter, Hnd.
  - apply Forall_filter_keep, Hf.
Qed.

Lemma rows_fresh_replace (c : Z) (e r : row) (l : list row) :
  rows_fresh key c l -> key r = key e ->
  rows_fresh key c
             (map (fun x => if has_key key (Int (key e)) x then r else x) l).
Proof.
  intros [Hnd Hf] Hr. split.
  - rewrite <- Hr, map_replace_keys. exact Hnd.
  - apply Forall_map. rewrite Forall_forall in *. intros x Hx.
    destruct (has_key key (Int (key e)) x) eqn:E; auto.
    rewrite has_key_Int in E. apply Z.eqb_eq in E. rewrite Hr, <- E. auto.
Qed.

Lemma rows_has_In (r : row) (l : list row) :
  In r l -> rows_has key (Int (key r)) l = true.
Proof.
  intros H. apply existsb_exists. exists r. split; auto.
  rewrite has_key_Int. apply Z.eqb_refl.
Qed.

Lemma rows_has_app (k : integer) (l : list row) (r : row) :
  rows_has key k l = true -> rows_has key k (l ++ [r]) = true.
Proof.
  unfold rows_has. intros H. rewrite existsb_app, H. reflexivity.
Qed.

Lemma rows_has_delete_other (k : integer) (z : Z) (l : list row) :
  k <> Int z -> rows_has key (Int z) l = true ->
  rows_has key (Int z) (rows_delete key k l) = true.
Proof.
  unfold rows_has, rows_delete. intros Hne H.
  apply existsb_exists in H. destruct H as (r & Hin & Hr).
  apply existsb_exists. exists r. split; auto.
  apply filter_In. split; auto. apply negb_true_iff.
  apply not_true_is_false. intros E. apply Hne.
  unfold has_key in *. apply int_eqb_eq in E. apply int_eqb_eq in Hr.
  congruence.
Qed.

End FreshRows.

Section DistinctNames.
Variable row : Type.
Variable name : row -> string.

Lemma NoDup_map_filter (f : row -> bool) (l : list row) :
  NoDup (map name l) -> NoDup (map name (filter f l)).
Proof.
  induction l as [|x l IH]; cbn; intros H; auto.
  inversion H as [|? ? Hn Hnd]; subst.
  destruct (f x); cbn; auto. constructor; auto.
  intros Hin. apply Hn. apply in_map_iff in Hin.
  destruct Hin as (y & Hy & Hin). apply filter_In in Hin.
  rewrite <- Hy. apply in_map. tauto.
Qed.

Lemma NoDup_map_snoc (l : list row) (r : row) :
  NoDup (map name l) -> ~ In (name r) (map name l) ->
  NoDup (map name (l ++ [r])).
Proof.
  intros Hnd Hr. rewrite map_app. cbn. apply NoDup_app; auto.
  - constructor; [intros []|constructor].
  - intros k Hk [<- | []]. auto.
Qed.

Lemma find_none_not_in (n : string) (l : list row) :
  find (fun x => (name x =? n)%string) l = None -> ~ In n (map name l).
Proof.
  intros H Hin. apply in_map_iff in Hin. destruct Hin as (x & Hx & Hin).
  apply (find_none _ _ H) in Hin. cbn in Hin.
  rewrite Hx, String.eqb_refl in Hin. discriminate.
Qed.

Lemma existsb_none_not_in (n : string) (l : list row) :
  existsb (fun x => (name x =? n)%string) l = false -> ~ In n (map name l).
Proof.
  intros H Hin. apply in_map_iff in Hin. destruct Hin as (x & Hx & Hin).
  assert (E : existsb (fun x => (name x =? n)%string) l = true).
  { apply existsb_exists. exists x. split; auto.
    rewrite Hx. apply String.eqb_refl. }
  congruence.
Qed.

End DistinctNames.

(** The balance rows of a product. *)
Lemma count_by_product (g : integer -> bool) (l : list Inventory.t) :
  List.length (filter (fun i => g (Inventory.product_id i)) l)
  = List.length (filter g (map Inventory.product_id l)).
Proof.
  induction l as [|x l IH]; cbn; auto.
  destruct (g (Inventory.product_id x)); cbn; rewrite IH; reflexivity.
Qed.

Lemma one_balance_same_products (st st' : Store) :
  map Inventory.product_id (inventory st')
  = map Inventory.product_id (inventory st) ->
  one_balance_per_product st -> one_balance_per_product st'.
Proof.
  intros E H pid. specialize (H pid).
  rewrite (count_by_product (fun p => int_eqb p (Int pid))) in *.
  rewrite E. exact H.
Qed.

Lemma one_balance_filter (f : Inventory.t -> bool) (st st' : Store) :
  inventory st' = filter f (inventory st) ->
  one_balance_per_product st -> one_balance_per_product st'.
Proof.
  intros E H pid. specialize (H pid). rewrite E, filter_comm.
  etransitivity; [apply filter_length_le|exact H].
Qed.

Lemma one_balance_append (r : Inventory.t) (st st' : Store) :
  inventory st' = inventory st ++ [r] ->
  find (fun i => int_eqb (Inventory.product_id i) (Inventory.product_id r))
       (inventory st) = None ->
  one_balance_per_product st -> one_balance_per_product st'.
Proof.
  intros E Hnone H pid. specialize (H pid). rewrite E, filter_app, length_app.
  cbn. destruct (int_eqb (Inventory.product_id r) (Int pid)) eqn:Er;
    cbn; [|lia].
  apply int_eqb_eq in Er. rewrite Er in Hnone.
  rewrite ReportingFacts.filter_none; [cbn; lia|].
  intros x Hx. apply (find_none _ _ Hnone), Hx.
Qed.

(** Replacing the row of an id by a row of the same product. *)
Lemma replaced_product_ids (e c : Inventory.t) (l : list Inventory.t) :
  NoDup (map Inventory.id l) -> In e l ->
  Inventory.product_id c = Inventory.product_id e ->
  map Inventory.product_id
      (map (fun x => if has_key Inventory.id (Int (Inventory.id e)) x
                     then c else x) l)
  = map Inventory.product_id l.
Proof.
  intros Hnd Hin Hc. rewrite map_map. apply map_ext_in. intros x Hx.
  destruct (has_key Inventory.id (Int (Inventory.id e)) x) eqn:E; auto.
  rewrite has_key_Int in E. apply Z.eqb_eq in E.
  assert (x = e) by (apply (@NoDup_key_unique _ Inventory.id l); auto).
  subst x. exact Hc.
Qed.

(** ** The in-memory store *)

Ltac store_fields :=
  cbn [users products inventory inventoryMovements
       userIdCounter productIdCounter inventoryIdCounter movementIdCounter
       with_users with_products with_inventory with_movements
       fst snd].

Lemma mem_deleteUser_invariant (id : integer) (st : Store) :
  mem_invariant st -> mem_invariant (snd (MemStorage.deleteUser id st)).
Proof.
  intros ((Hu & Hp & Hi & Hm) & Hone & (Hun & Hpn)).
  unfold MemStorage.deleteUser, mem_invariant, store_wf, names_distinct.
  store_fields. repeat split; try apply Hp; try apply Hi; try apply Hm; auto.
  - apply NoDup_keys_filter, Hu.
  - apply Forall_filter_keep, Hu.
  - apply NoDup_map_filter, Hun.
Qed.

Lemma mem_createUser_invariant (ins : InsertUser.t) (st : Store) :
  MemStorage.getUserByUsername (InsertUser.username ins) st = None ->
  mem_invariant st -> mem_invariant (snd (MemStorage.createUser ins st)).
Proof.
  intros Hnone ((Hu & Hp & Hi & Hm) & Hone & (Hun & Hpn)).
  unfold MemStorage.createUser. store_fields.
  match goal with |- context [rows_set User.id ?u _] => set (user := u) end.
  destruct (@rows_fresh_set _ User.id (userIdCounter st) user (users st) Hu
                            eq_refl) as [E Hf].
  unfold mem_invariant, store_wf, names_distinct. store_fields.
  repeat split; try apply Hp; try apply Hi; try apply Hm; auto;
    try apply Hf.
  rewrite E.
  apply (NoDup_map_snoc (fun u => toLowerCase (User.username u))); auto.
  apply (find_none_not_in (fun u => toLowerCase (User.username u))).
  exact Hnone.
Qed.

Lemma mem_createProduct_invariant (p : InsertProduct.t) (st : Store) :
  MemStorage.getProductByName (InsertProduct.name p) st = None ->
  mem_invariant st -> mem_invariant (snd (MemStorage.createProduct p st)).
Proof.
  intros Hnone ((Hu & Hp & Hi & Hm) & Hone & (Hun & Hpn)).
  unfold MemStorage.createProduct. store_fields.
  match goal with |- context [rows_set Product.id ?x _] => set (new := x) end.
  destruct (@rows_fresh_set _ Product.id (productIdCounter st) new
                            (products st) Hp eq_refl) as [E Hf].
  unfold mem_invariant, store_wf, names_distinct. store_fields.
  repeat split; try apply Hu; try apply Hi; try apply Hm; auto;
    try apply Hf.
  rewrite E.
  apply (NoDup_map_snoc (fun x => toLowerCase (Product.name x))); auto.
  apply (find_none_not_in (fun x => toLowerCase (Product.name x))).
  exact Hnone.
Qed.

Lemma mem_deleteProduct_invariant (id : integer) (st : Store) :
  mem_invariant st -> mem_invariant (snd (MemStorage.deleteProduct id st)).
Proof.
  intros ((Hu & Hp & Hi & Hm) & Hone & (Hun & Hpn)).
  unfold MemStorage.deleteProduct. store_fields.
  rewrite !fold_rows_delete.
  unfold mem_invariant, store_wf, names_distinct. store_fields.
  repeat split; try apply Hu; auto.
  - apply NoDup_keys_filter, Hp.
  - apply Forall_filter_keep, Hp.
  - apply NoDup_keys_filter, Hi.
  - apply Forall_filter_keep, Hi.
  - apply NoDup_keys_filter, Hm.
  - apply Forall_filter_keep, Hm.
  - eapply one_balance_filter; [|exact Hone]. reflexivity.
  - apply NoDup_map_filter, Hpn.
Qed.

Lemma mem_createInventoryMovement_invariant
      (now : Z) (mv : InsertInventoryMovement.t) (st : Store) :
  mem_invariant st ->
  mem_invariant (snd (MemStorage.createInventoryMovement now mv st)).
Proof.
  intros ((Hu & Hp & Hi & Hm) & Hone & (Hun & Hpn)).
  unfold MemStorage.createInventoryMovement. store_fields.
  match goal with
  | |- context [rows_set InventoryMovement.id ?x _] => set (new := x)
  end.
  destruct (@rows_fresh_set _ InventoryMovement.id (movementIdCounter st) new
                            (inventoryMovements st) Hm eq_refl) as [E Hf].
  unfold mem_invariant, store_wf, names_distinct. store_fields.
  repeat split; try apply Hu; try apply Hp; try apply Hi; auto;
    try apply Hf.
Qed.

(** Replacing the balance row that was found for a product. *)
Lemma mem_replace_balance_invariant
      (k : integer) (e c : Inventory.t) (st : Store) :
  MemStorage.getInventoryItem k st = Some e ->
  Inventory.id c = Inventory.id e ->
  Inventory.product_id c = Inventory.product_id e ->
  mem_invariant st ->
  mem_invariant
    (with_inventory st (rows_set Inventory.id c (inventory st))
                    (inventoryIdCounter st)).
Proof.
  intros He Hid Hprod ((Hu & Hp & Hi & Hm) & Hone & (Hun & Hpn)).
  apply find_some in He. destruct He as [Hin _].
  assert (E : rows_set Inventory.id c (inventory st)
              = map (fun x => if has_key Inventory.id (Int (Inventory.id e)) x
                              then c else x) (inventory st)).
  { rewrite rows_set_present; rewrite Hid; auto.
    apply rows_has_In, Hin. }
  rewrite E.
  pose proof (@rows_fresh_replace _ Inventory.id (inventoryIdCounter st)
                                  e c (inventory st) Hi Hid) as Hr.
  unfold mem_invariant, store_wf, names_distinct. store_fields.
  repeat split; try apply Hu; try apply Hp; try apply Hm; auto;
    try apply Hr.
  eapply one_balance_same_products; [|exact Hone]. store_fields.
  apply replaced_product_ids; auto. apply Hi.
Qed.

Lemma mem_updateInventory_invariant
      (now : Z) (item : InsertInventory.t) (st : Store) :
  mem_invariant st ->
  mem_invariant (snd (MemStorage.updateInventory now item st)).
Proof.
  intros Hinv. unfold MemStorage.updateInventory.
  destruct (MemStorage.getInventoryItem (InsertInventory.product_id item) st)
    as [e|] eqn:He; store_fields.
  - apply (@mem_replace_balance_invariant _ e _ st He); auto.
  - destruct Hinv as ((Hu & Hp & Hi & Hm) & Hone & (Hun & Hpn)).
    match goal with
    | |- context [rows_set Inventory.id ?x _] => set (new := x)
    end.
    destruct (@rows_fresh_set _ Inventory.id (inventoryIdCounter st) new
                              (inventory st) Hi eq_refl) as [E Hf].
    unfold mem_invariant, store_wf, names_distinct. store_fields.
    repeat split; try apply Hu; try apply Hp; try apply Hm; auto;
      try apply Hf.
    apply (@one_balance_append new st); auto.
Qed.

Lemma mem_deleteInventoryMovement_invariant
      (now : Z) (id : integer) (st : Store) :
  mem_invariant st ->
  mem_invariant (snd (MemStorage.deleteInventoryMovement now id st)).
Proof.
  intros Hinv. unfold MemStorage.deleteInventoryMovement.
  destruct (rows_get InventoryMovement.id id (inventoryMovements st))
    as [mv|]; [|exact Hinv].
  store_fields.
  match goal with
  | |- context [rows_delete _ _ (inventoryMovements ?s)] => set (st1 := s)
  end.
  assert (H1 : mem_invariant st1).
  { subst st1.
    destruct (MemStorage.getInventoryItem (InventoryMovement.product_id mv) st)
      as [e|] eqn:He; [|exact Hinv].
    apply (@mem_replace_balance_invariant _ e _ st He); auto. }
  destruct H1 as ((Hu & Hp & Hi & Hm) & Hone & (Hun & Hpn)).
  unfold mem_invariant, store_wf, names_distinct. store_fields.
  repeat split; try apply Hu; try apply Hp; try apply Hi; auto.
  - apply NoDup_keys_filter, Hm.
  - apply Forall_filter_keep, Hm.
Qed.

Lemma mem_storage_preserves :
  storage_preserves Mem (fun st : Store => st) mem_invariant.
Proof.
  constructor; cbn; unfold preserves, pure_read, pure_op; cbn; auto.
  - intros id s. apply mem_deleteUser_invariant.
  - intros id s. apply mem_deleteProduct_invariant.
  - intros now m s. apply mem_createInventoryMovement_invariant.
  - intros now i s. apply mem_updateInventory_invariant.
  - intros now id s. apply mem_deleteInventoryMovement_invariant.
  - intros ins s Hs E. apply mem_createUser_invariant; auto. congruence.
  - intros p s Hs E. apply mem_createProduct_invariant; auto. congruence.
Qed.

(** ** The database *)

Lemma statement_preserves
      (A : Type) (run : Store -> outcome A * Store) (P : Store -> Prop) :
  (forall t, P t -> P (snd (run t))) -> preserves tables P (statement run).
Proof.
  intros Hrun [t fs] Ht. unfold statement. cbn in *.
  destruct fs as [|[|] fs]; cbn; auto.
Qed.

Lemma preserves_try_catch
      (S A : Type) (view : S -> Store) (P : Store -> Prop) (m h : M S A) :
  preserves view P m -> preserves view P h -> preserves view P (try_catch m h).
Proof.
  intros Hm Hh s Hs. unfold try_catch. specialize (Hm s Hs).
  destruct (m s) as [[a|] s1]; cbn in *; auto.
Qed.

Lemma ref_ok_same_parents (t t' : Store) (pid : integer) (uid : option Z) :
  users t' = users t -> products t' = products t ->
  product_ref_ok pid t' = product_ref_ok pid t /\
  user_ref_ok uid t' = user_ref_ok uid t.
Proof.
  intros Hu Hp. unfold product_ref_ok, user_ref_ok. rewrite Hu, Hp. auto.
Qed.

(** The references hold on when the rows that refer stay and what they
    refer to stays. *)
Lemma references_hold_parents (t t' : Store) :
  inventory t' = inventory t ->
  inventoryMovements t' = inventoryMovements t ->
  (forall i, In i (inventory t) ->
             product_ref_ok (Inventory.product_id i) t = true ->
             user_ref_ok (Inventory.updated_by i) t = true ->
             product_ref_ok (Inventory.product_id i) t' = true /\
             user_ref_ok (Inventory.updated_by i) t' = true) ->
  (forall m, In m (inventoryMovements t) ->
             product_ref_ok (InventoryMovement.product_id m) t = true ->
             user_ref_ok (InventoryMovement.user_id m) t = true ->
             product_ref_ok (InventoryMovement.product_id m) t' = true /\
             user_ref_ok (InventoryMovement.user_id m) t' = true) ->
  references_hold t -> references_hold t'.
Proof.
  intros Ei Em Hi Hm [Ri Rm]. unfold references_hold. rewrite Ei, Em.
  rewrite Forall_forall in Ri, Rm. split; apply Forall_forall.
  - intros i Hin. destruct (Ri i Hin). auto.
  - intros m Hin. destruct (Rm m Hin). auto.
Qed.

(** The references hold on when what is referred to stays and every row
    that refers is an old one or refers to something that is there. *)
Lemma references_hold_children (t t' : Store) :
  users t' = users t -> products t' = products t ->
  (forall i, In i (inventory t') ->
             In i (inventory t) \/
             (product_ref_ok (Inventory.product_id i) t = true /\
              user_ref_ok (Inventory.updated_by i) t = true)) ->
  (forall m, In m (inventoryMovements t') ->
             In m (inventoryMovements t) \/
             (product_ref_ok (InventoryMovement.product_id m) t = true /\
              user_ref_ok (InventoryMovement.user_id m) t = true)) ->
  references_hold t -> references_hold t'.
Proof.
  intros Eu Ep Hi Hm [Ri Rm]. unfold references_hold.
  rewrite Forall_forall in Ri, Rm. split; apply Forall_forall.
  - intros i Hin.
    destruct (@ref_ok_same_parents t t' (Inventory.product_id i)
                                   (Inventory.updated_by i) Eu Ep) as [-> ->].
    destruct (Hi i Hin) as [Hold | Hnew]; auto.
  - intros m Hin.
    destruct (@ref_ok_same_parents t t' (InventoryMovement.product_id m)
                                   (InventoryMovement.user_id m) Eu Ep)
      as [-> ->].
    destruct (Hm m Hin) as [Hold | Hnew]; auto.
Qed.

Lemma user_ref_ok_grows (uid : option Z) (t t' : Store) (u : User.t) :
  users t' = users t ++ [u] ->
  user_ref_ok uid t = true -> user_ref_ok uid t' = true.
Proof.
  unfold user_ref_ok. intros ->. destruct uid; auto. apply rows_has_app.
Qed.

Lemma product_ref_ok_grows (pid : integer) (t t' : Store) (p : Product.t) :
  products t' = products t ++ [p] ->
  product_ref_ok pid t = true -> product_ref_ok pid t' = true.
Proof.
  unfold product_ref_ok. intros ->. destruct pid; auto. apply rows_has_app.
Qed.

Lemma db_invariant_bump_users (t : Store) :
  db_invariant t ->
  db_invariant (with_users t (users t) (userIdCounter t + 1)).
Proof.
  intros ((Hu & Hp & Hi & Hm) & Hone & (Hun & Hpn) & Href).
  assert (Hrefs : references_hold
                    (with_users t (users t) (userIdCounter t + 1)))
    by (apply (@references_hold_children t); auto).
  unfold db_invariant, store_wf, names_distinct. store_fields.
  repeat split; try apply Hp; try apply Hi; try apply Hm; auto;
    try apply (@rows_fresh_bump _ User.id _ _ Hu); apply Hrefs.
Qed.

Lemma db_insert_user_invariant (ins : InsertUser.t) (t : Store) :
  db_invariant t -> db_invariant (snd (DatabaseStorage.insert_user ins t)).
Proof.
  intros Hinv. unfold DatabaseStorage.insert_user.
  destruct (_ || _) eqn:E; store_fields.
  - apply db_invariant_bump_users, Hinv.
  - destruct Hinv as ((Hu & Hp & Hi & Hm) & Hone & (Hun & Hpn) & Href).
    apply orb_false_iff in E. destruct E as [_ Ename].
    match goal with |- context [users t ++ [?x]] => set (user := x) in * end.
    pose proof (@rows_fresh_append _ User.id (userIdCounter t) user (users t)
                                   Hu eq_refl) as Hf.
    assert (Hrefs : references_hold
                      (with_users t (users t ++ [user]) (userIdCounter t + 1))).
    { apply (@references_hold_parents t); auto; intros x Hx Hpr Hur;
        (split;
         [exact Hpr
         |apply (@user_ref_ok_grows _ t _ user); auto]). }
    unfold db_invariant, store_wf, names_distinct. store_fields.
    repeat split; try apply Hp; try apply Hi; try apply Hm; auto;
      try apply Hf; try apply Hrefs.
    apply (NoDup_map_snoc (fun u => exact (User.username u))); auto.
    apply (existsb_none_not_in (fun u => exact (User.username u))).
    exact Ename.
Qed.

Lemma db_invariant_intro (t : Store) :
  rows_fresh User.id (userIdCounter t) (users t) ->
  rows_fresh Product.id (productIdCounter t) (products t) ->
  rows_fresh Inventory.id (inventoryIdCounter t) (inventory t) ->
  rows_fresh InventoryMovement.id (movementIdCounter t)
             (inventoryMovements t) ->
  one_balance_per_product t ->
  NoDup (map User.username (users t)) ->
  NoDup (map Product.name (products t)) ->
  references_hold t ->
  db_invariant t.
Proof.
  intros Hu Hp Hi Hm Hone Hun Hpn Href.
  split; [|split; [exact Hone|split; [split|exact Href]]].
  - unfold store_wf. auto.
  - exact Hun.
  - exact Hpn.
Qed.

Lemma db_invariant_parts (t : Store) :
  db_invariant t ->
  rows_fresh User.id (userIdCounter t) (users t) /\
  rows_fresh Product.id (productIdCounter t) (products t) /\
  rows_fresh Inventory.id (inventoryIdCounter t) (inventory t) /\
  rows_fresh InventoryMovement.id (movementIdCounter t)
             (inventoryMovements t) /\
  one_balance_per_product t /\
  NoDup (map User.username (users t)) /\
  NoDup (map Product.name (products t)) /\
  references_hold t.
Proof.
  intros ((Hu & Hp & Hi & Hm) & Hone & (Hun & Hpn) & Href).
  repeat (split; [assumption|]). exact Href.
Qed.

Lemma user_ref_after_delete (z : Z) (uid : option Z) (t t' : Store) :
  users t' = rows_delete User.id (Int z) (users t) ->
  uid <> Some z ->
  user_ref_ok uid t = true -> user_ref_ok uid t' = true.
Proof.
  unfold user_ref_ok. intros -> Hne. destruct uid as [u|]; auto.
  apply rows_has_delete_other. congruence.
Qed.

Lemma product_ref_after_delete (z : Z) (pid : integer) (t t' : Store) :
  products t' = rows_delete Product.id (Int z) (products t) ->
  pid <> Int z ->
  product_ref_ok pid t = true -> product_ref_ok pid t' = true.
Proof.
  unfold product_ref_ok. intros -> Hne. destruct pid as [p|]; auto.
  apply rows_has_delete_other. congruence.
Qed.

Lemma db_delete_user_invariant (id : integer) (t : Store) :
  db_invariant t -> db_invariant (snd (DatabaseStorage.delete_user id t)).
Proof.
  intros Hinv. unfold DatabaseStorage.delete_user.
  destruct id as [z|]; [|exact Hinv].
  destruct (rows_has User.id (Int z) (users t) && _) eqn:E; [exact Hinv|].
  apply db_invariant_parts in Hinv.
  destruct Hinv as (Hu & Hp & Hi & Hm & Hone & Hun & Hpn & Href).
  store_fields.
  apply db_invariant_intro; store_fields;
    [apply rows_fresh_filter, Hu | exact Hp | exact Hi | exact Hm
    | exact Hone | apply NoDup_map_filter, Hun | exact Hpn | ].
  apply (@references_hold_parents t); [reflexivity|reflexivity| | |exact Href].
  - intros i Hin Hpr Hur. split; [exact Hpr|].
    apply (@user_ref_after_delete z _ t); [reflexivity| |exact Hur].
    intros Eu. rewrite Eu in Hur. cbn in Hur. rewrite Hur in E.
    cbn in E. apply orb_false_iff in E. destruct E as [E _].
    assert (Ht : existsb (fun i => opt_eqb (Inventory.updated_by i) z)
                         (inventory t) = true).
    { apply existsb_exists. exists i. split; auto.
      rewrite Eu. cbn. apply Z.eqb_refl. }
    congruence.
  - intros m Hin Hpr Hur. split; [exact Hpr|].
    apply (@user_ref_after_delete z _ t); [reflexivity| |exact Hur].
    intros Eu. rewrite Eu in Hur. cbn in Hur. rewrite Hur in E.
    cbn in E. apply orb_false_iff in E. destruct E as [_ E].
    assert (Ht : existsb
                   (fun m => opt_eqb (InventoryMovement.user_id m) z)
                   (inventoryMovements t) = true).
    { apply existsb_exists. exists m. split; auto.
      rewrite Eu. cbn. apply Z.eqb_refl. }
    congruence.
Qed.

Lemma references_hold_same (t t' : Store) :
  users t' = users t -> products t' = products t ->
  inventory t' = inventory t ->
  inventoryMovements t' = inventoryMovements t ->
  references_hold t -> references_hold t'.
Proof.
  intros Eu Ep Ei Em. apply references_hold_children; auto.
  - intros i. rewrite Ei. auto.
  - intros m. rewrite Em. auto.
Qed.

Lemma db_invariant_bump_products (t : Store) :
  db_invariant t ->
  db_invariant (with_products t (products t) (productIdCounter t + 1)).
Proof.
  intros Hinv. apply db_invariant_parts in Hinv.
  destruct Hinv as (Hu & Hp & Hi & Hm & Hone & Hun & Hpn & Href).
  apply db_invariant_intro; store_fields;
    [exact Hu | apply rows_fresh_bump, Hp | exact Hi | exact Hm
    | exact Hone | exact Hun | exact Hpn | ].
  apply (@references_hold_same t); auto.
Qed.

Lemma db_insert_product_invariant (p : InsertProduct.t) (t : Store) :
  db_invariant t -> db_invariant (snd (DatabaseStorage.insert_product p t)).
Proof.
  intros Hinv. unfold DatabaseStorage.insert_product.
  destruct (_ || _) eqn:E; store_fields.
  - apply db_invariant_bump_products, Hinv.
  - apply db_invariant_parts in Hinv.
    destruct Hinv as (Hu & Hp & Hi & Hm & Hone & Hun & Hpn & Href).
    apply orb_false_iff in E. destruct E as [_ Ename].
    match goal with |- context [products t ++ [?x]] => set (new := x) in * end.
    apply db_invariant_intro; store_fields;
      [exact Hu | apply rows_fresh_append; [exact Hp|reflexivity]
      | exact Hi | exact Hm | exact Hone | exact Hun | | ].
    + apply (NoDup_map_snoc Product.name); [exact Hpn|].
      apply (existsb_none_not_in Product.name). exact Ename.
    + apply (@references_hold_parents t);
        [reflexivity|reflexivity| | |exact Href];
        intros x Hx Hpr Hur;
        (split;
         [apply (@product_ref_ok_grows _ t _ new); [reflexivity|exact Hpr]
         |exact Hur]).
Qed.

Lemma db_delete_movements_of_invariant (id : integer) (t : Store) :
  db_invariant t ->
  db_invariant (snd (DatabaseStorage.delete_movements_of id t)).
Proof.
  intros Hinv. unfold DatabaseStorage.delete_movements_of.
  destruct id as [z|]; [|exact Hinv].
  apply db_invariant_parts in Hinv.
  destruct Hinv as (Hu & Hp & Hi & Hm & Hone & Hun & Hpn & Href).
  store_fields.
  apply db_invariant_intro; store_fields;
    [exact Hu | exact Hp | exact Hi | apply rows_fresh_filter, Hm
    | exact Hone | exact Hun | exact Hpn | ].
  apply (@references_hold_children t); [reflexivity|reflexivity| | |exact Href].
  - intros i Hin. left. exact Hin.
  - store_fields. intros m Hin. apply filter_In in Hin. tauto.
Qed.

Lemma db_delete_inventory_of_invariant (id : integer) (t : Store) :
  db_invariant t ->
  db_invariant (snd (DatabaseStorage.delete_inventory_of id t)).
Proof.
  intros Hinv. unfold DatabaseStorage.delete_inventory_of.
  destruct id as [z|]; [|exact Hinv].
  apply db_invariant_parts in Hinv.
  destruct Hinv as (Hu & Hp & Hi & Hm & Hone & Hun & Hpn & Href).
  store_fields.
  apply db_invariant_intro; store_fields;
    [exact Hu | exact Hp | apply rows_fresh_filter, Hi | exact Hm
    | | exact Hun | exact Hpn | ].
  - eapply one_balance_filter; [|exact Hone]. reflexivity.
  - apply (@references_hold_children t);
      [reflexivity|reflexivity| | |exact Href].
    + store_fields. intros i Hin. apply filter_In in Hin. tauto.
    + intros m Hin. left. exact Hin.
Qed.

Lemma db_delete_movement_invariant (id : integer) (t : Store) :
  db_invariant t -> db_invariant (snd (DatabaseStorage.delete_movement id t)).
Proof.
  intros Hinv. unfold DatabaseStorage.delete_movement.
  destruct id as [z|]; [|exact Hinv].
  apply db_invariant_parts in Hinv.
  destruct Hinv as (Hu & Hp & Hi & Hm & Hone & Hun & Hpn & Href).
  store_fields.
  apply db_invariant_intro; store_fields;
    [exact Hu | exact Hp | exact Hi | apply rows_fresh_filter, Hm
    | exact Hone | exact Hun | exact Hpn | ].
  apply (@references_hold_children t); [reflexivity|reflexivity| | |exact Href].
  - intros i Hin. left. exact Hin.
  - store_fields. intros m Hin. apply filter_In in Hin. tauto.
Qed.

Lemma db_delete_product_invariant (id : integer) (t : Store) :
  db_invariant t -> db_invariant (snd (DatabaseStorage.delete_product id t)).
Proof.
  intros Hinv. unfold DatabaseStorage.delete_product.
  destruct id as [z|]; [|exact Hinv].
  destruct (rows_has Product.id (Int z) (products t) && _) eqn:E;
    [exact Hinv|].
  apply db_invariant_parts in Hinv.
  destruct Hinv as (Hu & Hp & Hi & Hm & Hone & Hun & Hpn & Href).
  store_fields.
  apply db_invariant_intro; store_fields;
    [exact Hu | apply rows_fresh_filter, Hp | exact Hi | exact Hm
    | exact Hone | exact Hun | apply NoDup_map_filter, Hpn | ].
  apply (@references_hold_parents t); [reflexivity|reflexivity| | |exact Href].
  - intros i Hin Hpr Hur. split; [|exact Hur].
    apply (@product_ref_after_delete z _ t); [reflexivity| |exact Hpr].
    intros Ep. rewrite Ep in Hpr. cbn in Hpr. rewrite Hpr in E.
    cbn in E. apply orb_false_iff in E. destruct E as [E _].
    assert (Ht : existsb
                   (fun i => int_eqb (Inventory.product_id i) (Int z))
                   (inventory t) = true).
    { apply existsb_exists. exists i. split; auto.
      rewrite Ep. apply int_eqb_refl. }
    congruence.
  - intros m Hin Hpr Hur. split; [|exact Hur].
    apply (@product_ref_after_delete z _ t); [reflexivity| |exact Hpr].
    intros Ep. rewrite Ep in Hpr. cbn in Hpr. rewrite Hpr in E.
    cbn in E. apply orb_false_iff in E. destruct E as [_ E].
    assert (Ht : existsb
                   (fun m =>
                      int_eqb (InventoryMovement.product_id m) (Int z))
                   (inventoryMovements t) = true).
    { apply existsb_exists. exists m. split; auto.
      rewrite Ep. apply int_eqb_refl. }
    congruence.
Qed.

Lemma db_invariant_bump_movements (t : Store) :
  db_invariant t ->
  db_invariant
    (with_movements t (inventoryMovements t) (movementIdCounter t + 1)).
Proof.
  intros Hinv. apply db_invariant_parts in Hinv.
  destruct Hinv as (Hu & Hp & Hi & Hm & Hone & Hun & Hpn & Href).
  apply db_invariant_intro; store_fields;
    [exact Hu | exact Hp | exact Hi | apply rows_fresh_bump, Hm
    | exact Hone | exact Hun | exact Hpn | ].
  apply (@references_hold_same t); auto.
Qed.

Lemma db_insert_movement_invariant
      (now : Z) (mv : InsertInventoryMovement.t) (t : Store) :
  db_invariant t ->
  db_invariant (snd (DatabaseStorage.insert_movement now mv t)).
Proof.
  intros Hinv. unfold DatabaseStorage.insert_movement.
  destruct (InsertInventoryMovement.product_id mv) as [pid|] eqn:Hpid;
    [|exact Hinv].
  destruct (_ || _) eqn:E; store_fields.
  - apply db_invariant_bump_movements, Hinv.
  - apply db_invariant_parts in Hinv.
    destruct Hinv as (Hu & Hp & Hi & Hm & Hone & Hun & Hpn & Href).
    apply orb_false_iff in E. destruct E as [E Euser].
    apply orb_false_iff in E. destruct E as [_ Eprod].
    apply negb_false_iff in Euser. apply negb_false_iff in Eprod.
    apply db_invariant_intro; store_fields;
      [exact Hu | exact Hp | exact Hi
      | apply rows_fresh_append; [exact Hm|reflexivity]
      | exact Hone | exact Hun | exact Hpn | ].
    apply (@references_hold_children t);
      [reflexivity|reflexivity| | |exact Href].
    + intros i Hin. left. exact Hin.
    + store_fields. intros m Hin. apply in_app_or in Hin.
      destruct Hin as [Hin | [<- | []]]; [left; exact Hin|right].
      cbn. auto.
Qed.

Lemma db_invariant_bump_inventory (t : Store) :
  db_invariant t ->
  db_invariant (with_inventory t (inventory t) (inventoryIdCounter t + 1)).
Proof.
  intros Hinv. apply db_invariant_parts in Hinv.
  destruct Hinv as (Hu & Hp & Hi & Hm & Hone & Hun & Hpn & Href).
  apply db_invariant_intro; store_fields;
    [exact Hu | exact Hp | apply rows_fresh_bump, Hi | exact Hm
    | exact Hone | exact Hun | exact Hpn | ].
  apply (@references_hold_same t); auto.
Qed.

(** A balance row is inserted for a product that has none. *)
Lemma db_insert_inventory_invariant
      (now : Z) (item : InsertInventory.t) (t : Store) :
  find (fun i => int_eqb (Inventory.product_id i)
                         (InsertInventory.product_id item))
       (inventory t) = None ->
  db_invariant t ->
  db_invariant (snd (DatabaseStorage.insert_inventory now item t)).
Proof.
  intros Hnone Hinv. unfold DatabaseStorage.insert_inventory.
  destruct (InsertInventory.product_id item) as [pid|] eqn:Hpid;
    [|exact Hinv].
  destruct (_ || _) eqn:E; store_fields.
  - apply db_invariant_bump_inventory, Hinv.
  - apply db_invariant_parts in Hinv.
    destruct Hinv as (Hu & Hp & Hi & Hm & Hone & Hun & Hpn & Href).
    apply orb_false_iff in E. destruct E as [E Euser].
    apply orb_false_iff in E. destruct E as [_ Eprod].
    apply negb_false_iff in Euser. apply negb_false_iff in Eprod.
    match goal with |- context [inventory t ++ [?x]] => set (new := x) in * end.
    apply db_invariant_intro; store_fields;
      [exact Hu | exact Hp
      | apply rows_fresh_append; [exact Hi|reflexivity]
      | exact Hm | | exact Hun | exact Hpn | ].
    + apply (@one_balance_append new t); [reflexivity|exact Hnone|exact Hone].
    + apply (@references_hold_children t);
        [reflexivity|reflexivity| | |exact Href].
      * store_fields. intros i Hin. apply in_app_or in Hin.
        destruct Hin as [Hin | [<- | []]]; [left; exact Hin|right].
        cbn. auto.
      * intros m Hin. left. exact Hin.
Qed.

(** The two updates of a balance row keep its id and its product. *)
Lemma db_update_rows_invariant
      (hit : Inventory.t -> bool) (set : Inventory.t -> Inventory.t)
      (t : Store) :
  (forall r, Inventory.id (set r) = Inventory.id r) ->
  (forall r, Inventory.product_id (set r) = Inventory.product_id r) ->
  (forall r, In r (inventory t) -> hit r = true ->
             user_ref_ok (Inventory.updated_by (set r)) t = true) ->
  db_invariant t ->
  db_invariant
    (with_inventory t
       (map (fun r => if hit r then set r else r) (inventory t))
       (inventoryIdCounter t)).
Proof.
  intros Hid Hprod Huser Hinv. apply db_invariant_parts in Hinv.
  destruct Hinv as (Hu & Hp & Hi & Hm & Hone & Hun & Hpn & Href).
  assert (Eid : map Inventory.id
                    (map (fun r => if hit r then set r else r) (inventory t))
                = map Inventory.id (inventory t)).
  { rewrite map_map. apply map_ext. intros r. destruct (hit r); auto. }
  apply db_invariant_intro; store_fields;
    [exact Hu | exact Hp | | exact Hm | | exact Hun | exact Hpn | ].
  - destruct Hi as [Hnd Hf]. split; [rewrite Eid; exact Hnd|].
    apply Forall_map. eapply Forall_impl; [|exact Hf]. cbn.
    intros r Hr. destruct (hit r); [rewrite Hid|]; exact Hr.
  - eapply one_balance_same_products; [|exact Hone]. store_fields.
    rewrite map_map. apply map_ext. intros r. destruct (hit r); auto.
  - apply (@references_hold_children t);
      [reflexivity|reflexivity| | |exact Href].
    + store_fields. intros i Hin. apply in_map_iff in Hin.
      destruct Hin as (r & Hr & Hin).
      destruct (hit r) eqn:Eh; [|subst i; left; exact Hin].
      right. subst i. rewrite Hprod. split; [|apply Huser; auto].
      destruct Href as [Ri _]. rewrite Forall_forall in Ri.
      apply (Ri r Hin).
    + intros m Hin. left. exact Hin.
Qed.

Lemma db_update_inventory_add_invariant
      (now : Z) (e : Inventory.t) (item : InsertInventory.t) (t : Store) :
  db_invariant t ->
  db_invariant (snd (DatabaseStorage.update_inventory_add now e item t)).
Proof.
  intros Hinv. unfold DatabaseStorage.update_inventory_add.
  destruct (rows_has Inventory.id (Int (Inventory.id e)) (inventory t)
            && _) eqn:E; [exact Hinv|].
  store_fields. apply db_update_rows_invariant; auto.
  intros r Hin Hr. cbn.
  assert (Hhas : rows_has Inventory.id (Int (Inventory.id e)) (inventory t)
                 = true).
  { apply existsb_exists. eauto. }
  rewrite Hhas in E. cbn in E. apply negb_false_iff in E. exact E.
Qed.

Lemma db_update_inventory_sub_invariant
      (now : Z) (e : Inventory.t) (mv : InventoryMovement.t) (t : Store) :
  db_invariant t ->
  db_invariant (snd (DatabaseStorage.update_inventory_sub now e mv t)).
Proof.
  intros Hinv. unfold DatabaseStorage.update_inventory_sub.
  store_fields. apply db_update_rows_invariant; auto.
  intros r Hin Hr. cbn.
  destruct Hinv as (_ & _ & _ & [Ri _]). rewrite Forall_forall in Ri.
  apply (Ri r Hin).
Qed.

Lemma statement_preserves_at
      (A : Type) (run : Store -> outcome A * Store) (P : Store -> Prop)
      (db : Db) :
  P (tables db) -> P (snd (run (tables db))) ->
  P (tables (snd (statement run db))).
Proof.
  destruct db as [t fs]. unfold statement. cbn.
  destruct fs as [|[|] fs]; cbn; auto.
Qed.

Lemma db_updateInventory_invariant
      (now : Z) (item : InsertInventory.t) :
  preserves tables db_invariant (DatabaseStorage.updateInventory now item).
Proof.
  intros db Hdb. unfold DatabaseStorage.updateInventory, bind.
  unfold DatabaseStorage.getInventoryItem.
  destruct (statement _ db) as [[oe|] db1] eqn:E1.
  - apply statement_Ok in E1. unfold DatabaseStorage.select_inventory_of in E1.
    destruct (InsertInventory.product_id item) as [pid|] eqn:Hpid;
      [|discriminate].
    injection E1 as Hoe Ht.
    destruct oe as [e|].
    + apply statement_preserves_at; rewrite <- Ht; auto.
      apply db_update_inventory_add_invariant, Hdb.
    + apply statement_preserves_at; rewrite <- Ht; auto.
      apply db_insert_inventory_invariant; auto.
      rewrite Hpid. exact Hoe.
  - apply statement_inv in E1. cbn [snd].
    destruct E1 as [[_ Ht] | E1]; [rewrite Ht; exact Hdb|].
    unfold DatabaseStorage.select_inventory_of in E1.
    destruct (InsertInventory.product_id item); injection E1 as Ht;
      try discriminate; rewrite <- Ht; exact Hdb.
Qed.

Lemma db_storage_preserves : storage_preserves Database tables db_invariant.
Proof.
  constructor; cbn [getUser getUserByUsername getAllUsers deleteUser
                    getProductByName deleteProduct createInventoryMovement
                    updateInventory deleteInventoryMovement createUser
                    createProduct Database].
  - intros id. apply statement_preserves. intros t Ht.
    unfold DatabaseStorage.select_user. destruct id; exact Ht.
  - intros n. apply statement_preserves. intros t Ht. exact Ht.
  - apply statement_preserves. intros t Ht. exact Ht.
  - intros id. unfold DatabaseStorage.deleteUser.
    apply preserves_try_catch; [|apply preserves_ret].
    apply preserves_bind; [|intros ?; apply preserves_ret].
    apply statement_preserves. intros t. apply db_delete_user_invariant.
  - intros n. apply statement_preserves. intros t Ht. exact Ht.
  - intros id. unfold DatabaseStorage.deleteProduct.
    apply preserves_try_catch; [|apply preserves_ret].
    apply preserves_bind;
      [apply statement_preserves; intros t;
       apply db_delete_movements_of_invariant|intros ?].
    apply preserves_bind;
      [apply statement_preserves; intros t;
       apply db_delete_inventory_of_invariant|intros ?].
    apply preserves_bind;
      [apply statement_preserves; intros t;
       apply db_delete_product_invariant|intros ?].
    apply preserves_ret.
  - intros now m. apply statement_preserves. intros t.
    apply db_insert_movement_invariant.
  - intros now i. apply db_updateInventory_invariant.
  - intros now id. unfold DatabaseStorage.deleteInventoryMovement.
    apply preserves_try_catch; [|apply preserves_ret].
    apply preserves_bind.
    { apply statement_preserves. intros t Ht.
      unfold DatabaseStorage.select_movement. destruct id; exact Ht. }
    intros [mv|]; [|apply preserves_ret].
    apply preserves_bind.
    { apply statement_preserves. intros t Ht.
      unfold DatabaseStorage.select_inventory_of.
      destruct (InventoryMovement.product_id mv); exact Ht. }
    intros oi. apply preserves_bind.
    { destruct oi as [e|]; [|apply preserves_ret].
      apply statement_preserves. intros t.
      apply db_update_inventory_sub_invariant. }
    intros ?. apply preserves_bind; [|intros ?; apply preserves_ret].
    apply statement_preserves. intros t. apply db_delete_movement_invariant.
  - intros ins s Hs _. unfold DatabaseStorage.createUser.
    assert (H1 : db_invariant
                   (tables (snd (DatabaseStorage.getUserByUsername
                                   (InsertUser.username ins) s)))).
    { unfold DatabaseStorage.getUserByUsername.
      apply statement_preserves_at; auto. }
    apply statement_preserves_at; auto.
    apply db_insert_user_invariant, H1.
  - intros p s Hs _. unfold DatabaseStorage.createProduct.
    assert (H1 : db_invariant
                   (tables (snd (DatabaseStorage.getProductByName
                                   (InsertProduct.name p) s)))).
    { unfold DatabaseStorage.getProductByName.
      apply statement_preserves_at; auto. }
    apply statement_preserves_at; auto.
    apply db_insert_product_invariant, H1.
Qed.

(** ** The invariants along every run of requests *)

Lemma mem_run_invariant (rs : list Request) (st : Store) :
  mem_invariant st -> mem_invariant (run rs st).
Proof.
  apply (@run_preserves Store Mem (fun st : Store => st) mem_invariant
                        mem_storage_preserves rs st).
Qed.

Lemma db_run_invariant (rs : list Request) (db : Db) :
  db_invariant (tables db) -> db_invariant (tables (run rs db)).
Proof.
  apply (@run_preserves Db Database tables db_invariant
                        db_storage_preserves rs db).
Qed.

(** The store that the constructor of the in-memory storage builds, and
    the empty database, have the invariants. *)
Lemma constructor_invariant : mem_invariant MemStorage.constructor.
Proof.
  unfold mem_invariant, store_wf, rows_fresh, one_balance_per_product,
    names_distinct. cbn.
  repeat split; try constructor; try (intros []); try constructor;
    try lia; try constructor.
Qed.

Lemma empty_store_invariant : db_invariant empty_store.
Proof.
  unfold db_invariant, store_wf, rows_fresh, one_balance_per_product,
    names_distinct, references_hold. cbn.
  repeat split; try constructor; try lia.
Qed.



(** X13.  A product has at most one balance row, whatever requests are
    served, in the in-memory store and in the database under every failure
    pattern of the connection: updateInventory adds a row only when its
    lookup found none, so the row that getInventoryItem finds for a product
    is the only one. *)
Theorem one_balance_row_per_product :
  (forall (rs : list Request) (st : Store),
      mem_invariant st -> one_balance_per_product (run rs st))
  /\
  (forall (rs : list Request) (db : Db),
      db_invariant (tables db) ->
      one_balance_per_product (tables (run rs db))).
Proof.
  split.
  - intros rs st H. apply (mem_run_invariant rs H).
  - intros rs db H. apply (db_run_invariant rs db H).
Qed.

Lemma one_balance_row_per_product_witness :
  one_balance_per_product (run example_requests MemStorage.constructor) /\
  one_balance_per_product
    (tables (run example_requests
                 (mkDb empty_store [false; false; true; false]))).
Proof.
  split.
  - apply (proj1 one_balance_row_per_product example_requests
                 MemStorage.constructor).
    exact constructor_invariant.
  - apply (proj2 one_balance_row_per_product example_requests
                 (mkDb empty_store [false; false; true; false])).
    exact empty_store_invariant.
Defined.

(** X14.  No two users share a username and no two products share a name,
    whatever requests are served.  The in-memory store keeps the names
    distinct up to the case of their letters, by the lookup that precedes
    every creation; the database keeps them distinct as they are written,
    by its unique columns, under every failure pattern of the connection
    (so it can hold "Un" beside "un"). *)
Theorem names_stay_distinct :
  (forall (rs : list Request) (st : Store),
      mem_invariant st -> names_distinct toLowerCase (run rs st))
  /\
  (forall (rs : list Request) (db : Db),
      db_invariant (tables db) ->
      names_distinct exact (tables (run rs db))).
Proof.
  split.
  - intros rs st H. apply (mem_run_invariant rs H).
  - intros rs db H. apply (db_run_invariant rs db H).
Qed.

Lemma names_stay_distinct_witness :
  names_distinct toLowerCase (run example_requests MemStorage.constructor) /\
  names_distinct exact
                 (tables (run example_requests
                              (mkDb empty_store [false; false; true; false]))).
Proof.
  split.
  - apply (proj1 names_stay_distinct example_requests MemStorage.constructor).
    exact constructor_invariant.
  - apply (proj2 names_stay_distinct example_requests
                 (mkDb empty_store [false; false; true; false])).
    exact empty_store_invariant.
Defined.

(** The product "un" beside "Un": refused by the in-memory store, accepted
    by the database. *)
Example names_of_example_products :
  map Product.name (products (run example_requests MemStorage.constructor))
  = [] /\
  map Product.name
      (products (tables (run (firstn 5 example_requests)
                             (healthy empty_store))))
  = ["Un"; "un"].
Proof. split; reflexivity. Qed.

(** X15.  In the database every balance row and every movement names a
    product that exists, and a user that exists where it names one,
    whatever requests are served and whatever the connection does: rows
    are inserted under their references, deleteProduct deletes the rows of
    the product before the product, and a user or a product that is still
    named is not deleted. *)
Theorem database_references_hold (rs : list Request) (db : Db) :
  db_invariant (tables db) -> references_hold (tables (run rs db)).
Proof.
  intros H. apply (db_run_invariant rs db H).
Qed.

Lemma database_references_hold_witness :
  references_hold
    (tables (run example_requests
                 (mkDb empty_store [false; false; true; false]))).
Proof.
  apply (@database_references_hold
           example_requests (mkDb empty_store [false; false; true; false])).
  exact empty_store_invariant.
Defined.

(** The in-memory store has no references to hold: it keeps the movement
    that the example requests record for a product that does not exist. *)
Example memory_keeps_orphans :
  map InventoryMovement.product_id
      (inventoryMovements (run example_requests MemStorage.constructor))
  = [Int 7].
Proof. reflexivity. Qed.

(* ================================================================== *)
(** * Recording a movement and deleting it again *)
(* ================================================================== *)






(** The unit of the balance is not part of what is undone: it stays the
    unit of the deleted movement. *)
Example unit_is_not_restored :
  option_map Inventory.unit (balance_of 1 example_ledger) = Some "kg" /\
  option_map
    Inventory.unit
    (balance_of
       1
       (snd (MemStorage.deleteInventoryMovement
               3000
               (Int (InventoryMovement.id
                       (fst (mem_record 2000 1 1 5 40 "adet" example_ledger))))
               (snd (mem_record 2000 1 1 5 40 "adet" example_ledger)))))
  = Some "adet".
Proof. split; reflexivity. Qed.

(* ================================================================== *)
(** * Setting the routes up a second time *)
(* ================================================================== *)

Lemma rows_set_member (row : Type) (key : row -> Z) (r : row) (l : list row) :
  In r (rows_set key r l).
Proof.
  unfold rows_set. destruct (rows_has key (Int (key r)) l) eqn:E.
  - unfold rows_has in E. induction l as [|x l IH]; cbn in *; [discriminate|].
    destruct (has_key key (Int (key r)) x); cbn in *; auto.
  - apply in_or_app. right. left. reflexivity.
Qed.

Lemma find_after_rows_set (row : Type) (key : row -> Z) (P : row -> bool)
      (r : row) (l : list row) :
  P r = true -> find P (rows_set key r l) <> None.
Proof.
  intros Hr Hn.
  pose proof (find_none _ _ Hn r (rows_set_member key r l)) as Hf.
  congruence.
Qed.

Lemma mem_createAdminUser_found (h : string) (st : Store) :
  MemStorage.getUserByUsername "admin" (snd (createAdminUser h st)) <> None.
Proof.
  unfold createAdminUser. cbn.
  destruct (MemStorage.getUserByUsername "admin" st) eqn:E; cbn.
  - rewrite E. discriminate.
  - unfold MemStorage.getUserByUsername. cbn.
    apply find_after_rows_set. reflexivity.
Qed.

Lemma mem_createAdminUser_known (h : string) (st : Store) :
  MemStorage.getUserByUsername "admin" st <> None ->
  snd (createAdminUser h st) = st.
Proof.
  intros Hf. unfold createAdminUser. cbn.
  destruct (MemStorage.getUserByUsername "admin" st); [reflexivity|].
  congruence.
Qed.

Lemma find_has_account (norm : string -> string) (name : string)
      (st : Store) :
  find (fun u => (norm (User.username u) =? norm name)%string) (users st)
  <> None ->
  has_account norm name st.
Proof.
  intros Hf.
  destruct (find (fun u => (norm (User.username u) =? norm name)%string)
                 (users st)) as [u|] eqn:E; [|congruence].
  apply find_some in E. destruct E as [Hin Hu].
  exists u. split; [exact Hin|]. apply String.eqb_eq. exact Hu.
Qed.

Lemma db_createAdminUser_known (h : string) (t : Store) :
  find (fun u => (User.username u =? "admin")%string) (users t) <> None ->
  snd (createAdminUser h (healthy t)) = healthy t.
Proof.
  intros Hf. unfold createAdminUser. cbn [snd]. unfold bind.
  cbn [getUserByUsername Database].
  unfold DatabaseStorage.getUserByUsername. rewrite statement_healthy.
  cbn [fst snd].
  destruct (find (fun u => (User.username u =? "admin")%string) (users t));
    [reflexivity | congruence].
Qed.

Lemma db_createAdminUser_found (h : string) (t : Store) :
  rows_fresh User.id (userIdCounter t) (users t) ->
  exists t',
    snd (createAdminUser h (healthy t)) = healthy t' /\
    find (fun u => (User.username u =? "admin")%string) (users t') <> None.
Proof.
  intros [Hnd Hlt].
  destruct (find (fun u => (User.username u =? "admin")%string) (users t))
    eqn:E.
  - exists t. split; [|rewrite E; discriminate].
    apply db_createAdminUser_known. rewrite E. discriminate.
  - unfold createAdminUser. cbn [snd]. unfold bind.
    cbn [getUserByUsername createUser Database].
    unfold DatabaseStorage.getUserByUsername, DatabaseStorage.createUser.
    rewrite statement_healthy. cbn [fst snd]. rewrite E.
    rewrite statement_healthy. unfold DatabaseStorage.insert_user.
    cbn [User.username InsertUser.username].
    rewrite (fresh_not_has User.id Hlt).
    assert (Hex : existsb (fun u => (User.username u =? "admin")%string)
                          (users t) = false).
    { apply not_true_is_false. intros Hx.
      apply existsb_exists in Hx. destruct Hx as (u & Hin & Hu).
      pose proof (find_none _ _ E u Hin) as Hf. cbn in Hf. congruence. }
    rewrite Hex. cbn [orb fst snd].
    eexists. split; [reflexivity|]. cbn [users with_users].
    rewrite (find_app_none _ _ _ E); [discriminate|reflexivity].
Qed.

(** X17.  Setting the routes up again changes nothing.  createAdminUser
    leaves a user named admin in the in-memory store, whatever the store
    held, and a second run on the result leaves the store as it is.  On a
    working database connection the same holds where the ids of the users
    table were handed out by its sequence. *)
Theorem set_up_again_changes_nothing (h h' : string) (st : Store) :
  (has_account toLowerCase "admin" (snd (createAdminUser h st)) /\
   snd (createAdminUser h' (snd (createAdminUser h st)))
   = snd (createAdminUser h st))
  /\
  (rows_fresh User.id (userIdCounter st) (users st) ->
   exists t,
     snd (createAdminUser h (healthy st)) = healthy t /\
     has_account exact "admin" t /\
     snd (createAdminUser h' (healthy t)) = healthy t).
Proof.
  split.
  - split.
    + apply find_has_account. apply mem_createAdminUser_found.
    + apply mem_createAdminUser_known, mem_createAdminUser_found.
  - intros Hfr. destruct (@db_createAdminUser_found h st Hfr) as (t & Et & Hf).
    exists t. split; [exact Et|]. split.
    + apply find_has_account. exact Hf.
    + apply db_createAdminUser_known. exact Hf.
Qed.

Lemma set_up_again_changes_nothing_witness :
  exists t,
    snd (createAdminUser MemStorage.admin_hash (healthy empty_store)) = healthy t /\
    has_account exact "admin" t /\
    snd (createAdminUser "other" (healthy t)) = healthy t.
Proof.
  apply (proj2 (@set_up_again_changes_nothing
                  MemStorage.admin_hash "other" empty_store)).
  split; constructor.
Defined.

(** Where the sequence of the users table is behind its rows, the first
    run fails on the primary key and leaves no admin; the sequence has
    moved on, and the second run creates the user. *)
Example set_up_after_a_stale_sequence :
  users (tables (snd (createAdminUser "h" (healthy example_stale_sequence))))
  = users example_stale_sequence /\
  map User.username
      (users (tables (snd (createAdminUser
                             "h"
                             (snd (createAdminUser
                                     "h"
                                     (healthy example_stale_sequence)))))))
  = ["ali"; "admin"].
Proof. split; reflexivity. Qed.
